(** * Factur-X generator: validation and CII serialisation

    A shallow embedding of [facturx_generator.py] (class [FacturXGenerator]:
    [validate_invoice_data], [_validate_siret], [_generate_facturx_xml],
    [_validate_xml]) and of the record construction of [app.py]
    ([generate_invoice]).

    Conventions of the embedding.
    - A Python [str] is a list of Unicode code points ([N]).  The classes
      [\s] and [\d] of [re] on [str] patterns, [int()] and [float()] are the
      Unicode-aware ones of CPython (Unicode 14.0 tables).
    - A Python [float] is an IEEE-754 binary64 number: Stdlib's [spec_float]
      at precision 53.
    - A call that can raise returns a [result]; the exception classes are the
      constructors of [exn].
    - The invoice [dict] is a record of optional fields, one per key the code
      reads; [None] stands for an absent key.  Text fields hold strings, the
      numeric fields hold arbitrary scalars ([pyval]).
    - The element tree of [lxml] is an inductive type.  [etree.tostring]
      and [etree.fromstring] belong to the library, not to this program:
      the first is modelled by the writer [tostring] (prefixed names, the
      declarations of [nsmap] on the root, escaping of character data,
      two-space indentation), the second on the fragment of XML 1.0 with
      namespaces that the writer produces, with the default limit of the
      parser on the size of a text node; on other texts the model of the
      parser gives no verdict.
    - Objects are modelled by their values, but for the floats under
      ['vat_rate'], that are keys of a [dict], found by identity before
      equality: an item keeps the address of that object. *)

From Stdlib Require Import String Ascii.
From Stdlib Require Import ZArith NArith QArith Qabs List Bool Lia.
From Stdlib Require Import Floats.SpecFloat.
From Stdlib Require DecimalN DecimalPos.
From Equations Require Import Equations.
Import ListNotations.

(* ================================================================== *)
(** ** Exceptions *)

Abbreviation codepoint := N (only parsing).
Abbreviation str := (list N) (only parsing).

Inductive exn : Type :=
| ValidationError (message : str)
| ValueError
| TypeError
| KeyError
| IndexError
| OverflowError.

Inductive result (A : Type) : Type :=
| Ok (a : A)
| Raise (e : exn).

Arguments Ok {A} a.
Arguments Raise {A} e.

Definition bind {A B : Type} (r : result A) (k : A -> result B) : result B :=
  match r with
  | Ok a => k a
  | Raise e => Raise e
  end.

Notation "x <- r ;; k" := (bind r (fun x => k))
  (at level 61, r at next level, right associativity).

(** [d[key]] on a key that may be absent. *)
Definition subscript {A : Type} (o : option A) : result A :=
  match o with
  | Some a => Ok a
  | None => Raise KeyError
  end.

(** Sequencing a fallible action over a list, left to right. *)
Fixpoint mapM {A B : Type} (f : A -> result B) (l : list A) : result (list B) :=
  match l with
  | [] => Ok []
  | a :: l' => b <- f a ;; bs <- mapM f l' ;; Ok (b :: bs)
  end.

(* ================================================================== *)
(** ** Text *)

Open Scope N_scope.

(** Decoding of the UTF-8 bytes of a literal of this file into code points. *)
Fixpoint utf8_decode (bytes : list N) : str :=
  match bytes with
  | [] => []
  | b :: rest =>
      if b <? 0x80 then b :: utf8_decode rest
      else if b <? 0xE0 then
        match rest with
        | b1 :: r => ((b - 0xC0) * 64 + (b1 - 0x80)) :: utf8_decode r
        | _ => []
        end
      else if b <? 0xF0 then
        match rest with
        | b1 :: b2 :: r =>
            ((b - 0xE0) * 4096 + (b1 - 0x80) * 64 + (b2 - 0x80)) :: utf8_decode r
        | _ => []
        end
      else
        match rest with
        | b1 :: b2 :: b3 :: r =>
            ((b - 0xF0) * 262144 + (b1 - 0x80) * 4096 + (b2 - 0x80) * 64 + (b3 - 0x80))
              :: utf8_decode r
        | _ => []
        end
  end.

Definition py (s : string) : str :=
  utf8_decode (map N_of_ascii (list_ascii_of_string s)).

(** [a == b] on text. *)
Fixpoint str_eqb (a b : str) : bool :=
  match a, b with
  | [], [] => true
  | x :: a', y :: b' => (x =? y) && str_eqb a' b'
  | _, _ => false
  end.

(** [str.isspace] of a character, which is also the class [\s] of [re]. *)
Definition py_isspace (c : codepoint) : bool :=
  ((9 <=? c) && (c <=? 13)) || ((28 <=? c) && (c <=? 32))
  || (c =? 0x85) || (c =? 0xA0) || (c =? 0x1680)
  || ((0x2000 <=? c) && (c <=? 0x200A))
  || (c =? 0x2028) || (c =? 0x2029) || (c =? 0x202F) || (c =? 0x205F)
  || (c =? 0x3000).

(** The decimal digits of Unicode (category Nd) come in runs of ten
    consecutive code points, valued 0 to 9; [decimal_zeros] lists the first
    code point of every run. *)
Definition decimal_zeros : list codepoint :=
  [ 0x30; 0x660; 0x6f0; 0x7c0; 0x966; 0x9e6; 0xa66; 0xae6; 0xb66; 0xbe6;
    0xc66; 0xce6; 0xd66; 0xde6; 0xe50; 0xed0; 0xf20; 0x1040; 0x1090; 0x17e0;
    0x1810; 0x1946; 0x19d0; 0x1a80; 0x1a90; 0x1b50; 0x1bb0; 0x1c40; 0x1c50;
    0xa620; 0xa8d0; 0xa900; 0xa9d0; 0xa9f0; 0xaa50; 0xabf0; 0xff10; 0x104a0;
    0x10d30; 0x11066; 0x110f0; 0x11136; 0x111d0; 0x112f0; 0x11450; 0x114d0;
    0x11650; 0x116c0; 0x11730; 0x118e0; 0x11950; 0x11c50; 0x11d50; 0x11da0;
    0x16a60; 0x16ac0; 0x16b50; 0x1d7ce; 0x1d7d8; 0x1d7e2; 0x1d7ec; 0x1d7f6;
    0x1e140; 0x1e2f0; 0x1e950; 0x1fbf0 ].

(** The offsets within a run. *)
Definition ten : list N := [0; 1; 2; 3; 4; 5; 6; 7; 8; 9].

Fixpoint decimal_in (zeros : list codepoint) (c : codepoint) : option N :=
  match zeros with
  | [] => None
  | z :: zs => if (z <=? c) && (c <? z + 10) then Some (c - z) else decimal_in zs c
  end.

(** The digit value of a character of the class [\d] ([str.isdecimal]). *)
Definition py_decimal (c : codepoint) : option N := decimal_in decimal_zeros c.

Definition py_isdecimal (c : codepoint) : bool :=
  match py_decimal c with Some _ => true | None => false end.

Definition ascii_digit (c : codepoint) : bool := (0x30 <=? c) && (c <=? 0x39).

(** Whitespace that [int()] and [float()] skip around a number: the ASCII
    blanks of C and the Unicode white space beyond ASCII. *)
Definition num_isspace (c : codepoint) : bool :=
  ((9 <=? c) && (c <=? 13)) || (c =? 32) || ((128 <=? c) && py_isspace c).

Fixpoint lstrip (s : str) : str :=
  match s with
  | [] => []
  | c :: r => if num_isspace c then lstrip r else s
  end.

Definition strip (s : str) : str := rev (lstrip (rev (lstrip s))).

(** Digits with single underscores between them, read in base ten.
    [after_digit] tells whether the previous character was a digit. *)
Fixpoint digits_value (acc : N) (after_digit : bool) (s : str) : option N :=
  match s with
  | [] => if after_digit then Some acc else None
  | c :: r =>
      match py_decimal c with
      | Some d => digits_value (acc * 10 + d) true r
      | None =>
          if (c =? 95) && after_digit then digits_value acc false r else None
      end
  end.

(** [int(s)] for a string: [ValueError] unless [s] is an optionally signed
    decimal numeral, blanks around it apart. *)
Definition py_int (s : str) : result Z :=
  let t := strip s in
  let '(negative, body) :=
    match t with
    | c :: r =>
        if c =? 43 then (false, r) else if c =? 45 then (true, r) else (false, t)
    | [] => (false, t)
    end in
  match digits_value 0 false body with
  | Some n => Ok (if negative then (- Z.of_N n)%Z else Z.of_N n)
  | None => Raise ValueError
  end.

(** [str(n)] for a natural number. *)
Fixpoint str_of_uint (d : Decimal.uint) : str :=
  match d with
  | Decimal.Nil => []
  | Decimal.D0 d => 0x30 :: str_of_uint d
  | Decimal.D1 d => 0x31 :: str_of_uint d
  | Decimal.D2 d => 0x32 :: str_of_uint d
  | Decimal.D3 d => 0x33 :: str_of_uint d
  | Decimal.D4 d => 0x34 :: str_of_uint d
  | Decimal.D5 d => 0x35 :: str_of_uint d
  | Decimal.D6 d => 0x36 :: str_of_uint d
  | Decimal.D7 d => 0x37 :: str_of_uint d
  | Decimal.D8 d => 0x38 :: str_of_uint d
  | Decimal.D9 d => 0x39 :: str_of_uint d
  end.

Definition str_of_N (n : N) : str := str_of_uint (N.to_uint n).

(** [str(z)] for an [int]. *)
Definition str_of_Z (z : Z) : str :=
  match z with
  | Zneg p => 45 :: str_of_N (Npos p)
  | _ => str_of_N (Z.to_N z)
  end.

(** [f"{z:02d}"]: zero-padded after the sign to a width of two. *)
Definition format_02d (z : Z) : str :=
  let s := str_of_Z z in
  match s with
  | [d] => [0x30; d]
  | _ => s
  end.

(** [sep.join(parts)]. *)
Fixpoint join (sep : str) (parts : list str) : str :=
  match parts with
  | [] => []
  | [p] => p
  | p :: ps => p ++ sep ++ join sep ps
  end.

(** [needle in haystack] on text. *)
Fixpoint starts_with (p s : str) : bool :=
  match p, s with
  | [], _ => true
  | a :: p', b :: s' => (a =? b) && starts_with p' s'
  | _ :: _, [] => false
  end.

Fixpoint contains (needle hay : str) : bool :=
  starts_with needle hay ||
  match hay with
  | [] => false
  | _ :: hay' => contains needle hay'
  end.

(** [not s] on a sequence. *)
Definition is_empty {A : Type} (s : list A) : bool :=
  match s with
  | [] => true
  | _ :: _ => false
  end.

(** [s.replace(old, '')] for a one-character [old]. *)
Definition remove_char (old : codepoint) (s : str) : str :=
  filter (fun c => negb (c =? old)) s.

(* ================================================================== *)
(** ** The SIRET check ([_validate_siret]) *)

(** [re.sub(r'[\s-]', '', siret)] *)
Definition sub_space_hyphen (siret : str) : str :=
  filter (fun c => negb (py_isspace c || (c =? 45))) siret.

(** [\d{n}] at the head of [s]: the text that follows the match. *)
Fixpoint match_digits (n : nat) (s : str) : option str :=
  match n with
  | O => Some s
  | S n' =>
      match s with
      | c :: r => if py_isdecimal c then match_digits n' r else None
      | [] => None
      end
  end.

(** [re.match(r'^\d{14}$', s)] is not [None]; [$] matches at the end of the
    text and before a newline that ends it. *)
Definition re_match_digits14 (s : str) : bool :=
  match match_digits 14 s with
  | Some [] => true
  | Some [c] => c =? 10
  | _ => false
  end.

(** The loop [for i, digit in enumerate(siret)] with its accumulator. *)
Fixpoint luhn_loop (i : nat) (siret : str) (total : Z) : result Z :=
  match siret with
  | [] => Ok total
  | digit :: rest =>
      n <- py_int [digit] ;;
      let n :=
        if Nat.eqb (i mod 2) 1 then
          let n := (n * 2)%Z in
          if (n >? 9)%Z then (n / 10 + n mod 10)%Z else n
        else n in
      luhn_loop (S i) rest (total + n)%Z
  end.

Definition _validate_siret (siret : str) : result bool :=
  let siret := sub_space_hyphen siret in
  if negb (re_match_digits14 siret) then Ok false
  else
    total <- luhn_loop 0 siret 0%Z ;;
    Ok ((total mod 10 =? 0)%Z).

(** The check as the specification words it: the text without white space
    and hyphens is fourteen decimal digits, and the sum of the digits, those at
    odd positions doubled and reduced by nine when the double exceeds nine, is
    a multiple of ten. *)
Definition digit_value (c : codepoint) : Z :=
  match py_decimal c with
  | Some v => Z.of_N v
  | None => 0%Z
  end.

Definition spec_luhn_term (i : nat) (d : Z) : Z :=
  if Nat.odd i then (if (2 * d >? 9)%Z then (2 * d - 9)%Z else (2 * d)%Z) else d.

Fixpoint spec_luhn_sum (i : nat) (ds : list Z) : Z :=
  match ds with
  | [] => 0%Z
  | d :: r => (spec_luhn_term i d + spec_luhn_sum (S i) r)%Z
  end.

Definition spec_siret_valid (digit : codepoint -> bool) (siret : str) : bool :=
  let n := sub_space_hyphen siret in
  Nat.eqb (length n) 14 && forallb digit n
  && (spec_luhn_sum 0 (map digit_value n) mod 10 =? 0)%Z.

(* ================================================================== *)
(** ** Numbers *)

(** Python's [float]: binary64. *)
Definition prec : Z := 53.
Definition emax : Z := 1024.
Abbreviation float := spec_float (only parsing).

Definition float_of_Z (z : Z) : spec_float := binary_normalize prec emax z 0 false.
Definition fadd : spec_float -> spec_float -> spec_float := SFadd prec emax.
Definition fmul : spec_float -> spec_float -> spec_float := SFmul prec emax.
Definition fdiv : spec_float -> spec_float -> spec_float := SFdiv prec emax.

(** The scalar values a field of the record may hold. *)
Inductive pyval : Type :=
| PNone
| PInt (z : Z)
| PFloat (f : spec_float)
| PStr (s : str).

(** [float(n)] for an [int]: [OverflowError] when the nearest float is not
    finite. *)
Definition float_of_int (z : Z) : result spec_float :=
  match float_of_Z z with
  | S754_infinity _ => Raise OverflowError
  | f => Ok f
  end.

(** What [float(s)] does to a string before it reads the number: decimal
    digits become ASCII digits and white space beyond ASCII becomes a blank. *)
Definition to_ascii_number (c : codepoint) : codepoint :=
  if c <? 128 then c
  else if py_isspace c then 32
  else match py_decimal c with
       | Some d => 0x30 + d
       | None => 63
       end.

(** Underscores are dropped when each stands between two digits; [prev] is
    the character before. *)
Fixpoint drop_underscores (prev : codepoint) (s : str) : option str :=
  match s with
  | [] => if prev =? 95 then None else Some []
  | c :: r =>
      if c =? 95 then
        if ascii_digit prev then drop_underscores c r else None
      else if (prev =? 95) && negb (ascii_digit c) then None
      else option_map (cons c) (drop_underscores c r)
  end.

Definition lower (c : codepoint) : codepoint :=
  if (65 <=? c) && (c <=? 90) then c + 32 else c.

Fixpoint span_digits (s : str) : str * str :=
  match s with
  | c :: r =>
      if ascii_digit c then let '(d, r') := span_digits r in (c :: d, r')
      else ([], s)
  | [] => ([], [])
  end.

Definition digits_to_N (ds : str) : N :=
  fold_left (fun acc c => acc * 10 + (c - 0x30)) ds 0.

Definition take_sign (s : str) : bool * str :=
  match s with
  | c :: r => if c =? 45 then (true, r) else if c =? 43 then (false, r) else (false, s)
  | [] => (false, s)
  end.

(** The float nearest to [(-1)^neg * m * 10^e], ties to even. *)
Definition decimal_to_float (neg : bool) (m : N) (e : Z) : spec_float :=
  let zm := Z.of_N m in
  match e with
  | Zneg p =>
      match zm with
      | Zpos pm =>
          fdiv (S754_finite neg pm 0) (S754_finite false (Pos.pow 10 p) 0)
      | _ => S754_zero neg
      end
  | _ => binary_normalize prec emax ((if neg then - zm else zm) * 10 ^ e) 0 neg
  end.

(** [float(s)] for a string. *)
Definition float_of_str (s : str) : result spec_float :=
  match drop_underscores 0 (map to_ascii_number s) with
  | None => Raise ValueError
  | Some t =>
      let '(neg, body) := take_sign (strip t) in
      let word := map lower body in
      if str_eqb word (py "inf") || str_eqb word (py "infinity")
      then Ok (S754_infinity neg)
      else if str_eqb word (py "nan") then Ok S754_nan
      else
        let '(ip, r1) := span_digits body in
        let '(fp, r2) :=
          match r1 with
          | c :: r => if c =? 46 then span_digits r else ([], r1)
          | [] => ([], r1)
          end in
        match ip ++ fp with
        | [] => Raise ValueError
        | mant =>
            let exponent : option Z :=
              match r2 with
              | [] => Some 0%Z
              | c :: r =>
                  if lower c =? 101 then
                    let '(eneg, r') := take_sign r in
                    match span_digits r' with
                    | ((_ :: _) as ed, []) =>
                        Some (if eneg then (- Z.of_N (digits_to_N ed))%Z
                              else Z.of_N (digits_to_N ed))
                    | _ => None
                    end
                  else None
              end in
            match exponent with
            | None => Raise ValueError
            | Some ex =>
                Ok (decimal_to_float neg (digits_to_N mant)
                      (ex - Z.of_nat (length fp))%Z)
            end
        end
  end.

(** [float(v)] *)
Definition py_float (v : pyval) : result spec_float :=
  match v with
  | PNone => Raise TypeError
  | PInt z => float_of_int z
  | PFloat f => Ok f
  | PStr s => float_of_str s
  end.

(** Comparisons of a float with the integer constants of the code. *)
Definition fle (a b : spec_float) : bool := SFleb a b.
Definition flt (a b : spec_float) : bool := SFltb a b.
Definition feq (a b : spec_float) : bool := SFeqb a b.

(** [f"{x:.2f}"] for a float: the nearest number with two decimals, ties to
    even, written without exponent. *)
Definition round_half_even (num den : Z) : Z :=
  let q := (num / den)%Z in
  let r := (num mod den)%Z in
  if (2 * r >? den)%Z then (q + 1)%Z
  else if (2 * r =? den)%Z then (if Z.even q then q else (q + 1)%Z)
  else q.

Definition cents_of_finite (m : positive) (e : Z) : Z :=
  match e with
  | Zneg p => round_half_even (Zpos m * 100) (2 ^ Zpos p)
  | _ => (Zpos m * 2 ^ e * 100)%Z
  end.

Definition two_digits (n : N) : str :=
  match str_of_N n with
  | [d] => [0x30; d]
  | s => s
  end.

Definition format_cents (neg : bool) (cents : Z) : str :=
  (if neg then [45] else [])
  ++ str_of_N (Z.to_N (cents / 100)) ++ [46] ++ two_digits (Z.to_N (cents mod 100)).

Definition format_2f_float (f : spec_float) : str :=
  match f with
  | S754_nan => py "nan"
  | S754_infinity s => if s then py "-inf" else py "inf"
  | S754_zero s => format_cents s 0
  | S754_finite s m e => format_cents s (cents_of_finite m e)
  end.

(** [f"{v:.2f}"] for a value of the record. *)
Definition format_2f (v : pyval) : result str :=
  match v with
  | PNone => Raise TypeError
  | PStr _ => Raise ValueError
  | PInt z => f <- float_of_int z ;; Ok (format_2f_float f)
  | PFloat f => Ok (format_2f_float f)
  end.

(* ================================================================== *)
(** ** The invoice record *)

Record party : Type := {
  name : option (list N);
  address : option (list N);
  postal_code : option (list N);
  city : option (list N);
  siret : option (list N);
  vat_number : option (list N)
}.

(** An entry of ['items'].  [rate_object] is the address of the object
    under ['vat_rate'] (what [id()] gives): two items hold the same object
    when their addresses agree, as when one float is put in both.  It is read
    where the code compares the objects themselves, as the keys of a [dict]
    are. *)
Record item : Type := {
  description : option (list N);
  quantity : option pyval;
  unit_price : option pyval;
  amount_ht : option pyval;
  vat_rate : option pyval;
  rate_object : N;
  vat_amount : option pyval;
  amount_ttc : option pyval
}.

Record invoice : Type := {
  date : option (list N);
  invoice_number : option (list N);
  issuer : option party;
  recipient : option party;
  items : option (list item);
  total_ht : option pyval;
  total_vat : option pyval;
  total_ttc : option pyval
}.

(** The empty dict [{}] that [data.get(party, {})] falls back to. *)
Definition empty_party : party :=
  {| name := None; address := None; postal_code := None; city := None;
     siret := None; vat_number := None |}.

(** [d.get(key, default)] *)
Definition get_default {A : Type} (o : option A) (default : A) : A :=
  match o with
  | Some a => a
  | None => default
  end.

(** Truth value of [d.get(key)] for a text field: absent and empty are
    false. *)
Definition truthy (o : option (list N)) : bool :=
  match o with
  | Some (_ :: _) => true
  | _ => false
  end.

(* ================================================================== *)
(** ** [datetime.strptime(text, '%Y-%m-%d')] *)

Definition in_range (lo hi c : codepoint) : bool := (lo <=? c) && (c <=? hi).

(** The alternatives of [%m], [1[0-2]|0[1-9]|[1-9]], in the order the regular
    expression tries them: the matched text and what follows it. *)
Definition month_alternatives (s : str) : list (str * str) :=
  match s with
  | a :: b :: r =>
      (if (a =? 0x31) && in_range 0x30 0x32 b then [([a; b], r)] else [])
      ++ (if (a =? 0x30) && in_range 0x31 0x39 b then [([a; b], r)] else [])
      ++ (if in_range 0x31 0x39 a then [([a], b :: r)] else [])
  | [a] => if in_range 0x31 0x39 a then [([a], [])] else []
  | [] => []
  end.

(** The alternatives of [%d], [3[01]|[12]\d|0[1-9]|[1-9]| [1-9]]. *)
Definition day_alternatives (s : str) : list (str * str) :=
  match s with
  | a :: b :: r =>
      (if (a =? 0x33) && in_range 0x30 0x31 b then [([a; b], r)] else [])
      ++ (if in_range 0x31 0x32 a && py_isdecimal b then [([a; b], r)] else [])
      ++ (if (a =? 0x30) && in_range 0x31 0x39 b then [([a; b], r)] else [])
      ++ (if in_range 0x31 0x39 a then [([a], b :: r)] else [])
      ++ (if (a =? 0x20) && in_range 0x31 0x39 b then [([a; b], r)] else [])
  | [a] => if in_range 0x31 0x39 a then [([a], [])] else []
  | [] => []
  end.

Fixpoint first_some {A B : Type} (f : A -> option B) (l : list A) : option B :=
  match l with
  | [] => None
  | a :: l' => match f a with Some b => Some b | None => first_some f l' end
  end.

Definition expect (c : codepoint) (s : str) : option str :=
  match s with
  | a :: r => if a =? c then Some r else None
  | [] => None
  end.

(** The match of [(?P<Y>\d\d\d\d)-(?P<m>...)-(?P<d>...)] at the head of the
    text: the three groups and the text left over. *)
Definition match_date (s : str) : option (str * str * str * str) :=
  match match_digits 4 s with
  | None => None
  | Some r0 =>
      let y := firstn 4 s in
      match expect 0x2D r0 with
      | None => None
      | Some r1 =>
          first_some
            (fun '(m, r2) =>
               match expect 0x2D r2 with
               | None => None
               | Some r3 =>
                   match day_alternatives r3 with
                   | (d, rest) :: _ => Some (y, m, d, rest)
                   | [] => None
                   end
               end)
            (month_alternatives r1)
      end
  end.

Definition is_leap (y : Z) : bool :=
  ((y mod 4 =? 0) && (negb (y mod 100 =? 0) || (y mod 400 =? 0)))%Z.

Definition days_in_month (y m : Z) : Z :=
  (if m =? 2 then (if is_leap y then 29 else 28)
   else if (m =? 4) || (m =? 6) || (m =? 9) || (m =? 11) then 30
   else 31)%Z.

(** The constructor [date(year, month, day)]. *)
Definition make_date (y m d : Z) : result (Z * Z * Z) :=
  if ((1 <=? y) && (y <=? 9999) && (1 <=? m) && (m <=? 12)
      && (1 <=? d) && (d <=? days_in_month y m))%Z
  then Ok (y, m, d)
  else Raise ValueError.

Definition strptime_ymd (text : str) : result (Z * Z * Z) :=
  match match_date text with
  | None => Raise ValueError
  | Some (y, m, d, rest) =>
      match rest with
      | _ :: _ => Raise ValueError
      | [] =>
          year <- py_int y ;;
          month <- py_int m ;;
          day <- py_int d ;;
          make_date year month day
      end
  end.

(* ================================================================== *)
(** ** The validator ([validate_invoice_data]) *)

(** [errors.append(message)] *)
Definition append (errors : list (list N)) (message : str) : list (list N) :=
  errors ++ [message].

(** [try: x = float(v); if bad(x): errors.append(range_message)
     except (ValueError, TypeError): errors.append(parse_message)] *)
Definition check_number (v : pyval) (bad : spec_float -> bool)
    (range_message parse_message : str) (errors : list (list N))
  : result (list (list N)) :=
  match py_float v with
  | Ok x => Ok (if bad x then append errors range_message else errors)
  | Raise ValueError => Ok (append errors parse_message)
  | Raise TypeError => Ok (append errors parse_message)
  | Raise e => Raise e
  end.

Definition zero : spec_float := float_of_Z 0.
Definition hundred : spec_float := float_of_Z 100.

(** [f"Article {i+1} - "] *)
Definition article (i : nat) : str :=
  py "Article " ++ str_of_N (N.of_nat (i + 1)) ++ py " - ".

(** The body of [for i, item in enumerate(data['items'])]. *)
Definition check_item (i : nat) (it : item) (errors : list (list N))
  : result (list (list N)) :=
  let errors :=
    if negb (truthy (description it))
    then append errors (article i ++ py "Description obligatoire")
    else errors in
  errors <- check_number (get_default (quantity it) (PInt 0))
              (fun q => fle q zero)
              (article i ++ py "Quantité doit être supérieure à 0")
              (article i ++ py "Quantité invalide") errors ;;
  errors <- check_number (get_default (unit_price it) (PInt 0))
              (fun p => flt p zero)
              (article i ++ py "Prix unitaire invalide")
              (article i ++ py "Prix unitaire invalide") errors ;;
  check_number (get_default (vat_rate it) (PInt 0))
    (fun r => flt r zero || flt hundred r)
    (article i ++ py "Taux de TVA invalide (0-100%)")
    (article i ++ py "Taux de TVA invalide") errors.

Fixpoint check_items (i : nat) (l : list item) (errors : list (list N))
  : result (list (list N)) :=
  match l with
  | [] => Ok errors
  | it :: l' => errors <- check_item i it errors ;; check_items (S i) l' errors
  end.

(** [for field, label in required_fields.items()] *)
Definition check_required (data : invoice) (errors : list (list N)) : list (list N) :=
  fold_left
    (fun errors '(value, label) =>
       if negb (truthy value) then append errors (label ++ py " est obligatoire")
       else errors)
    [ (date data, py "Date de facturation");
      (invoice_number data, py "Numéro de facture") ]
    errors.

Definition check_date (data : invoice) (errors : list (list N))
  : result (list (list N)) :=
  if truthy (date data) then
    match strptime_ymd (get_default (date data) []) with
    | Ok _ => Ok errors
    | Raise ValueError => Ok (append errors (py "Format de date invalide (YYYY-MM-DD attendu)"))
    | Raise e => Raise e
    end
  else Ok errors.

(** The four fields required of a party, with their keys. *)
Definition party_required (p : party) : list (option (list N) * list N) :=
  [ (name p, py "name"); (address p, py "address");
    (postal_code p, py "postal_code"); (city p, py "city") ].

Definition check_party (prefix : str) (p : option party) (errors : list (list N))
  : list (list N) :=
  fold_left
    (fun errors '(value, field) =>
       if negb (truthy value)
       then append errors (prefix ++ field ++ py " est obligatoire")
       else errors)
    (party_required (get_default p empty_party))
    errors.

(** [for party_type in ['issuer', 'recipient']]; the text is
    [party_type.capitalize()]. *)
Definition check_siret (capitalized : str) (p : option party) (errors : list (list N))
  : result (list (list N)) :=
  match siret (get_default p empty_party) with
  | Some ((_ :: _) as s) =>
      ok <- _validate_siret s ;;
      Ok (if negb ok then append errors (capitalized ++ py " - Format SIRET invalide")
          else errors)
  | _ => Ok errors
  end.

Definition check_articles (data : invoice) (errors : list (list N))
  : result (list (list N)) :=
  match items data with
  | Some ((_ :: _) as l) => check_items 0 l errors
  | _ => Ok (append errors (py "Au moins un article est obligatoire"))
  end.

Definition check_total (data : invoice) (errors : list (list N))
  : result (list (list N)) :=
  check_number (get_default (total_ttc data) (PInt 0))
    (fun t => fle t zero)
    (py "Le montant total doit être supérieur à 0")
    (py "Montant total invalide") errors.

(** The list [errors] when the function reaches [if errors:]. *)
Definition collect_errors (data : invoice) : result (list (list N)) :=
  let errors := [] in
  let errors := check_required data errors in
  errors <- check_date data errors ;;
  let errors := check_party (py "Émetteur - ") (issuer data) errors in
  let errors := check_party (py "Destinataire - ") (recipient data) errors in
  errors <- check_siret (py "Issuer") (issuer data) errors ;;
  errors <- check_siret (py "Recipient") (recipient data) errors ;;
  errors <- check_articles data errors ;;
  check_total data errors.

(** ["Erreurs de validation:\n" + "\n".join(f"- {error}" for error in errors)] *)
Definition validation_message (errors : list (list N)) : str :=
  py "Erreurs de validation:" ++ [10]
  ++ join [10] (map (fun error => py "- " ++ error) errors).

Definition validate_invoice_data (data : invoice) : result bool :=
  errors <- collect_errors data ;;
  match errors with
  | _ :: _ => Raise (ValidationError (validation_message errors))
  | [] => Ok true
  end.

(* ================================================================== *)
(** ** The record built from the form ([generate_invoice] of [app.py]) *)

(** The fields of [request.form]: the scalar ones as [request.form[key]]
    and [request.form.get(key, '')] read them, the four parallel lists as
    [getlist] returns them. *)
Record form : Type := {
  form_date : option (list N);
  form_invoice_number : option (list N);
  issuer_name : option (list N);
  issuer_address : option (list N);
  issuer_postal : option (list N);
  issuer_city : option (list N);
  issuer_siret : option (list N);
  issuer_vat : option (list N);
  recipient_name : option (list N);
  recipient_address : option (list N);
  recipient_postal : option (list N);
  recipient_city : option (list N);
  recipient_siret : option (list N);
  recipient_vat : option (list N);
  descriptions : list (list N);
  quantities : list (list N);
  unit_prices : list (list N);
  vat_rates : list (list N)
}.

(** [l[i]] on a list. *)
Definition index {A : Type} (l : list A) (i : nat) : result A :=
  match nth_error l i with
  | Some a => Ok a
  | None => Raise IndexError
  end.

(** One turn of [for i in range(len(descriptions))]: the items so far, and
    the item appended when the description is not empty.  Each [float()] of
    a text makes an object of its own: the rate of line [i] is given the
    address [i]. *)
Definition form_line (f : form) (acc : list item) (i : nat) : result (list item) :=
  d <- index (descriptions f) i ;;
  match d with
  | [] => Ok acc
  | _ :: _ =>
      q <- index (quantities f) i ;;
      quantity_ <- float_of_str q ;;
      p <- index (unit_prices f) i ;;
      unit_price_ <- float_of_str p ;;
      r <- index (vat_rates f) i ;;
      vat_rate_percent <- float_of_str r ;;
      let vat_rate_decimal := fdiv vat_rate_percent hundred in
      let amount_ht_ := fmul quantity_ unit_price_ in
      let vat_amount_ := fmul amount_ht_ vat_rate_decimal in
      let amount_ttc_ := fadd amount_ht_ vat_amount_ in
      Ok (acc ++ [ {| description := Some d;
                      quantity := Some (PFloat quantity_);
                      unit_price := Some (PFloat unit_price_);
                      amount_ht := Some (PFloat amount_ht_);
                      vat_rate := Some (PFloat vat_rate_percent);
                      rate_object := N.of_nat i;
                      vat_amount := Some (PFloat vat_amount_);
                      amount_ttc := Some (PFloat amount_ttc_) |} ])
  end.

Fixpoint foldM {A B : Type} (f : A -> B -> result A) (l : list B) (a : A) : result A :=
  match l with
  | [] => Ok a
  | b :: l' => a' <- f a b ;; foldM f l' a'
  end.

(** [a + b] on the values [sum] meets: an [int] start and floats. *)
Definition py_add (a b : pyval) : result pyval :=
  match a, b with
  | PInt x, PInt y => Ok (PInt (x + y))
  | PInt x, PFloat y => fx <- float_of_int x ;; Ok (PFloat (fadd fx y))
  | PFloat x, PInt y => fy <- float_of_int y ;; Ok (PFloat (fadd x fy))
  | PFloat x, PFloat y => Ok (PFloat (fadd x y))
  | _, _ => Raise TypeError
  end.

(** [sum(item[key] for item in items)], the additions made left to right
    from the integer 0 (CPython up to 3.11; later versions compensate the
    rounding of float additions, which no property below depends on). *)
Definition py_sum (field : item -> option pyval) (l : list item) : result pyval :=
  foldM (fun acc it => v <- subscript (field it) ;; py_add acc v) l (PInt 0).

Definition build_invoice_data (f : form) : result invoice :=
  date_ <- subscript (form_date f) ;;
  invoice_number_ <- subscript (form_invoice_number f) ;;
  iname <- subscript (issuer_name f) ;;
  iaddress <- subscript (issuer_address f) ;;
  ipostal <- subscript (issuer_postal f) ;;
  icity <- subscript (issuer_city f) ;;
  rname <- subscript (recipient_name f) ;;
  raddress <- subscript (recipient_address f) ;;
  rpostal <- subscript (recipient_postal f) ;;
  rcity <- subscript (recipient_city f) ;;
  items_ <- foldM (form_line f) (seq 0 (length (descriptions f))) [] ;;
  total_ht_ <- py_sum amount_ht items_ ;;
  total_vat_ <- py_sum vat_amount items_ ;;
  total_ttc_ <- py_sum amount_ttc items_ ;;
  Ok {| date := Some date_;
        invoice_number := Some invoice_number_;
        issuer := Some {| name := Some iname; address := Some iaddress;
                          postal_code := Some ipostal; city := Some icity;
                          siret := Some (get_default (issuer_siret f) []);
                          vat_number := Some (get_default (issuer_vat f) []) |};
        recipient := Some {| name := Some rname; address := Some raddress;
                             postal_code := Some rpostal; city := Some rcity;
                             siret := Some (get_default (recipient_siret f) []);
                             vat_number := Some (get_default (recipient_vat f) []) |};
        items := Some items_;
        total_ht := Some total_ht_;
        total_vat := Some total_vat_;
        total_ttc := Some total_ttc_ |}.

(* ================================================================== *)
(** ** The element tree ([lxml.etree]) *)

(** The namespaces of [nsmap], by prefix. *)
Inductive ns : Type := RSM | RAM | UDT | QDT.

Definition ns_eqb (a b : ns) : bool :=
  match a, b with
  | RSM, RSM | RAM, RAM | UDT, UDT | QDT, QDT => true
  | _, _ => false
  end.

Inductive xml : Type :=
| Element (space : ns) (tag : list N) (attrib : list (list N * list N))
          (text : option (list N)) (children : list xml).

Definition xml_space (e : xml) : ns := let 'Element s _ _ _ _ := e in s.
Definition xml_tag (e : xml) : list N := let 'Element _ t _ _ _ := e in t.
Definition xml_text (e : xml) : option (list N) := let 'Element _ _ _ t _ := e in t.
Definition xml_children (e : xml) : list xml := let 'Element _ _ _ _ c := e in c.
Definition xml_attrib (e : xml) : list (list N * list N) :=
  let 'Element _ _ a _ _ := e in a.

(** The characters XML admits; [lxml] refuses any other in a text. *)
Definition xml_char (c : codepoint) : bool :=
  (c =? 9) || (c =? 10) || (c =? 13) || in_range 0x20 0xD7FF c
  || in_range 0xE000 0xFFFD c || in_range 0x10000 0x10FFFF c.

(** The value stored by [element.text = s]. *)
Definition as_text (s : str) : result (list N) :=
  if forallb xml_char s then Ok s else Raise ValueError.

(** [etree.SubElement(parent, ram(tag)).text = s] *)
Definition ram_leaf (tag s : str) : result xml :=
  t <- as_text s ;; Ok (Element RAM tag [] (Some t) []).

Definition ram_node (tag : str) (children : list xml) : xml :=
  Element RAM tag [] None children.

(** The children of [e] named [ram:tag], in document order. *)
Definition ram_children (tag : str) (e : xml) : list xml :=
  filter (fun c => ns_eqb (xml_space c) RAM && str_eqb (xml_tag c) tag)
         (xml_children e).

(** The elements reached from [e] along a path of [ram:] names. *)
Fixpoint ram_path (path : list (list N)) (e : xml) : list xml :=
  match path with
  | [] => [e]
  | tag :: path' => flat_map (ram_path path') (ram_children tag e)
  end.

(** The elements at a path under the trade transaction, and their texts. *)
Definition elements_at (path : list (list N)) (root : xml) : list xml :=
  flat_map (ram_path path)
    (filter (fun c => ns_eqb (xml_space c) RSM
                      && str_eqb (xml_tag c) (py "SupplyChainTradeTransaction"))
            (xml_children root)).

Definition texts_at (path : list (list N)) (root : xml) : list (option (list N)) :=
  map xml_text (elements_at path root).

(* ================================================================== *)
(** ** The CII builder ([_generate_facturx_xml]) *)

(** One [IncludedSupplyChainTradeLineItem]. *)
Definition line_item (idx : nat) (it : item) : result xml :=
  line_id <- ram_leaf (py "LineID") (str_of_N (N.of_nat idx)) ;;
  d <- subscript (description it) ;;
  product_name <- ram_leaf (py "Name") d ;;
  v <- subscript (unit_price it) ;;
  s <- format_2f v ;;
  charge <- ram_leaf (py "ChargeAmount") s ;;
  v <- subscript (quantity it) ;;
  s <- format_2f v ;;
  t <- as_text s ;;
  let billed_qty := Element RAM (py "BilledQuantity") [(py "unitCode", py "C62")] (Some t) [] in
  type_code <- ram_leaf (py "TypeCode") (py "VAT") ;;
  category <- ram_leaf (py "CategoryCode") (py "S") ;;
  v <- subscript (vat_rate it) ;;
  s <- format_2f v ;;
  rate <- ram_leaf (py "RateApplicablePercent") s ;;
  v <- subscript (amount_ht it) ;;
  s <- format_2f v ;;
  line_total <- ram_leaf (py "LineTotalAmount") s ;;
  Ok (ram_node (py "IncludedSupplyChainTradeLineItem")
        [ ram_node (py "AssociatedDocumentLineDocument") [line_id];
          ram_node (py "SpecifiedTradeProduct") [product_name];
          ram_node (py "SpecifiedLineTradeAgreement")
            [ram_node (py "NetPriceProductTradePrice") [charge]];
          ram_node (py "SpecifiedLineTradeDelivery") [billed_qty];
          ram_node (py "SpecifiedLineTradeSettlement")
            [ ram_node (py "ApplicableTradeTax") [type_code; category; rate];
              ram_node (py "SpecifiedTradeSettlementLineMonetarySummation")
                [line_total] ] ]).

(** [for idx, item in enumerate(data['items'], 1)] *)
Fixpoint line_items (idx : nat) (l : list item) : result (list xml) :=
  match l with
  | [] => Ok []
  | it :: l' => x <- line_item idx it ;; xs <- line_items (S idx) l' ;; Ok (x :: xs)
  end.

(** The VAT number derived from the SIRET when the issuer gives none. *)
Definition derive_vat_number (siret_ : str) : result (list N) :=
  let siret_clean := remove_char 0x20 siret_ in
  if (9 <=? length siret_clean)%nat then
    let siren := firstn 9 siret_clean in
    n <- py_int siren ;;
    let key := ((12 + 3 * (n mod 97)) mod 97)%Z in
    Ok (py "FR" ++ format_02d key ++ siren)
  else Ok (py "FR00" ++ siret_clean).

(** [postcode], [address], [city] and the fixed country of a party. *)
Definition postal_address (p : party) : result xml :=
  v <- subscript (postal_code p) ;;
  postcode <- ram_leaf (py "PostcodeCode") v ;;
  v <- subscript (address p) ;;
  line_one <- ram_leaf (py "LineOne") v ;;
  v <- subscript (city p) ;;
  city_name <- ram_leaf (py "CityName") v ;;
  country <- ram_leaf (py "CountryID") (py "FR") ;;
  Ok (ram_node (py "PostalTradeAddress") [postcode; line_one; city_name; country]).

(** The issuer's VAT number, or the derived one [if not vat_number]. *)
Definition seller_vat_number (p : party) (siret_ : str) : result (list N) :=
  let vat_number_ := get_default (vat_number p) [] in
  match vat_number_ with
  | [] => derive_vat_number siret_
  | _ :: _ => Ok vat_number_
  end.

Definition seller_party (p : party) : result xml :=
  v <- subscript (name p) ;;
  seller_name <- ram_leaf (py "Name") v ;;
  let siret_ := get_default (siret p) (py "00000000000000") in
  legal_id <- ram_leaf (py "ID") siret_ ;;
  seller_addr <- postal_address p ;;
  vat_number_ <- seller_vat_number p siret_ ;;
  t <- as_text vat_number_ ;;
  Ok (ram_node (py "SellerTradeParty")
        [ seller_name;
          ram_node (py "SpecifiedLegalOrganization") [legal_id];
          seller_addr;
          ram_node (py "SpecifiedTaxRegistration")
            [Element RAM (py "ID") [(py "schemeID", py "VA")] (Some t) []] ]).

Definition buyer_party (p : party) : result xml :=
  v <- subscript (name p) ;;
  buyer_name <- ram_leaf (py "Name") v ;;
  buyer_addr <- postal_address p ;;
  Ok (ram_node (py "BuyerTradeParty") [buyer_name; buyer_addr]).

(** A key of the dict [vat_rates]: a float object, that is its address, if
    it is an object of the record, and its value.  [None] stands for an
    object made for the occasion, that nothing else holds. *)
Definition rate_key : Type := (option N * spec_float)%type.

(** [float(v)] as an object: [v] itself when [v] is a float, a new float
    otherwise. *)
Definition float_object (address : N) (v : pyval) : result rate_key :=
  f <- py_float v ;;
  Ok (match v with
      | PFloat _ => Some address
      | _ => None
      end, f).

(** The same binary64 datum. *)
Definition same_float (a b : spec_float) : bool :=
  match a, b with
  | S754_zero s, S754_zero s' => Bool.eqb s s'
  | S754_infinity s, S754_infinity s' => Bool.eqb s s'
  | S754_nan, S754_nan => true
  | S754_finite s m e, S754_finite s' m' e' =>
      Bool.eqb s s' && Pos.eqb m m' && Z.eqb e e'
  | _, _ => false
  end.

(** [a is b]: one object, at one address, hence with one value. *)
Definition same_object (a b : rate_key) : bool :=
  match fst a, fst b with
  | Some i, Some j => (i =? j) && same_float (snd a) (snd b)
  | _, _ => false
  end.

(** How a dict finds a key: the entry holds the same object, or an object
    that compares equal.  The first never fails the second, a NaN apart: a
    NaN rate finds an earlier key only if it is that very object. *)
Definition same_key (a b : rate_key) : bool := same_object a b || feq (snd a) (snd b).

(** The dict [vat_rates]: its keys in insertion order, each with its
    ['base'] and ['tax']. *)
Definition rate_table : Type := list (rate_key * (spec_float * spec_float)).

Fixpoint add_to_rate (rate : rate_key) (base tax : spec_float) (d : rate_table)
  : rate_table :=
  match d with
  | [] => [(rate, (fadd zero base, fadd zero tax))]
  | (r, (b, t)) :: d' =>
      if same_key rate r then (r, (fadd b base, fadd t tax)) :: d'
      else (r, (b, t)) :: add_to_rate rate base tax d'
  end.

(** The body of [for item in data['items']] that fills [vat_rates]. *)
Definition group_item (d : rate_table) (it : item) : result rate_table :=
  v <- subscript (vat_rate it) ;;
  rate <- float_object (rate_object it) v ;;
  v <- subscript (amount_ht it) ;;
  base <- py_float v ;;
  v <- subscript (vat_amount it) ;;
  tax <- py_float v ;;
  Ok (add_to_rate rate base tax d).

(** One [ApplicableTradeTax] of the settlement. *)
Definition tax_block (entry : rate_key * (spec_float * spec_float)) : result xml :=
  let '((_, rate), (base, tax)) := entry in
  calculated <- ram_leaf (py "CalculatedAmount") (format_2f_float tax) ;;
  type_code <- ram_leaf (py "TypeCode") (py "VAT") ;;
  basis <- ram_leaf (py "BasisAmount") (format_2f_float base) ;;
  category <- ram_leaf (py "CategoryCode") (py "S") ;;
  percent <- ram_leaf (py "RateApplicablePercent") (format_2f_float rate) ;;
  Ok (ram_node (py "ApplicableTradeTax") [calculated; type_code; basis; category; percent]).

Definition monetary_summation (data : invoice) : result xml :=
  v <- subscript (total_ht data) ;;
  s <- format_2f v ;;
  line_total <- ram_leaf (py "LineTotalAmount") s ;;
  v <- subscript (total_ht data) ;;
  s <- format_2f v ;;
  tax_basis <- ram_leaf (py "TaxBasisTotalAmount") s ;;
  v <- subscript (total_vat data) ;;
  s <- format_2f v ;;
  t <- as_text s ;;
  let tax_total :=
    Element RAM (py "TaxTotalAmount") [(py "currencyID", py "EUR")] (Some t) [] in
  v <- subscript (total_ttc data) ;;
  s <- format_2f v ;;
  grand_total <- ram_leaf (py "GrandTotalAmount") s ;;
  v <- subscript (total_ttc data) ;;
  s <- format_2f v ;;
  due <- ram_leaf (py "DuePayableAmount") s ;;
  Ok (ram_node (py "SpecifiedTradeSettlementHeaderMonetarySummation")
        [line_total; tax_basis; tax_total; grand_total; due]).

(** The element tree [root] at the end of [_generate_facturx_xml]. *)
Definition build_tree (data : invoice) : result xml :=
  guideline_id <- ram_leaf (py "ID")
    (py "urn:cen.eu:en16931:2017#compliant#urn:factur-x.eu:1p0:basic") ;;
  let context := Element RSM (py "ExchangedDocumentContext") [] None
    [ram_node (py "GuidelineSpecifiedDocumentContextParameter") [guideline_id]] in
  v <- subscript (invoice_number data) ;;
  document_id <- ram_leaf (py "ID") v ;;
  type_code <- ram_leaf (py "TypeCode") (py "380") ;;
  v <- subscript (date data) ;;
  t <- as_text (remove_char 0x2D v) ;;
  let dt_string :=
    Element UDT (py "DateTimeString") [(py "format", py "102")] (Some t) [] in
  let document := Element RSM (py "ExchangedDocument") [] None
    [document_id; type_code; ram_node (py "IssueDateTime") [dt_string]] in
  l <- subscript (items data) ;;
  lines <- line_items 1 l ;;
  p <- subscript (issuer data) ;;
  seller <- seller_party p ;;
  p <- subscript (recipient data) ;;
  buyer <- buyer_party p ;;
  let agreement := ram_node (py "ApplicableHeaderTradeAgreement") [seller; buyer] in
  let delivery := ram_node (py "ApplicableHeaderTradeDelivery") [] in
  currency <- ram_leaf (py "InvoiceCurrencyCode") (py "EUR") ;;
  l <- subscript (items data) ;;
  vat_rates_ <- foldM group_item l [] ;;
  taxes <- mapM tax_block vat_rates_ ;;
  terms <- ram_leaf (py "Description") (py "Paiement à réception de facture") ;;
  let payment := ram_node (py "SpecifiedTradePaymentTerms") [terms] in
  monetary <- monetary_summation data ;;
  let settlement := ram_node (py "ApplicableHeaderTradeSettlement")
    ([currency] ++ taxes ++ [payment; monetary]) in
  let transaction := Element RSM (py "SupplyChainTradeTransaction") [] None
    (lines ++ [agreement; delivery; settlement]) in
  Ok (Element RSM (py "CrossIndustryInvoice") [] None
        [context; document; transaction]).

(* ================================================================== *)
(** ** Serialisation ([etree.tostring(root, encoding='unicode',
       pretty_print=True)]) *)

Definition quote : list N := [34].

Definition prefix_of (s : ns) : list N :=
  match s with
  | RSM => py "rsm"
  | RAM => py "ram"
  | UDT => py "udt"
  | QDT => py "qdt"
  end.

(** The four bindings of [nsmap], declared on the root. *)
Definition nsmap : list (list N * list N) :=
  [ (py "rsm", py "urn:un:unece:uncefact:data:standard:CrossIndustryInvoice:100");
    (py "ram", py "urn:un:unece:uncefact:data:standard:ReusableAggregateBusinessInformationEntity:100");
    (py "udt", py "urn:un:unece:uncefact:data:standard:UnqualifiedDataType:100");
    (py "qdt", py "urn:un:unece:uncefact:data:standard:QualifiedDataType:100") ].

(** Character data: [<], [>], [&] and carriage return are escaped. *)
Definition escape_char (c : codepoint) : list N :=
  if c =? 60 then py "&lt;"
  else if c =? 62 then py "&gt;"
  else if c =? 38 then py "&amp;"
  else if c =? 13 then py "&#13;"
  else [c].

Definition escape_text (s : str) : list N := flat_map escape_char s.

(** Attribute values: the quote, tab and newline are escaped as well. *)
Definition escape_attr_char (c : codepoint) : list N :=
  if c =? 34 then py "&quot;"
  else if c =? 10 then py "&#10;"
  else if c =? 9 then py "&#9;"
  else escape_char c.

Definition escape_attr (s : str) : list N := flat_map escape_attr_char s.

(** A name with its optional prefix. *)
Definition qname : Type := (option (list N) * list N)%type.

Definition write_qname (q : qname) : list N :=
  match q with
  | (Some p, local) => p ++ [58] ++ local
  | (None, local) => local
  end.

Definition write_attribute (a : qname * list N) : list N :=
  [32] ++ write_qname (fst a) ++ [61] ++ quote ++ escape_attr (snd a) ++ quote.

Definition write_attributes (l : list (qname * list N)) : list N :=
  flat_map write_attribute l.

Definition own_attributes (attrib : list (list N * list N)) : list (qname * list N) :=
  map (fun a => ((None, fst a), snd a)) attrib.

Definition declarations (bindings : list (list N * list N)) : list (qname * list N) :=
  map (fun b => ((Some (py "xmlns"), fst b), snd b)) bindings.

Definition indentation (level : nat) : list N := repeat 32 (2 * level).

(** An element at a nesting level: children are set on lines of their own
    unless the element holds text. *)
Fixpoint write_element (decls : list (qname * list N)) (level : nat) (e : xml)
  : list N :=
  match e with
  | Element s tag attrib text children =>
      let name := write_qname (Some (prefix_of s), tag) in
      let start := [60] ++ name ++ write_attributes (decls ++ own_attributes attrib) in
      match text, children with
      | None, [] => start ++ py "/>"
      | None, _ :: _ =>
          start ++ [62; 10]
          ++ flat_map (fun c => indentation (S level) ++ write_element [] (S level) c ++ [10])
                      children
          ++ indentation level ++ py "</" ++ name ++ [62]
      | Some t, _ =>
          start ++ [62] ++ escape_text t
          ++ flat_map (write_element [] (S level)) children
          ++ py "</" ++ name ++ [62]
      end
  end.

Definition tostring (root : xml) : list N :=
  write_element (declarations nsmap) 0 root ++ [10].

Definition xml_declaration : list N :=
  py "<?xml version=" ++ quote ++ py "1.0" ++ quote
  ++ py " encoding=" ++ quote ++ py "UTF-8" ++ quote ++ py "?>" ++ [10].

(** [_generate_facturx_xml]: the declaration, then the tree. *)
Definition _generate_facturx_xml (data : invoice) : result (list N) :=
  root <- build_tree data ;;
  Ok (xml_declaration ++ tostring root).

(* ================================================================== *)
(** ** Parsing ([etree.fromstring]) and the structural check

    The parser is modelled on a fragment of XML 1.0 with namespaces, the one
    the writer above produces: the declaration written above, elements with
    prefixed or plain names, double-quoted attributes without references,
    character data without a bare [>], the five predefined entities and
    decimal character references.  There it checks that tags match, that no
    attribute is repeated and that every prefix is bound, and it keeps the
    limit that libxml2 sets by default on a text node
    ([XML_MAX_TEXT_LENGTH], lifted only by [huge_tree=True]): adjacent
    character data and references make one text node, and the parser gives
    up on a node above 10,000,000 bytes.

    On a text outside the fragment the model gives no verdict ([Unread]):
    a comment, a CDATA section, a single-quoted attribute, and also a name
    above 50,000 bytes, an attribute value above the limit of a text node or
    elements nested more than 256 deep, which are near other limits of
    libxml2. *)

(** The bytes of a character, and of a text, in UTF-8. *)
Definition utf8_length (c : codepoint) : N :=
  if c <? 0x80 then 1 else if c <? 0x800 then 2 else if c <? 0x10000 then 3 else 4.

Definition bytes (s : str) : N := fold_right (fun c n => utf8_length c + n) 0 s.

Definition text_limit : N := 10000000.

Definition name_limit : N := 50000.

Definition depth_limit : nat := 256.

Definition is_space (c : codepoint) : bool :=
  (c =? 32) || (c =? 9) || (c =? 10) || (c =? 13).

Definition name_start (c : codepoint) : bool :=
  in_range 65 90 c || in_range 97 122 c || (c =? 95).

Definition name_char (c : codepoint) : bool :=
  name_start c || in_range 48 57 c || (c =? 45) || (c =? 46).

(** The longest prefix of the text made of characters of a class. *)
Fixpoint span (p : codepoint -> bool) (s : str) : list N * list N :=
  match s with
  | c :: r => if p c then let '(a, b) := span p r in (c :: a, b) else ([], s)
  | [] => ([], [])
  end.

Definition parse_name (s : str) : option (list N * list N) :=
  match span name_char s with
  | ((c :: _) as n, r) =>
      if name_start c && (bytes n <=? name_limit) then Some (n, r) else None
  | ([], _) => None
  end.

Definition parse_qname (s : str) : option (qname * list N) :=
  match parse_name s with
  | None => None
  | Some (n, r) =>
      match r with
      | c :: r' =>
          if c =? 58 then
            match parse_name r' with
            | Some (local, r'') => Some ((Some n, local), r'')
            | None => None
            end
          else Some ((None, n), r)
      | [] => Some ((None, n), r)
      end
  end.

Definition value_char (c : codepoint) : bool :=
  xml_char c && negb (c =? 34) && negb (c =? 60) && negb (c =? 38).

(** Attributes, each after white space: the list read and the text from
    the end of the start tag on. *)
Fixpoint parse_attributes (fuel : nat) (s : str)
  : option (list (qname * list N) * list N) :=
  match fuel with
  | O => None
  | S fuel' =>
      match span is_space s with
      | (_ :: _, (c :: _) as r) =>
          if name_start c then
            match parse_qname r with
            | Some (q, r1) =>
                match expect 61 r1 with
                | Some r2 =>
                    match expect 34 r2 with
                    | Some r3 =>
                        let '(v, r4) := span value_char r3 in
                        match expect 34 r4 with
                        | Some r5 =>
                            if bytes v <=? text_limit then
                              match parse_attributes fuel' r5 with
                              | Some (l, r6) => Some ((q, v) :: l, r6)
                              | None => None
                              end
                            else None
                        | None => None
                        end
                    | None => None
                    end
                | None => None
                end
            | None => None
            end
          else Some ([], r)
      | (_, r) => Some ([], r)
      end
  end.

Definition qname_eqb (a b : qname) : bool :=
  match fst a, fst b with
  | Some p, Some q => str_eqb p q && str_eqb (snd a) (snd b)
  | None, None => str_eqb (snd a) (snd b)
  | _, _ => false
  end.

Fixpoint distinct_names (l : list qname) : bool :=
  match l with
  | [] => true
  | q :: l' => negb (existsb (qname_eqb q) l') && distinct_names l'
  end.

(** The prefixes that the attributes [xmlns:p] of a start tag bind. *)
Fixpoint bound_prefixes (l : list (qname * list N)) : list (list N) :=
  match l with
  | [] => []
  | ((Some p, local), _) :: l' =>
      if str_eqb p (py "xmlns") then local :: bound_prefixes l' else bound_prefixes l'
  | _ :: l' => bound_prefixes l'
  end.

Definition prefix_bound (env : list (list N)) (q : qname) : bool :=
  match fst q with
  | None => true
  | Some p => str_eqb p (py "xmlns") || existsb (str_eqb p) env
  end.

(** A reference after its [&]: a predefined entity, or a decimal character
    reference to a character of XML.  The character it stands for, and the
    text after it. *)
Definition parse_reference (s : str) : option (codepoint * list N) :=
  let '(n, r) := span (fun c => negb (c =? 59) && (name_char c || (c =? 35))) s in
  match expect 59 r with
  | None => None
  | Some r' =>
      if str_eqb n (py "lt") then Some (60, r')
      else if str_eqb n (py "gt") then Some (62, r')
      else if str_eqb n (py "amp") then Some (38, r')
      else if str_eqb n (py "quot") then Some (34, r')
      else if str_eqb n (py "apos") then Some (39, r')
      else
        match n with
        | 35 :: ((_ :: _) as ds) =>
            if forallb ascii_digit ds && xml_char (digits_to_N ds)
            then Some (digits_to_N ds, r')
            else None
        | _ => None
        end
  end.

Definition data_char (c : codepoint) : bool :=
  xml_char c && negb (c =? 60) && negb (c =? 38) && negb (c =? 62).

(** What the parser makes of a text: it reads it, up to the text that
    follows; it gives up, on a text node above the limit; or the text is not
    of the fragment, and the model says nothing. *)
Inductive parsed : Type :=
| Read (rest : list N)
| Refused
| Unread.

(** One more character in a text node of [node] bytes. *)
Definition grow (node : N) (c : codepoint) (k : N -> parsed) : parsed :=
  if node + utf8_length c <=? text_limit then k (node + utf8_length c) else Refused.

(** An element at the head of the text: the text after its end tag.
    [parse_content] reads the content of an element up to and including the
    [</] of its end tag; [node] counts the bytes of the text node being
    read, which a child element ends.  [depth] bounds the nesting. *)
Fixpoint parse_element (fuel depth : nat) (env : list (list N)) (s : str) : parsed :=
  match fuel, depth with
  | S fuel', S depth' =>
      match expect 60 s with
      | None => Unread
      | Some s1 =>
          match parse_qname s1 with
          | None => Unread
          | Some (q, s2) =>
              match parse_attributes fuel' s2 with
              | None => Unread
              | Some (attrs, s3) =>
                  let env' := bound_prefixes attrs ++ env in
                  if distinct_names (map fst attrs)
                     && forallb (prefix_bound env') (q :: map fst attrs)
                  then
                    match s3 with
                    | 47 :: s4 =>
                        match expect 62 s4 with
                        | Some r => Read r
                        | None => Unread
                        end
                    | 62 :: s4 =>
                        match parse_content fuel' depth' env' 0 s4 with
                        | Read s5 =>
                            match parse_qname s5 with
                            | None => Unread
                            | Some (q', s6) =>
                                if qname_eqb q q'
                                then match expect 62 (snd (span is_space s6)) with
                                     | Some r => Read r
                                     | None => Unread
                                     end
                                else Unread
                            end
                        | Refused => Refused
                        | Unread => Unread
                        end
                    | _ => Unread
                    end
                  else Unread
              end
          end
      end
  | _, _ => Unread
  end
with parse_content (fuel depth : nat) (env : list (list N)) (node : N) (s : str)
  : parsed :=
  match fuel with
  | O => Unread
  | S fuel' =>
      match s with
      | [] => Unread
      | c :: r =>
          if c =? 60 then
            match r with
            | c' :: r' =>
                if c' =? 47 then Read r'
                else
                  match parse_element fuel' depth env s with
                  | Read s' => parse_content fuel' depth env 0 s'
                  | Refused => Refused
                  | Unread => Unread
                  end
            | [] => Unread
            end
          else if c =? 38 then
            match parse_reference r with
            | Some (x, s') => grow node x (fun node' => parse_content fuel' depth env node' s')
            | None => Unread
            end
          else if data_char c
          then grow node c (fun node' => parse_content fuel' depth env node' r)
          else Unread
      end
  end.

Fixpoint strip_prefix (p s : str) : option (list N) :=
  match p, s with
  | [], _ => Some s
  | a :: p', b :: s' => if a =? b then strip_prefix p' s' else None
  | _ :: _, [] => None
  end.

(** A document: the declaration if there is one, white space, the root
    element, white space.  [Some true]: the parser returns a tree;
    [Some false]: it raises [XMLSyntaxError]; [None]: no verdict. *)
Definition xml_parses (s : str) : option bool :=
  let s1 := match strip_prefix (py "<?xml") s with
            | Some _ => strip_prefix xml_declaration s
            | None => Some s
            end in
  match s1 with
  | None => None
  | Some s2 =>
      match parse_element (length s) depth_limit [] (snd (span is_space s2)) with
      | Read r => if is_empty (snd (span is_space r)) then Some true else None
      | Refused => Some false
      | Unread => None
      end
  end.

(** [_validate_xml]: the text parses and names the four elements.  What it
    returns, where the parser is modelled. *)
Definition required_elements : list (list N) :=
  [ py "CrossIndustryInvoice"; py "ExchangedDocumentContext";
    py "ExchangedDocument"; py "SupplyChainTradeTransaction" ].

Definition _validate_xml (xml_content : str) : option bool :=
  match xml_parses xml_content with
  | Some true =>
      Some (forallb (fun element => contains element xml_content) required_elements)
  | Some false => Some false
  | None => None
  end.

(** What the parser needs of a tree to read its serialisation back: names
    are names, attribute values need no escaping and no attribute is
    repeated, texts hold characters of XML only, and an element with text
    has no child. *)
Definition name_ok (n : list N) : bool :=
  match n with
  | c :: _ => name_start c && forallb name_char n && (bytes n <=? name_limit)
  | [] => false
  end.

Definition qname_ok (q : qname) : bool :=
  match fst q with
  | Some p => name_ok p && name_ok (snd q)
  | None => name_ok (snd q)
  end.

Definition plain_char (c : codepoint) : bool :=
  value_char c && negb (c =? 62) && negb (c =? 9) && negb (c =? 10) && negb (c =? 13).

Definition attribute_ok (a : qname * list N) : bool :=
  qname_ok (fst a) && forallb plain_char (snd a) && (bytes (snd a) <=? text_limit).

Definition attributes_ok (l : list (qname * list N)) : bool :=
  forallb attribute_ok l && distinct_names (map fst l)
  && forallb (fun a => match fst (fst a) with
                       | Some p => str_eqb p (py "xmlns")
                       | None => true
                       end) l.

Fixpoint tree_ok (e : xml) : bool :=
  match e with
  | Element s tag attrib text children =>
      name_ok tag && attributes_ok (own_attributes attrib)
      && match text with
         | Some t => forallb xml_char t && is_empty children
         | None => true
         end
      && forallb tree_ok children
  end.

(** The nesting of a tree. *)
Fixpoint height (e : xml) : nat :=
  match e with
  | Element _ _ _ _ children => S (list_max (map height children))
  end.

(** No text of the tree is above the limit of a text node. *)
Fixpoint texts_fit (e : xml) : bool :=
  match e with
  | Element _ _ _ text children =>
      (bytes (get_default text []) <=? text_limit) && forallb texts_fit children
  end.

(** What the round trip is stated with.  A text starts with a character
    outside a class, or is empty. *)
Definition stops (p : N -> bool) (s : list N) : Prop :=
  match s with
  | [] => True
  | c :: _ => p c = false
  end.

(** After a name comes a character that belongs to no name. *)
Definition delimited (r : list N) : Prop :=
  match r with
  | [] => True
  | c :: _ => name_char c = false /\ (c =? 58) = false
  end.

(** The end of a start tag: [>] or [/]. *)
Definition tag_end (r : list N) : Prop :=
  match r with
  | c :: _ => c = 62 \/ c = 47
  | [] => False
  end.

(** Read, or given up. *)
Definition verdict (b : bool) (r : list N) : parsed := if b then Read r else Refused.

(** The content [c] of an element, followed by the [</] of its end tag, is
    read up to the name of the end tag, if [b], and makes the parser give up
    otherwise; the text node being read holds [node] bytes already. *)
Definition reads (depth : nat) (env : list (list N)) (node : N) (c : list N) (b : bool)
  : Prop :=
  forall r fuel, (length c < fuel)%nat ->
    parse_content fuel depth env node (c ++ 60 :: 47 :: r) = verdict b r.

(** A written element [w] at the head of a text is read, and only it, if
    [b]; the parser gives up on it otherwise. *)
Definition parses (depth : nat) (env : list (list N)) (w : list N) (b : bool) : Prop :=
  forall r fuel, (length w <= fuel)%nat ->
    parse_element fuel depth env (w ++ r) = verdict b r.

(** The four prefixes of the builder are bound. *)
Definition env_ok (env : list (list N)) : Prop :=
  forall s : ns, existsb (str_eqb (prefix_of s)) env = true.


(* ================================================================== *)
(** ** Reading a built document, and the records used as examples *)

Definition seller_legal_id_path : list (list N) :=
  [ py "ApplicableHeaderTradeAgreement"; py "SellerTradeParty";
    py "SpecifiedLegalOrganization"; py "ID" ].

Definition seller_tax_id_path : list (list N) :=
  [ py "ApplicableHeaderTradeAgreement"; py "SellerTradeParty";
    py "SpecifiedTaxRegistration"; py "ID" ].

Definition monetary_path (tag : list N) : list (list N) :=
  [ py "ApplicableHeaderTradeSettlement";
    py "SpecifiedTradeSettlementHeaderMonetarySummation"; tag ].

(** The exact value of a finite float. *)
Definition float_value (f : spec_float) : option Q :=
  match f with
  | S754_zero _ => Some 0%Q
  | S754_finite s m e =>
      let q := match e with
               | Zneg p => (Zpos m # Pos.pow 2 p)%Q
               | _ => inject_Z (Zpos m * 2 ^ e)
               end in
      Some (if s then Qopp q else q)
  | _ => None
  end.

(** [|a - b| <= 0.01] *)
Definition within_cent (a b : Q) : bool := Qle_bool (Qabs (a - b)) (1 # 100).

Definition number_value (v : option pyval) : option Q :=
  match v with
  | Some x => match py_float x with
              | Ok f => float_value f
              | Raise _ => None
              end
  | None => None
  end.

(** [total_ttc = total_ht + total_vat] up to a cent, on the record. *)
Definition totals_consistent (data : invoice) : bool :=
  match number_value (total_ttc data), number_value (total_ht data),
        number_value (total_vat data) with
  | Some t, Some h, Some v => within_cent t (h + v)
  | _, _, _ => false
  end.

(** The same of [GrandTotalAmount], [TaxBasisTotalAmount] and
    [TaxTotalAmount], read back from the document. *)
Definition amount_at (tag : list N) (root : xml) : option Q :=
  match texts_at (monetary_path tag) root with
  | [Some s] => number_value (Some (PStr s))
  | _ => None
  end.

Definition summation_consistent (root : xml) : bool :=
  match amount_at (py "GrandTotalAmount") root,
        amount_at (py "TaxBasisTotalAmount") root,
        amount_at (py "TaxTotalAmount") root with
  | Some g, Some b, Some t => within_cent g (b + t)
  | _, _, _ => false
  end.

(** A form as a browser posts it: two lines at 20 %, no SIRET, no VAT
    number. *)
Definition sample_form : form :=
  {| form_date := Some (py "2024-02-29");
     form_invoice_number := Some (py "F-2024-001");
     issuer_name := Some (py "Atelier Dupont");
     issuer_address := Some (py "1 rue de la Paix");
     issuer_postal := Some (py "75002");
     issuer_city := Some (py "Paris");
     issuer_siret := Some [];
     issuer_vat := Some [];
     recipient_name := Some (py "Client SARL");
     recipient_address := Some (py "2 avenue Foch");
     recipient_postal := Some (py "69001");
     recipient_city := Some (py "Lyon");
     recipient_siret := Some [];
     recipient_vat := Some [];
     descriptions := [py "Conseil"; py "Licence"];
     quantities := [py "2"; py "1"];
     unit_prices := [py "100"; py "50"];
     vat_rates := [py "20"; py "20"] |}.

Definition sample_party : party :=
  {| name := Some (py "Atelier Dupont");
     address := Some (py "1 rue de la Paix");
     postal_code := Some (py "75002");
     city := Some (py "Paris");
     siret := Some (py "391 123 565 00002");
     vat_number := None |}.

Definition sample_item (rate : Z) : item :=
  {| description := Some (py "Conseil");
     quantity := Some (PInt 2);
     unit_price := Some (PInt 100);
     amount_ht := Some (PInt 200);
     vat_rate := Some (PInt rate);
     rate_object := 0;
     vat_amount := Some (PInt (2 * rate));
     amount_ttc := Some (PInt (200 + 2 * rate)) |}.

Definition sample_invoice : invoice :=
  {| date := Some (py "2024-02-29");
     invoice_number := Some (py "F-2024-001");
     issuer := Some sample_party;
     recipient := Some sample_party;
     items := Some [sample_item 20];
     total_ht := Some (PInt 200);
     total_vat := Some (PInt 40);
     total_ttc := Some (PInt 240) |}.

(** Three items: at 20 (an [int]), at 10, and at 20.0 (a [float]). *)
Definition item_at_rate (rate : pyval) (address : N) : item :=
  {| description := Some (py "Formation");
     quantity := Some (PInt 2);
     unit_price := Some (PInt 100);
     amount_ht := Some (PInt 200);
     vat_rate := Some rate;
     rate_object := address;
     vat_amount := Some (PInt 40);
     amount_ttc := Some (PInt 240) |}.

Definition with_items (l : list item) (ht vat ttc : Z) : invoice :=
  {| date := Some (py "2024-02-29");
     invoice_number := Some (py "F-2024-001");
     issuer := Some sample_party;
     recipient := Some sample_party;
     items := Some l;
     total_ht := Some (PInt ht);
     total_vat := Some (PInt vat);
     total_ttc := Some (PInt ttc) |}.


(** Three items at a NaN rate: one float object in the first two, another in
    the third. *)
Definition nan_invoice : invoice :=
  with_items [ item_at_rate (PFloat S754_nan) 1; item_at_rate (PFloat S754_nan) 1;
               item_at_rate (PFloat S754_nan) 2 ]
             600 120 720.

(** The sample invoice with another description of its item, and one of
    10,000,001 bytes: the letter [a] that many times. *)
Definition described (d : list N) : item :=
  {| description := Some d;
     quantity := Some (PInt 2);
     unit_price := Some (PInt 100);
     amount_ht := Some (PInt 200);
     vat_rate := Some (PInt 20);
     rate_object := 0;
     vat_amount := Some (PInt 40);
     amount_ttc := Some (PInt 240) |}.

Definition with_description (d : list N) : invoice := with_items [described d] 200 40 240.

Definition long_text : list N := 97 :: repeat 97 (N.to_nat 10000000).

Definition oversize_invoice : invoice := with_description long_text.

(** The same invoice with totals that do not add up. *)
Definition inconsistent_invoice : invoice :=
  {| date := date sample_invoice;
     invoice_number := invoice_number sample_invoice;
     issuer := issuer sample_invoice;
     recipient := recipient sample_invoice;
     items := items sample_invoice;
     total_ht := Some (PInt 1);
     total_vat := Some (PInt 1);
     total_ttc := Some (PInt 100) |}.

(** The issuer's SIRET written with hyphens. *)
Definition hyphenated_invoice : invoice :=
  {| date := date sample_invoice;
     invoice_number := invoice_number sample_invoice;
     issuer := Some {| name := name sample_party; address := address sample_party;
                       postal_code := postal_code sample_party;
                       city := city sample_party;
                       siret := Some (py "391-123-565-00002");
                       vat_number := None |};
     recipient := recipient sample_invoice;
     items := items sample_invoice;
     total_ht := total_ht sample_invoice;
     total_vat := total_vat sample_invoice;
     total_ttc := total_ttc sample_invoice |}.

Definition empty_invoice : invoice :=
  {| date := None; invoice_number := None; issuer := None; recipient := None;
     items := None; total_ht := None; total_vat := None; total_ttc := None |}.

Definition or_else {A : Type} (r : result A) (default : A) : A :=
  match r with
  | Ok a => a
  | Raise _ => default
  end.

(** The record that [generate_invoice] builds from [sample_form], and the
    trees built from the samples. *)
Definition form_invoice : invoice :=
  Eval vm_compute in or_else (build_invoice_data sample_form) empty_invoice.

Definition empty_tree : xml := Element RSM [] [] None [].


Definition sample_tree : xml :=
  Eval vm_compute in or_else (build_tree sample_invoice) empty_tree.

Definition form_tree : xml :=
  Eval vm_compute in or_else (build_tree form_invoice) empty_tree.

(** The text that [_generate_facturx_xml] returns for [sample_invoice]. *)
Definition sample_text : list N :=
  Eval vm_compute in or_else (_generate_facturx_xml sample_invoice) [].

(** The VAT identifier as the specification words it: the SIREN is the first
    nine digits of the SIRET without white space and hyphens, the key is
    [(12 + 3 * (SIREN mod 97)) mod 97] on two digits. *)
Definition spec_siren (siret_ : str) : list N := firstn 9 (sub_space_hyphen siret_).

Definition siren_number (siren : str) : Z :=
  Z.of_N (fold_left (fun acc c => acc * 10 + Z.to_N (digit_value c)) siren 0).

Definition spec_vat_number (siret_ : str) : list N :=
  py "FR"
  ++ format_02d ((12 + 3 * (siren_number (spec_siren siret_) mod 97)) mod 97)%Z
  ++ spec_siren siret_.

(* ================================================================== *)
(** ** The validator's rules, as the specification lists them *)

(** Section 4.1 of the specification names the rules; each of them, broken,
    is one [violation] with a message of its own. *)
Inductive who : Type := Issuer | Recipient.

Inductive party_field : Type := Name | Address | PostalCode | City.

Inductive violation : Type :=
| MissingDate
| MissingInvoiceNumber
| BadDate
| MissingPartyField (w : who) (f : party_field)
| BadSiret (w : who)
| NoItem
| NoDescription (i : nat)
| QuantityNotPositive (i : nat)
| QuantityNotNumber (i : nat)
| PriceNegative (i : nat)
| PriceNotNumber (i : nat)
| RateOutOfRange (i : nat)
| RateNotNumber (i : nat)
| TotalNotPositive
| TotalNotNumber.

Definition field_key (f : party_field) : list N :=
  match f with
  | Name => py "name"
  | Address => py "address"
  | PostalCode => py "postal_code"
  | City => py "city"
  end.

Definition message (v : violation) : list N :=
  match v with
  | MissingDate => py "Date de facturation" ++ py " est obligatoire"
  | MissingInvoiceNumber => py "Numéro de facture" ++ py " est obligatoire"
  | BadDate => py "Format de date invalide (YYYY-MM-DD attendu)"
  | MissingPartyField Issuer f => py "Émetteur - " ++ field_key f ++ py " est obligatoire"
  | MissingPartyField Recipient f =>
      py "Destinataire - " ++ field_key f ++ py " est obligatoire"
  | BadSiret Issuer => py "Issuer" ++ py " - Format SIRET invalide"
  | BadSiret Recipient => py "Recipient" ++ py " - Format SIRET invalide"
  | NoItem => py "Au moins un article est obligatoire"
  | NoDescription i => article i ++ py "Description obligatoire"
  | QuantityNotPositive i => article i ++ py "Quantité doit être supérieure à 0"
  | QuantityNotNumber i => article i ++ py "Quantité invalide"
  | PriceNegative i => article i ++ py "Prix unitaire invalide"
  | PriceNotNumber i => article i ++ py "Prix unitaire invalide"
  | RateOutOfRange i => article i ++ py "Taux de TVA invalide (0-100%)"
  | RateNotNumber i => article i ++ py "Taux de TVA invalide"
  | TotalNotPositive => py "Le montant total doit être supérieur à 0"
  | TotalNotNumber => py "Montant total invalide"
  end.

Definition party_of (w : who) (data : invoice) : party :=
  get_default (match w with Issuer => issuer data | Recipient => recipient data end)
              empty_party.

Definition field_of (f : party_field) (p : party) : option (list N) :=
  match f with
  | Name => name p
  | Address => address p
  | PostalCode => postal_code p
  | City => city p
  end.

(** A numeric field read as a number: a float, something that is no number
    ([float()] raises [ValueError] or [TypeError]), or an integer beyond the
    range of floats.  An absent field reads as 0. *)
Inductive reading : Type :=
| IsNumber (x : spec_float)
| NotNumber
| TooLarge.

Definition read_number (o : option pyval) : reading :=
  match py_float (get_default o (PInt 0)) with
  | Ok x => IsNumber x
  | Raise OverflowError => TooLarge
  | Raise _ => NotNumber
  end.

Definition out_of_range (bad : spec_float -> bool) (o : option pyval) : bool :=
  match read_number o with
  | IsNumber x => bad x
  | _ => false
  end.

Definition not_a_number (o : option pyval) : bool :=
  match read_number o with
  | NotNumber => true
  | _ => false
  end.

Definition is_ok {A : Type} (r : result A) : bool :=
  match r with
  | Ok _ => true
  | Raise _ => false
  end.

Definition item_at (data : invoice) (i : nat) : option item :=
  nth_error (get_default (items data) []) i.

Definition on_item (data : invoice) (i : nat) (broken : item -> bool) : bool :=
  match item_at data i with
  | Some it => broken it
  | None => false
  end.

(** Whether the record breaks a rule. *)
Definition violated (data : invoice) (v : violation) : bool :=
  match v with
  | MissingDate => negb (truthy (date data))
  | MissingInvoiceNumber => negb (truthy (invoice_number data))
  | BadDate =>
      truthy (date data) && negb (is_ok (strptime_ymd (get_default (date data) [])))
  | MissingPartyField w f => negb (truthy (field_of f (party_of w data)))
  | BadSiret w =>
      truthy (siret (party_of w data))
      && negb (spec_siret_valid py_isdecimal (get_default (siret (party_of w data)) []))
  | NoItem => match items data with Some (_ :: _) => false | _ => true end
  | NoDescription i => on_item data i (fun it => negb (truthy (description it)))
  | QuantityNotPositive i =>
      on_item data i (fun it => out_of_range (fun q => fle q zero) (quantity it))
  | QuantityNotNumber i => on_item data i (fun it => not_a_number (quantity it))
  | PriceNegative i =>
      on_item data i (fun it => out_of_range (fun p => flt p zero) (unit_price it))
  | PriceNotNumber i => on_item data i (fun it => not_a_number (unit_price it))
  | RateOutOfRange i =>
      on_item data i
        (fun it => out_of_range (fun r => flt r zero || flt hundred r) (vat_rate it))
  | RateNotNumber i => on_item data i (fun it => not_a_number (vat_rate it))
  | TotalNotPositive => out_of_range (fun t => fle t zero) (total_ttc data)
  | TotalNotNumber => not_a_number (total_ttc data)
  end.

Definition party_rules (w : who) : list violation :=
  map (MissingPartyField w) [Name; Address; PostalCode; City].

Definition item_rules (i : nat) : list violation :=
  [ NoDescription i; QuantityNotPositive i; QuantityNotNumber i;
    PriceNegative i; PriceNotNumber i; RateOutOfRange i; RateNotNumber i ].

(** Every rule that applies to the record, in the order of the
    specification. *)
Definition all_rules (data : invoice) : list violation :=
  [MissingDate; MissingInvoiceNumber; BadDate]
  ++ party_rules Issuer ++ party_rules Recipient
  ++ [BadSiret Issuer; BadSiret Recipient; NoItem]
  ++ flat_map item_rules (seq 0 (length (get_default (items data) [])))
  ++ [TotalNotPositive; TotalNotNumber].

(** The rules the record breaks. *)
Definition spec_violations (data : invoice) : list violation :=
  filter (violated data) (all_rules data).

(** The outcome the specification asks for: acceptance when no rule is
    broken, else one error that carries every message. *)
Definition spec_validate (data : invoice) : result bool :=
  match spec_violations data with
  | [] => Ok true
  | vs => Raise (ValidationError (validation_message (map message vs)))
  end.

(** No numeric field that the validator reads is an integer too large for a
    float. *)
Definition in_float_range (o : option pyval) : bool :=
  match read_number o with
  | TooLarge => false
  | _ => true
  end.

Definition no_overflow (data : invoice) : bool :=
  forallb (fun it => in_float_range (quantity it) && in_float_range (unit_price it)
                     && in_float_range (vat_rate it))
          (get_default (items data) [])
  && in_float_range (total_ttc data).

(** The record with other values under [total_ht] and [total_vat]. *)
Definition with_ht_vat (h v : option pyval) (data : invoice) : invoice :=
  {| date := date data; invoice_number := invoice_number data;
     issuer := issuer data; recipient := recipient data; items := items data;
     total_ht := h; total_vat := v; total_ttc := total_ttc data |}.

(** A record that breaks two rules (no invoice number, no description) and
    whose quantity is the integer [10 ** 400]. *)
Definition overflowing_invoice : invoice :=
  {| date := date sample_invoice;
     invoice_number := None;
     issuer := issuer sample_invoice;
     recipient := recipient sample_invoice;
     items := Some [ {| description := None;
                        quantity := Some (PInt (10 ^ 400));
                        unit_price := Some (PInt 100);
                        amount_ht := None;
                        vat_rate := Some (PInt 20);
                        rate_object := 0;
                        vat_amount := None;
                        amount_ttc := None |} ];
     total_ht := total_ht sample_invoice;
     total_vat := total_vat sample_invoice;
     total_ttc := total_ttc sample_invoice |}.

(** A form whose fields other than the lines are valid: the date is a
    calendar date, the number and the eight party fields are filled, and a
    SIRET, where one is given, passes the check. *)
Definition siret_acceptable (o : option (list N)) : bool :=
  match get_default o [] with
  | [] => true
  | s => spec_siret_valid py_isdecimal s
  end.

Definition form_header_valid (f : form) : bool :=
  truthy (form_date f) && is_ok (strptime_ymd (get_default (form_date f) []))
  && truthy (form_invoice_number f)
  && truthy (issuer_name f) && truthy (issuer_address f)
  && truthy (issuer_postal f) && truthy (issuer_city f)
  && truthy (recipient_name f) && truthy (recipient_address f)
  && truthy (recipient_postal f) && truthy (recipient_city f)
  && siret_acceptable (issuer_siret f) && siret_acceptable (recipient_siret f).

(** [sample_form] with two lines left blank. *)
Definition blank_lines_form : form :=
  {| form_date := form_date sample_form;
     form_invoice_number := form_invoice_number sample_form;
     issuer_name := issuer_name sample_form;
     issuer_address := issuer_address sample_form;
     issuer_postal := issuer_postal sample_form;
     issuer_city := issuer_city sample_form;
     issuer_siret := issuer_siret sample_form;
     issuer_vat := issuer_vat sample_form;
     recipient_name := recipient_name sample_form;
     recipient_address := recipient_address sample_form;
     recipient_postal := recipient_postal sample_form;
     recipient_city := recipient_city sample_form;
     recipient_siret := recipient_siret sample_form;
     recipient_vat := recipient_vat sample_form;
     descriptions := [[]; []];
     quantities := [py "1"; py "1"];
     unit_prices := [py "0.00"; py "0.00"];
     vat_rates := [py "20"; py "20"] |}.

(* ================================================================== *)
(** ** The tax summary, as the specification words it *)







(** The texts of the children of a tax-summary block, and those the
    specification asks for a group. *)
Definition child_texts (tag : list N) (x : xml) : list (option (list N)) :=
  map xml_text (ram_children tag x).

Definition block_summary (x : xml) : list (list (option (list N))) :=
  [ child_texts (py "CalculatedAmount") x; child_texts (py "TypeCode") x;
    child_texts (py "BasisAmount") x; child_texts (py "CategoryCode") x;
    child_texts (py "RateApplicablePercent") x ].


Definition tax_summary_path : list (list N) :=
  [py "ApplicableHeaderTradeSettlement"; py "ApplicableTradeTax"].

(** The message shown when [b] holds. *)
Definition shown (b : bool) (m : list N) : list (list N) := if b then [m] else [].

(** The numeric fields of an item all fit a float. *)
Definition item_in_range (it : item) : bool :=
  in_float_range (quantity it) && in_float_range (unit_price it)
  && in_float_range (vat_rate it).

(** Floats up to the sign of zero. *)
Definition unsigned_zero (f : spec_float) : spec_float :=
  match f with
  | S754_zero _ => S754_zero false
  | _ => f
  end.





(* ================================================================== *)
(** ** What the validator leaves of a record it accepts *)

(** The numeric fields of an item as the validator reads them: a quantity
    that is not [<= 0], a price that is not [< 0], a rate that is neither
    [< 0] nor [> 100]. *)
Definition item_accepted (it : item) : Prop :=
  truthy (description it) = true
  /\ (exists q, py_float (get_default (quantity it) (PInt 0)) = Ok q /\ fle q zero = false)
  /\ (exists p, py_float (get_default (unit_price it) (PInt 0)) = Ok p
                /\ flt p zero = false)
  /\ (exists r, py_float (get_default (vat_rate it) (PInt 0)) = Ok r
                /\ flt r zero = false /\ flt hundred r = false).

(** What holds of a record that is accepted: the date is a date of the
    calendar, the invoice number and the four fields of both parties are not
    empty, a SIRET that is given passes the check, there is an item, and
    every item is as [item_accepted] says. *)
Definition well_formed (data : invoice) : Prop :=
  (exists y m d,
      strptime_ymd (get_default (date data) []) = Ok (y, m, d)
      /\ (1 <= y <= 9999)%Z /\ (1 <= m <= 12)%Z /\ (1 <= d <= days_in_month y m)%Z)
  /\ truthy (invoice_number data) = true
  /\ (forall w f, truthy (field_of f (party_of w data)) = true)
  /\ (forall w, siret_acceptable (siret (party_of w data)) = true)
  /\ (exists it l, items data = Some (it :: l))
  /\ (forall i it, item_at data i = Some it -> item_accepted it).

(** The record with another value under [total_ttc]. *)
Definition with_total (t : option pyval) (data : invoice) : invoice :=
  {| date := date data; invoice_number := invoice_number data;
     issuer := issuer data; recipient := recipient data; items := items data;
     total_ht := total_ht data; total_vat := total_vat data; total_ttc := t |}.

(** Totals that are no amounts: not-a-number and infinity, as floats and as
    the texts [float()] reads them from. *)
Definition no_amounts : list pyval :=
  [ PFloat S754_nan; PStr (py "nan"); PFloat (S754_infinity false); PStr (py "inf") ].

(* ================================================================== *)
(** ** What [generate_invoice] makes of a form *)

(** A line of the form that is not left blank. *)
Definition line_filled (d : list N) : bool := negb (is_empty d).

(** The fields of an item computed from its quantity, its unit price and
    its rate in percent, in float arithmetic. *)
Definition item_follows_formulas (it : item) : Prop :=
  exists q p r,
    quantity it = Some (PFloat q) /\ unit_price it = Some (PFloat p)
    /\ vat_rate it = Some (PFloat r)
    /\ amount_ht it = Some (PFloat (fmul q p))
    /\ vat_amount it = Some (PFloat (fmul (fmul q p) (fdiv r hundred)))
    /\ amount_ttc it
       = Some (PFloat (fadd (fmul q p) (fmul (fmul q p) (fdiv r hundred)))).

(** A key is present. *)
Definition present {A : Type} (o : option A) : bool :=
  match o with
  | Some _ => true
  | None => false
  end.

(** The entry [i] of a list is there and [float()] reads it. *)
Definition number_at (l : list (list N)) (i : nat) : bool :=
  match nth_error l i with
  | Some s => is_ok (float_of_str s)
  | None => false
  end.

(** The line [i] is blank, or its three numbers can be read. *)
Definition line_readable (f : form) (i : nat) : bool :=
  match nth_error (descriptions f) i with
  | Some [] => true
  | Some (_ :: _) =>
      number_at (quantities f) i && number_at (unit_prices f) i
      && number_at (vat_rates f) i
  | None => false
  end.

(** The ten keys read with [request.form[key]] are there and every line is
    readable. *)
Definition form_convertible (f : form) : bool :=
  present (form_date f) && present (form_invoice_number f)
  && present (issuer_name f) && present (issuer_address f)
  && present (issuer_postal f) && present (issuer_city f)
  && present (recipient_name f) && present (recipient_address f)
  && present (recipient_postal f) && present (recipient_city f)
  && forallb (line_readable f) (seq 0 (length (descriptions f))).

(* ================================================================== *)
(** ** Reading the lines and the date of a built document *)

Definition line_path (path : list (list N)) : list (list N) :=
  py "IncludedSupplyChainTradeLineItem" :: path.

Definition line_id_path : list (list N) :=
  line_path [py "AssociatedDocumentLineDocument"; py "LineID"].

Definition line_name_path : list (list N) :=
  line_path [py "SpecifiedTradeProduct"; py "Name"].

Definition line_price_path : list (list N) :=
  line_path [ py "SpecifiedLineTradeAgreement"; py "NetPriceProductTradePrice";
              py "ChargeAmount" ].

Definition line_quantity_path : list (list N) :=
  line_path [py "SpecifiedLineTradeDelivery"; py "BilledQuantity"].

Definition line_rate_path : list (list N) :=
  line_path [ py "SpecifiedLineTradeSettlement"; py "ApplicableTradeTax";
              py "RateApplicablePercent" ].

Definition line_total_path : list (list N) :=
  line_path [ py "SpecifiedLineTradeSettlement";
              py "SpecifiedTradeSettlementLineMonetarySummation";
              py "LineTotalAmount" ].

(** [f"{item[key]:.2f}"], as the text of an element. *)
Definition written (field : item -> option pyval) (it : item)
  : result (option (list N)) :=
  v <- subscript (field it) ;; s <- format_2f v ;; Ok (Some s).

(** A character of a date that [strptime] takes, the hyphens apart: it can
    be written, and is no hyphen. *)
Definition date_char (c : codepoint) : bool := xml_char c && negb (c =? 45).

(** The children of [e] with a name of a namespace. *)
Definition children_named (s : ns) (tag : list N) (e : xml) : list xml :=
  filter (fun c => ns_eqb (xml_space c) s && str_eqb (xml_tag c) tag) (xml_children e).

(** The texts at [rsm:ExchangedDocument/ram:IssueDateTime/udt:DateTimeString]. *)
Definition issue_date_texts (root : xml) : list (option (list N)) :=
  map xml_text
    (flat_map (children_named UDT (py "DateTimeString"))
       (flat_map (children_named RAM (py "IssueDateTime"))
          (children_named RSM (py "ExchangedDocument") root))).

(* ================================================================== *)
(** ** What the builder needs of a record *)

(** The key is there and [f"{v:.2f}"] formats its value. *)
Definition is_number (o : option pyval) : bool :=
  match o with
  | Some v => is_ok (format_2f v)
  | None => false
  end.

(** The key is there and [float(v)] reads its value. *)
Definition is_convertible (o : option pyval) : bool :=
  match o with
  | Some v => is_ok (py_float v)
  | None => false
  end.

Definition item_ready (it : item) : bool :=
  present (description it) && is_number (unit_price it) && is_number (quantity it)
  && is_number (vat_rate it) && is_number (amount_ht it)
  && is_convertible (vat_amount it).

Definition party_ready (p : option party) : bool :=
  match p with
  | Some p =>
      present (name p) && present (postal_code p) && present (address p)
      && present (city p)
  | None => false
  end.

Definition record_ready (data : invoice) : bool :=
  present (invoice_number data) && present (date data)
  && match items data with
     | Some l => forallb item_ready l
     | None => false
     end
  && party_ready (issuer data) && party_ready (recipient data)
  && is_number (total_ht data) && is_number (total_vat data)
  && is_number (total_ttc data).

(** A text that [lxml] takes as the text of an element; an absent one is
    not looked at. *)
Definition writable (o : option (list N)) : bool :=
  forallb xml_char (get_default o []).

Definition party_writable (p : option party) : bool :=
  let p := get_default p empty_party in
  writable (name p) && writable (postal_code p) && writable (address p)
  && writable (city p).

(** The seller's SIRET, or the fourteen zeros, is writable, and so is the
    VAT number, the one given or the one derived, which can be derived. *)
Definition seller_ids_writable (p : option party) : bool :=
  let p := get_default p empty_party in
  let siret_ := get_default (siret p) (py "00000000000000") in
  forallb xml_char siret_
  && match seller_vat_number p siret_ with
     | Ok t => forallb xml_char t
     | Raise _ => false
     end.

Definition texts_writable (data : invoice) : bool :=
  writable (invoice_number data)
  && forallb xml_char (remove_char 45 (get_default (date data) []))
  && forallb (fun it => writable (description it)) (get_default (items data) [])
  && party_writable (issuer data) && seller_ids_writable (issuer data)
  && party_writable (recipient data).

(** The texts of a form can be written: the invoice number, the four
    fields of both parties, the descriptions, the issuer's SIRET, and his VAT
    number, unless it is empty, when the SIRET is to hold digits and plain
    spaces only. *)
Definition form_writable (f : form) : bool :=
  writable (form_invoice_number f)
  && writable (issuer_name f) && writable (issuer_postal f)
  && writable (issuer_address f) && writable (issuer_city f)
  && writable (recipient_name f) && writable (recipient_postal f)
  && writable (recipient_address f) && writable (recipient_city f)
  && forallb (forallb xml_char) (descriptions f)
  && writable (issuer_siret f)
  && match get_default (issuer_vat f) [] with
     | [] => forallb (fun c => (c =? 32) || py_isdecimal c)
                     (get_default (issuer_siret f) [])
     | _ :: _ => writable (issuer_vat f)
     end.

(* ================================================================== *)
(** ** More records used as examples *)

(** [sample_party] with a SIRET written with hyphens and a VAT number. *)
Definition given_vat_party : party :=
  {| name := name sample_party; address := address sample_party;
     postal_code := postal_code sample_party; city := city sample_party;
     siret := Some (py "391-123-565-00002");
     vat_number := Some (py "FR22391123565") |}.

(** The record with [given_vat_party] as its issuer. *)
Definition with_vat_number (data : invoice) : invoice :=
  {| date := date data; invoice_number := invoice_number data;
     issuer := Some given_vat_party; recipient := recipient data;
     items := items data; total_ht := total_ht data; total_vat := total_vat data;
     total_ttc := total_ttc data |}.

Definition given_vat_tree : xml :=
  Eval vm_compute in or_else (build_tree (with_vat_number sample_invoice)) empty_tree.

(* ================================================================== *)
(** ** The number that a decimal text spells *)

(** An optional sign, digits, a point, digits: the exact value. *)
Definition read_decimal (s : str) : option Q :=
  let '(neg, body) := take_sign s in
  let '(ip, rest) := span_digits body in
  match ip, rest with
  | _ :: _, c :: fp =>
      if (c =? 46) && forallb ascii_digit fp then
        let q := (Z.of_N (digits_to_N (ip ++ fp))
                  # Z.to_pos (10 ^ Z.of_nat (length fp)))%Q in
        Some (if neg then Qopp q else q)
      else None
  | _, _ => None
  end.

(** The float 0.125, half way between 0.12 and 0.13. *)
Definition one_eighth : spec_float := S754_finite false 1 (-3).

(** The sample record with that total. *)
Definition eighth_invoice : invoice := with_total (Some (PFloat one_eighth)) sample_invoice.

Definition eighth_tree : xml :=
  Eval vm_compute in or_else (build_tree eighth_invoice) empty_tree.

(* ================================================================== *)
(** ** The pipeline ([generate_facturx]) *)

(** [s.replace(old, new)] for a text [old] that is not empty: the
    occurrences are taken from the left and do not overlap; [skip] counts the
    characters of an occurrence still to be passed. *)
Fixpoint replace_from (old new : str) (skip : nat) (s : str) : str :=
  match s with
  | [] => []
  | c :: r =>
      match skip with
      | S k => replace_from old new k r
      | O =>
          if starts_with old s
          then new ++ replace_from old new (length old - 1) r
          else c :: replace_from old new 0 r
      end
  end.

(** [s.replace(old, new)]; an empty [old] is found before every character
    and at the end. *)
Definition py_replace (old new s : str) : str :=
  match old with
  | [] => new ++ flat_map (fun c => c :: new) s
  | _ :: _ => replace_from old new 0 s
  end.

(** [temp_pdf = output_path.replace('.pdf', '_temp.pdf')] *)
Definition temp_pdf (output_path : str) : str :=
  py_replace (py ".pdf") (py "_temp.pdf") output_path.

(** [os.path.join(UPLOAD_FOLDER, f"facture_{invoice_number}.pdf")] of
    [generate_invoice], with the separator of POSIX. *)
Definition invoice_path (invoice_number_ : str) : str :=
  py "generated_invoices" ++ [47] ++ py "facture_" ++ invoice_number_ ++ py ".pdf".

(** The files: what is found at a path.  [os.path.exists], [os.remove] and
    [os.rename] on them. *)
Definition files (content : Type) : Type := list N -> option content.

Definition path_exists {content : Type} (path : str) (fs : files content) : bool :=
  present (fs path).

Definition os_remove {content : Type} (path : str) (fs : files content) : files content :=
  fun q => if str_eqb q path then None else fs q.

Definition os_rename {content : Type} (src dst : str) (fs : files content)
  : files content :=
  fun q => if str_eqb q dst then fs src else if str_eqb q src then None else fs q.

(** An exception of the program, or one of the libraries that write the
    files. *)
Inductive failure : Type :=
| Raised (e : exn)
| LibraryError.

(** The lines that [generate_facturx] prints, one constructor for each
    [print].  [XmlUnread] stands for the line of the fourth step where the
    model of the parser gives no verdict, which is never on a text of the
    builder. *)
Inductive event : Type :=
| Validating
| Validated
| ValidationFailed (message : str)
| PdfStep
| XmlStep
| XmlCheck
| XmlValid
| XmlWarning
| XmlUnread
| FacturxStep
| Generated (path : str)
| GenerationFailed (f : failure).

Definition is_warning (e : event) : bool :=
  match e with
  | XmlWarning => true
  | _ => false
  end.

Definition is_unread (e : event) : bool :=
  match e with
  | XmlUnread => true
  | _ => false
  end.

(** What writes the files: [_generate_pdf], that draws the record on a
    canvas of reportlab and saves it at a path, and [generate_from_file] of
    the facturx library, with its arguments [pdf_file], [xml] and
    [output_pdf_file].  Each returns the files it leaves and the exception
    it raises, if any. *)
Record writers (content : Type) : Type := {
  _generate_pdf : invoice -> str -> files content -> files content * option failure;
  generate_from_file : str -> str -> str -> files content
                       -> files content * option failure
}.

Arguments _generate_pdf {content} w data output_path fs.
Arguments generate_from_file {content} w pdf_file xml_ output_pdf_file fs.

(** The files left, the lines printed and the exception raised. *)
Record outcome (content : Type) : Type := {
  files_after : files content;
  printed : list event;
  raised : option failure
}.

Arguments files_after {content} o.
Arguments printed {content} o.
Arguments raised {content} o.

Definition generate_facturx {content : Type} (w : writers content)
    (invoice_data : invoice) (output_path : str) (fs : files content)
  : outcome content :=
  match validate_invoice_data invoice_data with
  | Raise (ValidationError m) =>
      {| files_after := fs; printed := [Validating; ValidationFailed m];
         raised := Some (Raised (ValidationError m)) |}
  | Raise e => {| files_after := fs; printed := [Validating]; raised := Some (Raised e) |}
  | Ok _ =>
      let log := [Validating; Validated; PdfStep] in
      let temp := temp_pdf output_path in
      match _generate_pdf w invoice_data temp fs with
      | (fs1, Some f) => {| files_after := fs1; printed := log; raised := Some f |}
      | (fs1, None) =>
          let log := log ++ [XmlStep] in
          match _generate_facturx_xml invoice_data with
          | Raise e => {| files_after := fs1; printed := log; raised := Some (Raised e) |}
          | Ok xml_content =>
              let log :=
                log ++ [ XmlCheck;
                         match _validate_xml xml_content with
                         | Some true => XmlValid
                         | Some false => XmlWarning
                         | None => XmlUnread
                         end;
                         FacturxStep ] in
              match generate_from_file w temp xml_content output_path fs1 with
              | (fs2, None) =>
                  {| files_after :=
                       if path_exists temp fs2 then os_remove temp fs2 else fs2;
                     printed := log ++ [Generated output_path];
                     raised := None |}
              | (fs2, Some f) =>
                  {| files_after :=
                       if path_exists temp fs2 then os_rename temp output_path fs2
                       else fs2;
                     printed := log ++ [GenerationFailed f];
                     raised := Some f |}
              end
          end
      end
  end.

(** Writers that succeed: each leaves a file at the path it is given. *)
Definition plain_writers : writers unit :=
  {| _generate_pdf := fun _ path fs =>
       ((fun q => if str_eqb q path then Some tt else fs q), None);
     generate_from_file := fun _ _ output fs =>
       ((fun q => if str_eqb q output then Some tt else fs q), None) |}.

Definition no_file : files unit := fun _ => None.

(* ================================================================== *)
(** * Properties *)

Example py_ascii : py "FR00" = [70; 82; 48; 48].
Proof. reflexivity. Qed.

Example py_accent : py "é" = [233].
Proof. reflexivity. Qed.

(* ------------------------------------------------------------------ *)
(** ** Characters *)

Lemma decimal_in_spec (zs : list codepoint) (c v : N) :
  decimal_in zs c = Some v -> v < 10 /\ exists z, In z zs /\ c = z + v.
Proof.
  induction zs as [|z zs IH]; simpl; [discriminate|].
  destruct ((z <=? c) && (c <? z + 10)) eqn:E.
  - intros [= <-].
    apply andb_true_iff in E as [E1 E2].
    apply N.leb_le in E1. apply N.ltb_lt in E2.
    split; [lia|]. exists z. split; [now left | lia].
  - intros H. destruct (IH H) as [Hv [z' [Hin ->]]].
    split; [exact Hv|]. exists z'. split; [now right | reflexivity].
Qed.

Lemma below_ten (v : N) : v < 10 -> In v ten.
Proof.
  intros H. unfold ten. simpl.
  assert (v = 0 \/ v = 1 \/ v = 2 \/ v = 3 \/ v = 4 \/ v = 5 \/ v = 6
          \/ v = 7 \/ v = 8 \/ v = 9) as D by lia.
  intuition auto.
Qed.

(** A property of characters that holds on every run of decimal digits, by
    inspection of the table. *)
Lemma decimal_table_check (P : codepoint -> bool) :
  forallb (fun z => forallb (fun k => P (z + k)) ten) decimal_zeros = true ->
  forall c v, py_decimal c = Some v -> P c = true.
Proof.
  intros H c v Hd.
  destruct (decimal_in_spec _ _ _ Hd) as [Hv [z [Hin ->]]].
  rewrite forallb_forall in H. specialize (H z Hin).
  rewrite forallb_forall in H. apply H. now apply below_ten.
Qed.

Lemma decimal_plain (c v : N) :
  py_decimal c = Some v ->
  py_isspace c = false /\ num_isspace c = false
  /\ (c =? 43) = false /\ (c =? 45) = false /\ (c =? 95) = false.
Proof.
  intros H.
  pose proof (decimal_table_check
    (fun c => negb (py_isspace c) && negb (num_isspace c)
              && negb (c =? 43) && negb (c =? 45) && negb (c =? 95))
    eq_refl c v H) as E.
  cbv beta in E.
  repeat rewrite andb_true_iff in E. repeat rewrite negb_true_iff in E.
  tauto.
Qed.

Lemma py_int_digit (c v : N) :
  py_decimal c = Some v -> py_int [c] = Ok (Z.of_N v).
Proof.
  intros H. destruct (decimal_plain _ _ H) as (_ & Hs & Hp & Hm & _).
  assert (strip [c] = [c]) as St.
  { unfold strip. cbn [lstrip]. rewrite Hs. cbn [rev app lstrip]. now rewrite Hs. }
  unfold py_int. rewrite St, Hp, Hm. cbn [digits_value]. rewrite H.
  reflexivity.
Qed.

Lemma digit_value_range (c : N) : (0 <= digit_value c < 10)%Z.
Proof.
  unfold digit_value. destruct (py_decimal c) as [v|] eqn:E; [|lia].
  apply decimal_in_spec in E. lia.
Qed.

(* ------------------------------------------------------------------ *)
(** ** The SIRET check *)

Lemma odd_position (i : nat) : Nat.eqb (i mod 2) 1 = Nat.odd i.
Proof.
  rewrite <- Nat.bit0_mod, Nat.bit0_odd. now destruct (Nat.odd i).
Qed.

Lemma sum_of_two_digits (d : Z) :
  (0 <= d < 10)%Z ->
  (let n := (d * 2)%Z in if (n >? 9)%Z then (n / 10 + n mod 10)%Z else n)
  = (if (2 * d >? 9)%Z then (2 * d - 9)%Z else (2 * d)%Z).
Proof.
  intros H.
  assert (d = 0 \/ d = 1 \/ d = 2 \/ d = 3 \/ d = 4 \/ d = 5 \/ d = 6
          \/ d = 7 \/ d = 8 \/ d = 9)%Z as D by lia.
  repeat (destruct D as [-> | D]; [reflexivity|]). subst d. reflexivity.
Qed.

Lemma luhn_loop_digits (s : str) :
  forallb py_isdecimal s = true ->
  forall i total,
    luhn_loop i s total = Ok (total + spec_luhn_sum i (map digit_value s))%Z.
Proof.
  induction s as [|c s IH]; intros Hall i total;
    cbn [luhn_loop map spec_luhn_sum].
  - f_equal. lia.
  - cbn [forallb] in Hall. apply andb_true_iff in Hall as [Hc Hs].
    unfold py_isdecimal in Hc. destruct (py_decimal c) as [v|] eqn:E; [|discriminate].
    rewrite (py_int_digit _ _ E). cbn [bind]. rewrite (IH Hs). f_equal.
    unfold spec_luhn_term, digit_value. rewrite E, odd_position.
    destruct (Nat.odd i).
    + rewrite sum_of_two_digits; [lia|]. apply decimal_in_spec in E. lia.
    + lia.
Qed.

Lemma match_digits_all (p r : str) :
  forallb py_isdecimal p = true -> match_digits (length p) (p ++ r) = Some r.
Proof.
  induction p as [|c p IH]; simpl; [reflexivity|].
  intros H. apply andb_true_iff in H as [Hc Hp]. rewrite Hc. auto.
Qed.

Lemma match_digits_inv (n : nat) (s r : str) :
  match_digits n s = Some r ->
  exists p, s = p ++ r /\ length p = n /\ forallb py_isdecimal p = true.
Proof.
  revert s. induction n as [|n IH]; simpl; intros s H.
  - injection H as <-. now exists [].
  - destruct s as [|c s]; [discriminate|].
    destruct (py_isdecimal c) eqn:E; [|discriminate].
    destruct (IH _ H) as [p [-> [Hl Hp]]].
    exists (c :: p). simpl. rewrite E, Hp, Hl. auto.
Qed.

Lemma sub_space_hyphen_clean (s : str) :
  forallb (fun c => negb (py_isspace c)) (sub_space_hyphen s) = true.
Proof.
  unfold sub_space_hyphen. apply forallb_forall. intros c Hin.
  apply filter_In in Hin as [_ Hc].
  apply negb_true_iff in Hc. apply orb_false_iff in Hc as [-> _]. reflexivity.
Qed.

Lemma re_match_digits14_spec (s : str) :
  forallb (fun c => negb (py_isspace c)) s = true ->
  re_match_digits14 s = Nat.eqb (length s) 14 && forallb py_isdecimal s.
Proof.
  intros Hclean. unfold re_match_digits14.
  destruct (match_digits 14 s) as [r|] eqn:E.
  - destruct (match_digits_inv _ _ _ E) as [p [-> [Hl Hp]]].
    rewrite length_app, forallb_app, Hl, Hp.
    rewrite forallb_app in Hclean. apply andb_true_iff in Hclean as [_ Hr].
    destruct r as [|c [|c' r]].
    + reflexivity.
    + cbn [forallb] in Hr. rewrite andb_true_r in Hr.
      replace (Nat.eqb (14 + length [c]) 14) with false by reflexivity.
      cbn [andb]. apply N.eqb_neq. intros ->. discriminate Hr.
    + replace (Nat.eqb (14 + length (c :: c' :: r)) 14) with false; [reflexivity|].
      symmetry. apply Nat.eqb_neq. cbn [length]. lia.
  - destruct (Nat.eqb (length s) 14) eqn:Hl; [|reflexivity].
    destruct (forallb py_isdecimal s) eqn:Hp; [|reflexivity].
    apply Nat.eqb_eq in Hl.
    pose proof (match_digits_all s [] Hp) as M.
    rewrite app_nil_r, Hl in M. congruence.
Qed.

(** [_validate_siret] never raises, and what it answers is the check on
    decimal digits. *)
Lemma validate_siret_total (siret : str) :
  _validate_siret siret = Ok (spec_siret_valid py_isdecimal siret).
Proof.
  unfold _validate_siret, spec_siret_valid.
  rewrite (re_match_digits14_spec _ (sub_space_hyphen_clean siret)).
  destruct (Nat.eqb (length (sub_space_hyphen siret)) 14); [|reflexivity].
  destruct (forallb py_isdecimal (sub_space_hyphen siret)) eqn:Hd; [|reflexivity].
  cbn [andb negb]. rewrite (luhn_loop_digits _ Hd). reflexivity.
Qed.

(** C3 (as the code has it).  For every text, [_validate_siret] returns
    without raising, and its answer is [true] exactly when the text, white
    space and hyphens removed, is fourteen decimal digits (any digit of
    Unicode's category Nd, the ASCII digits among them) whose values, doubled
    at the odd zero-based positions and reduced by nine when the double
    exceeds nine, sum to a multiple of ten. *)
Theorem validate_siret_decimal_digits (siret : str) :
  _validate_siret siret = Ok (spec_siret_valid py_isdecimal siret).
Proof. exact (validate_siret_total siret). Qed.

(** C3, counterexample.  Fourteen ARABIC-INDIC DIGIT ZERO characters
    (U+0660) pass the check although none of them is an ASCII digit. *)
Lemma validate_siret_accepts_non_ascii_digits :
  _validate_siret (repeat 0x660 14) = Ok true
  /\ spec_siret_valid ascii_digit (repeat 0x660 14) = false.
Proof. split; vm_compute; reflexivity. Qed.

Lemma ascii_decimal (c : N) : c < 128 -> py_isdecimal c = ascii_digit c.
Proof.
  intros Hc. unfold py_isdecimal, ascii_digit.
  destruct (py_decimal c) as [v|] eqn:E.
  - destruct (decimal_in_spec _ _ _ E) as [Hv [z [Hin ->]]].
    assert (forallb (fun z => (z =? 0x30) || (0x660 <=? z)) decimal_zeros = true)
      as T by reflexivity.
    rewrite forallb_forall in T. specialize (T z Hin).
    apply orb_true_iff in T as [T|T].
    + apply N.eqb_eq in T. subst z. symmetry. apply andb_true_iff.
      split; [apply N.leb_le | apply N.leb_le]; lia.
    + apply N.leb_le in T. lia.
  - symmetry. apply not_true_is_false. intros H.
    apply andb_true_iff in H as [H1 H2].
    unfold py_decimal, decimal_zeros in E. cbn [decimal_in] in E.
    apply N.leb_le in H1, H2.
    replace ((48 <=? c) && (c <? 48 + 10)) with true in E; [discriminate|].
    symmetry. apply andb_true_iff. split; [apply N.leb_le | apply N.ltb_lt]; lia.
Qed.

Lemma forallb_agree {A : Type} (f g : A -> bool) (l : list A) :
  (forall a, In a l -> f a = g a) -> forallb f l = forallb g l.
Proof.
  induction l as [|a l IH]; intros H; cbn [forallb]; [reflexivity|].
  rewrite (H a (or_introl eq_refl)), IH; [reflexivity|].
  intros b Hb. apply H. now right.
Qed.

(** On ASCII text the check is the one of the specification, ASCII digits
    included. *)
Theorem validate_siret_ascii (siret : str) :
  Forall (fun c => c < 128) siret ->
  _validate_siret siret = Ok (spec_siret_valid ascii_digit siret).
Proof.
  intros Hascii. rewrite validate_siret_total.
  unfold spec_siret_valid. do 3 f_equal.
  apply forallb_agree. intros c Hin. apply ascii_decimal.
  unfold sub_space_hyphen in Hin. apply filter_In in Hin as [Hin _].
  rewrite Forall_forall in Hascii. now apply Hascii.
Qed.

Lemma validate_siret_ascii_witness :
  Forall (fun c => c < 128) (py "732 829 320-00074")
  /\ _validate_siret (py "732 829 320-00074")
     = Ok (spec_siret_valid ascii_digit (py "732 829 320-00074")).
Proof.
  assert (Forall (fun c => c < 128) (py "732 829 320-00074")) as H.
  { apply Forall_forall. intros c Hin.
    assert (forallb (fun c => c <? 128) (py "732 829 320-00074") = true) as T
      by reflexivity.
    rewrite forallb_forall in T. apply N.ltb_lt. now apply T. }
  split; [exact H | exact (validate_siret_ascii _ H)].
Defined.

(* ------------------------------------------------------------------ *)
(** ** Successful runs *)

Lemma bind_ok {A B : Type} (r : result A) (k : A -> result B) (b : B) :
  bind r k = Ok b -> exists a, r = Ok a /\ k a = Ok b.
Proof.
  destruct r as [a|e]; cbn [bind]; intros H; [|discriminate].
  exists a. auto.
Qed.

Lemma subscript_ok {A : Type} (o : option A) (a : A) :
  subscript o = Ok a -> o = Some a.
Proof. destruct o; cbn; congruence. Qed.

Lemma as_text_ok (s t : list N) : as_text s = Ok t -> t = s.
Proof. unfold as_text. destruct (forallb xml_char s); congruence. Qed.

Lemma ram_leaf_ok (tag s : list N) (x : xml) :
  ram_leaf tag s = Ok x -> x = Element RAM tag [] (Some s) [].
Proof.
  unfold ram_leaf. intros H. apply bind_ok in H as [t [Ht H]].
  apply as_text_ok in Ht. subst t. congruence.
Qed.

(** Inversion of a successful run: every step of it succeeded. *)
Ltac run H :=
  repeat first
    [ match type of H with
      | bind (ram_leaf _ _) _ = Ok _ =>
          let x := fresh "x" in let Hx := fresh "Hx" in
          apply bind_ok in H as [x [Hx H]]; apply ram_leaf_ok in Hx; subst x
      | bind (as_text _) _ = Ok _ =>
          let x := fresh "t" in let Hx := fresh "Ht" in
          apply bind_ok in H as [x [Hx H]]; apply as_text_ok in Hx; subst x
      | bind (subscript _) _ = Ok _ =>
          let x := fresh "v" in let Hx := fresh "Hv" in
          apply bind_ok in H as [x [Hx H]]; apply subscript_ok in Hx
      | bind _ _ = Ok _ =>
          let x := fresh "r" in let Hx := fresh "Hr" in
          apply bind_ok in H as [x [Hx H]]
      end
    | progress cbv zeta in H ].

Lemma str_eqb_eq (a b : list N) : str_eqb a b = true <-> a = b.
Proof.
  revert b. induction a as [|x a IH]; intros [|y b]; cbn [str_eqb];
    try (split; [discriminate | congruence]); [split; reflexivity|].
  rewrite andb_true_iff, N.eqb_eq, IH. split; [intros [-> ->] | intros [= -> ->]]; auto.
Qed.

Lemma str_eqb_refl (a : list N) : str_eqb a a = true.
Proof. now apply str_eqb_eq. Qed.

(** Children that do not bear the name sought are passed over. *)
Lemma ram_children_skip (tag other : list N) (s : ns) (n : list N)
    (a : list (list N * list N)) (t : option (list N)) (xs rest : list xml) :
  Forall (fun x => xml_tag x = other) xs ->
  str_eqb other tag = false ->
  ram_children tag (Element s n a t (xs ++ rest))
  = ram_children tag (Element s n a t rest).
Proof.
  intros Hxs Hne. unfold ram_children. cbn [xml_children].
  rewrite filter_app. replace (filter _ xs) with (@nil xml); [reflexivity|].
  symmetry. induction Hxs as [|x xs Hx _ IH]; [reflexivity|].
  cbn [filter]. rewrite Hx, Hne, andb_false_r. exact IH.
Qed.

Lemma line_items_tags (l : list item) :
  forall idx lines,
    line_items idx l = Ok lines ->
    Forall (fun x => xml_tag x = py "IncludedSupplyChainTradeLineItem") lines.
Proof.
  induction l as [|it l IH]; intros idx lines H; cbn [line_items] in H.
  - injection H as <-. constructor.
  - apply bind_ok in H as [x [Hx H]]. apply bind_ok in H as [xs [Hxs H]].
    injection H as <-. constructor; [|eauto].
    unfold line_item in Hx. run Hx. injection Hx as <-. reflexivity.
Qed.

Lemma mapM_tags {A : Type} (f : A -> result xml) (tag : list N) (l : list A) :
  (forall a x, f a = Ok x -> xml_tag x = tag) ->
  forall xs, mapM f l = Ok xs -> Forall (fun x => xml_tag x = tag) xs.
Proof.
  intros Hf. induction l as [|a l IH]; intros xs H; cbn [mapM] in H.
  - injection H as <-. constructor.
  - apply bind_ok in H as [x [Hx H]]. apply bind_ok in H as [xs' [Hxs H]].
    injection H as <-. constructor; eauto.
Qed.

Lemma tax_block_tag (entry : rate_key * (spec_float * spec_float)) (x : xml) :
  tax_block entry = Ok x -> xml_tag x = py "ApplicableTradeTax".
Proof.
  destruct entry as [[o rate] [base tax]]. unfold tax_block. intros H. run H.
  injection H as <-. reflexivity.
Qed.

(** The shape of the tree that [build_tree] returns. *)
Lemma build_tree_inv (data : invoice) (tree : xml) :
  build_tree data = Ok tree ->
  exists context document l lines p seller q buyer rates taxes currency payment monetary,
    items data = Some l /\ line_items 1 l = Ok lines
    /\ issuer data = Some p /\ seller_party p = Ok seller
    /\ recipient data = Some q /\ buyer_party q = Ok buyer
    /\ foldM group_item l [] = Ok rates /\ mapM tax_block rates = Ok taxes
    /\ monetary_summation data = Ok monetary
    /\ xml_tag currency = py "InvoiceCurrencyCode"
    /\ xml_tag payment = py "SpecifiedTradePaymentTerms"
    /\ tree =
       Element RSM (py "CrossIndustryInvoice") [] None
         [ Element RSM (py "ExchangedDocumentContext") [] None context;
           Element RSM (py "ExchangedDocument") [] None document;
           Element RSM (py "SupplyChainTradeTransaction") [] None
             (lines ++
              [ ram_node (py "ApplicableHeaderTradeAgreement") [seller; buyer];
                ram_node (py "ApplicableHeaderTradeDelivery") [];
                ram_node (py "ApplicableHeaderTradeSettlement")
                  ([currency] ++ taxes ++ [payment; monetary]) ]) ].
Proof.
  unfold build_tree. intros H. run H. injection H as <-.
  rewrite Hv1 in Hv4. injection Hv4 as <-.
  do 13 eexists. repeat split; try eassumption; reflexivity.
Qed.

Ltac eval_str_eqb :=
  repeat match goal with
         | |- context [str_eqb ?a ?b] =>
             let v := eval vm_compute in (str_eqb a b) in
             match v with
             | true => change (str_eqb a b) with true
             | false => change (str_eqb a b) with false
             end
         end.

Lemma buyer_party_tag (q : party) (buyer : xml) :
  buyer_party q = Ok buyer -> xml_tag buyer = py "BuyerTradeParty".
Proof. unfold buyer_party. intros H. run H. injection H as <-. reflexivity. Qed.

Lemma seller_party_tag (p : party) (seller : xml) :
  seller_party p = Ok seller -> xml_tag seller = py "SellerTradeParty".
Proof. unfold seller_party. intros H. run H. injection H as <-. reflexivity. Qed.

Lemma monetary_summation_tag (data : invoice) (m : xml) :
  monetary_summation data = Ok m ->
  xml_tag m = py "SpecifiedTradeSettlementHeaderMonetarySummation".
Proof. unfold monetary_summation. intros H. run H. injection H as <-. reflexivity. Qed.

Lemma xml_eta (x : xml) :
  x = Element (xml_space x) (xml_tag x) (let 'Element _ _ a _ _ := x in a)
        (xml_text x) (xml_children x).
Proof. now destruct x. Qed.

Lemma ram_children_hit (tag : list N) (s : ns) (n : list N)
    (a : list (list N * list N)) (t : option (list N)) (x : xml) (rest : list xml) :
  xml_space x = RAM -> xml_tag x = tag ->
  ram_children tag (Element s n a t (x :: rest))
  = x :: ram_children tag (Element s n a t rest).
Proof.
  intros Hs Ht. unfold ram_children. cbn [xml_children filter].
  now rewrite Hs, Ht, str_eqb_refl.
Qed.

Lemma ram_children_miss (tag other : list N) (s : ns) (n : list N)
    (a : list (list N * list N)) (t : option (list N)) (x : xml) (rest : list xml) :
  xml_tag x = other -> str_eqb other tag = false ->
  ram_children tag (Element s n a t (x :: rest))
  = ram_children tag (Element s n a t rest).
Proof.
  intros Ht Hne. unfold ram_children. cbn [xml_children filter].
  now rewrite Ht, Hne, andb_false_r.
Qed.

Lemma seller_party_space (p : party) (seller : xml) :
  seller_party p = Ok seller -> xml_space seller = RAM.
Proof. unfold seller_party. intros H. run H. injection H as <-. reflexivity. Qed.

Lemma monetary_summation_space (data : invoice) (m : xml) :
  monetary_summation data = Ok m -> xml_space m = RAM.
Proof. unfold monetary_summation. intros H. run H. injection H as <-. reflexivity. Qed.

Lemma elements_at_transaction (path : list (list N)) (context document : xml)
    (children : list xml) :
  xml_tag context = py "ExchangedDocumentContext" ->
  xml_tag document = py "ExchangedDocument" ->
  elements_at path
    (Element RSM (py "CrossIndustryInvoice") [] None
       [ context; document;
         Element RSM (py "SupplyChainTradeTransaction") [] None children ])
  = ram_path path (Element RSM (py "SupplyChainTradeTransaction") [] None children).
Proof.
  intros Hc Hd. unfold elements_at. cbn [xml_children filter].
  rewrite Hc, Hd. cbn [xml_space xml_tag ns_eqb andb].
  eval_str_eqb. rewrite !andb_false_r. cbn [flat_map]. apply app_nil_r.
Qed.

Lemma texts_at_transaction (path : list (list N)) (context document : xml)
    (children : list xml) :
  xml_tag context = py "ExchangedDocumentContext" ->
  xml_tag document = py "ExchangedDocument" ->
  texts_at path
    (Element RSM (py "CrossIndustryInvoice") [] None
       [ context; document;
         Element RSM (py "SupplyChainTradeTransaction") [] None children ])
  = map xml_text
      (ram_path path (Element RSM (py "SupplyChainTradeTransaction") [] None children)).
Proof.
  intros Hc Hd. unfold texts_at. now rewrite elements_at_transaction.
Qed.

(** What [texts_at] finds in a built tree: below the seller, and below the
    monetary summation. *)
Lemma texts_at_seller (data : invoice) (tree : xml) (path : list (list N)) :
  build_tree data = Ok tree ->
  exists p seller,
    issuer data = Some p /\ seller_party p = Ok seller
    /\ texts_at (py "ApplicableHeaderTradeAgreement" :: py "SellerTradeParty" :: path) tree
       = map xml_text (ram_path path seller).
Proof.
  intros H. apply build_tree_inv in H.
  destruct H as (context & document & l & lines & p & seller & q & buyer & rates
                 & taxes & currency & payment & monetary & Hl & Hlines & Hp & Hseller
                 & Hq & Hbuyer & Hrates & Htaxes & Hmon & Hcur & Hpay & ->).
  exists p, seller. split; [exact Hp|]. split; [exact Hseller|].
  rewrite texts_at_transaction by reflexivity.
  cbn [ram_path].
  rewrite ram_children_skip with (other := py "IncludedSupplyChainTradeLineItem");
    [| exact (line_items_tags _ _ _ Hlines) | reflexivity].
  rewrite ram_children_hit by reflexivity.
  rewrite ram_children_miss with (other := py "ApplicableHeaderTradeDelivery")
    by reflexivity.
  rewrite ram_children_miss with (other := py "ApplicableHeaderTradeSettlement")
    by reflexivity.
  cbn [flat_map]. rewrite app_nil_r.
  unfold ram_node at 1.
  rewrite ram_children_hit;
    [| exact (seller_party_space _ _ Hseller) | exact (seller_party_tag _ _ Hseller)].
  rewrite ram_children_miss with (other := py "BuyerTradeParty");
    [| exact (buyer_party_tag _ _ Hbuyer) | reflexivity].
  cbn [ram_children xml_children filter flat_map]. now rewrite app_nil_r.
Qed.

Lemma texts_at_monetary (data : invoice) (tree : xml) (path : list (list N)) :
  build_tree data = Ok tree ->
  exists monetary,
    monetary_summation data = Ok monetary
    /\ texts_at (py "ApplicableHeaderTradeSettlement"
                 :: py "SpecifiedTradeSettlementHeaderMonetarySummation" :: path) tree
       = map xml_text (ram_path path monetary).
Proof.
  intros H. apply build_tree_inv in H.
  destruct H as (context & document & l & lines & p & seller & q & buyer & rates
                 & taxes & currency & payment & monetary & Hl & Hlines & Hp & Hseller
                 & Hq & Hbuyer & Hrates & Htaxes & Hmon & Hcur & Hpay & ->).
  exists monetary. split; [exact Hmon|].
  rewrite texts_at_transaction by reflexivity.
  cbn [ram_path].
  rewrite ram_children_skip with (other := py "IncludedSupplyChainTradeLineItem");
    [| exact (line_items_tags _ _ _ Hlines) | reflexivity].
  rewrite ram_children_miss with (other := py "ApplicableHeaderTradeAgreement")
    by reflexivity.
  rewrite ram_children_miss with (other := py "ApplicableHeaderTradeDelivery")
    by reflexivity.
  rewrite ram_children_hit by reflexivity.
  cbn [ram_children xml_children filter flat_map]. rewrite app_nil_r.
  unfold ram_node at 1. cbn [app].
  rewrite ram_children_miss with (other := py "InvoiceCurrencyCode");
    [| exact Hcur | reflexivity].
  rewrite ram_children_skip with (other := py "ApplicableTradeTax");
    [| exact (mapM_tags _ _ _ tax_block_tag _ Htaxes) | reflexivity].
  rewrite ram_children_miss with (other := py "SpecifiedTradePaymentTerms");
    [| exact Hpay | reflexivity].
  rewrite ram_children_hit;
    [| exact (monetary_summation_space _ _ Hmon) | exact (monetary_summation_tag _ _ Hmon)].
  cbn [ram_children xml_children filter flat_map]. now rewrite app_nil_r.
Qed.

(* ------------------------------------------------------------------ *)
(** ** The seller's identifiers *)

(** What the builder writes as the seller's legal-organization ID: the value
    under the key [siret] whenever the key is there, the fourteen zeros only
    when it is not. *)
Theorem seller_legal_id_is_siret_value (data : invoice) (tree : xml) (p : party) :
  build_tree data = Ok tree ->
  issuer data = Some p ->
  texts_at seller_legal_id_path tree
  = [Some (get_default (siret p) (py "00000000000000"))].
Proof.
  intros H Hp.
  destruct (texts_at_seller data tree [py "SpecifiedLegalOrganization"; py "ID"] H)
    as (p' & seller & Hp' & Hseller & E).
  rewrite Hp in Hp'. injection Hp' as <-.
  unfold seller_legal_id_path. rewrite E.
  unfold seller_party in Hseller. run Hseller. injection Hseller as <-.
  unfold postal_address in Hr. run Hr. injection Hr as <-.
  reflexivity.
Qed.

Lemma seller_legal_id_is_siret_value_witness :
  build_tree sample_invoice = Ok sample_tree
  /\ issuer sample_invoice = Some sample_party
  /\ texts_at seller_legal_id_path sample_tree
     = [Some (get_default (siret sample_party) (py "00000000000000"))].
Proof.
  assert (build_tree sample_invoice = Ok sample_tree) as H by (vm_compute; reflexivity).
  split; [exact H|]. split; [reflexivity|].
  exact (seller_legal_id_is_siret_value sample_invoice sample_tree sample_party H eq_refl).
Defined.

(** C9, the failing input.  The record that [generate_invoice] builds from
    a form without SIRET holds the empty string under [siret]; it passes the
    validator, and the seller's legal-organization ID of the document is the
    empty text, not the fourteen zeros. *)
Theorem seller_legal_id_of_form_without_siret :
  (data <- build_invoice_data sample_form ;;
   _ <- validate_invoice_data data ;;
   tree <- build_tree data ;;
   Ok (siret (get_default (issuer data) empty_party),
       texts_at seller_legal_id_path tree))
  = Ok (Some [], [Some []]).
Proof. vm_compute. reflexivity. Qed.

(** C10.  When the issuer's [siret] is the empty string and no VAT number is
    given (the key absent, or empty), the seller's tax-registration ID of
    the built document is [FR00]. *)
Theorem seller_tax_id_of_empty_siret (data : invoice) (tree : xml) (p : party) :
  build_tree data = Ok tree ->
  issuer data = Some p ->
  siret p = Some [] ->
  truthy (vat_number p) = false ->
  texts_at seller_tax_id_path tree = [Some (py "FR00")].
Proof.
  intros H Hp Hsiret Hvat.
  destruct (texts_at_seller data tree [py "SpecifiedTaxRegistration"; py "ID"] H)
    as (p' & seller & Hp' & Hseller & E).
  rewrite Hp in Hp'. injection Hp' as <-.
  unfold seller_tax_id_path. rewrite E.
  unfold seller_party in Hseller. run Hseller. injection Hseller as <-.
  unfold postal_address in Hr. run Hr. injection Hr as <-.
  assert (r0 = py "FR00") as ->; [|reflexivity].
  unfold seller_vat_number in Hr0. rewrite Hsiret in Hr0.
  destruct (vat_number p) as [[|c given]|]; try discriminate Hvat;
    cbn in Hr0; injection Hr0 as <-; reflexivity.
Qed.

Lemma seller_tax_id_of_empty_siret_witness :
  build_tree form_invoice = Ok form_tree
  /\ issuer form_invoice = Some (get_default (issuer form_invoice) empty_party)
  /\ siret (get_default (issuer form_invoice) empty_party) = Some []
  /\ truthy (vat_number (get_default (issuer form_invoice) empty_party)) = false
  /\ texts_at seller_tax_id_path form_tree = [Some (py "FR00")].
Proof.
  assert (build_tree form_invoice = Ok form_tree) as H by (vm_compute; reflexivity).
  split; [exact H|]. do 3 (split; [reflexivity|]).
  exact (seller_tax_id_of_empty_siret form_invoice form_tree
           (get_default (issuer form_invoice) empty_party)
           H eq_refl eq_refl eq_refl).
Defined.

(* ------------------------------------------------------------------ *)
(** ** The derived VAT number *)

Lemma lstrip_head (c : N) (s : list N) :
  num_isspace c = false -> lstrip (c :: s) = c :: s.
Proof. intros H. cbn [lstrip]. now rewrite H. Qed.

Lemma strip_digits (s : list N) :
  forallb py_isdecimal s = true -> strip s = s.
Proof.
  intros H. unfold strip.
  assert (forall t, forallb py_isdecimal t = true -> lstrip t = t) as L.
  { intros [|c t] Ht; [reflexivity|]. cbn [forallb] in Ht.
    apply andb_true_iff in Ht as [Hc _]. unfold py_isdecimal in Hc.
    destruct (py_decimal c) as [v|] eqn:E; [|discriminate].
    apply lstrip_head. now destruct (decimal_plain _ _ E) as (_ & ? & _). }
  rewrite (L s H), L, rev_involutive; [reflexivity|].
  rewrite forallb_forall in *. intros c Hc. apply H. now apply in_rev.
Qed.

Lemma digits_value_digits (s : list N) :
  forallb py_isdecimal s = true ->
  forall acc b,
    (b = true \/ s <> []) ->
    digits_value acc b s
    = Some (fold_left (fun acc c => acc * 10 + Z.to_N (digit_value c)) s acc).
Proof.
  induction s as [|c s IH]; intros H acc b Hb; cbn [digits_value fold_left].
  - destruct Hb as [-> | Hb]; [reflexivity | congruence].
  - cbn [forallb] in H. apply andb_true_iff in H as [Hc Hs].
    unfold py_isdecimal in Hc. unfold digit_value.
    destruct (py_decimal c) as [v|] eqn:E; [|discriminate].
    rewrite N2Z.id. apply IH; auto.
Qed.

Lemma py_int_digits (s : list N) :
  forallb py_isdecimal s = true -> s <> [] ->
  py_int s = Ok (siren_number s).
Proof.
  intros H Hne. unfold py_int. rewrite (strip_digits _ H).
  destruct s as [|c s]; [congruence|].
  pose proof H as H'. cbn [forallb] in H'. apply andb_true_iff in H' as [Hc _].
  unfold py_isdecimal in Hc. destruct (py_decimal c) as [v|] eqn:E; [|discriminate].
  destruct (decimal_plain _ _ E) as (_ & _ & Hp & Hm & _).
  rewrite Hp, Hm. rewrite (digits_value_digits _ H 0 false) by (right; congruence).
  reflexivity.
Qed.

Lemma forallb_firstn {A : Type} (f : A -> bool) (n : nat) (l : list A) :
  forallb f l = true -> forallb f (firstn n l) = true.
Proof.
  revert l. induction n as [|n IH]; intros [|a l] H; cbn [firstn forallb] in *;
    try reflexivity.
  apply andb_true_iff in H as [-> H]. now apply IH.
Qed.

(** With digits and plain spaces only, the nine characters taken as SIREN
    are digits, that [int()] reads. *)
Lemma derive_vat_number_reads_digits (siret_ : list N) :
  forallb (fun c => (c =? 32) || py_isdecimal c) siret_ = true ->
  (9 <= length (sub_space_hyphen siret_))%nat ->
  derive_vat_number siret_ = Ok (spec_vat_number siret_).
Proof.
  intros Hchars Hlen.
  assert (remove_char 32 siret_ = sub_space_hyphen siret_) as Hclean.
  { unfold remove_char, sub_space_hyphen. apply filter_ext_in. intros c Hin.
    rewrite forallb_forall in Hchars. specialize (Hchars c Hin).
    destruct (c =? 32) eqn:E32.
    - apply N.eqb_eq in E32. now subst c.
    - cbn [orb] in Hchars. unfold py_isdecimal in Hchars.
      destruct (py_decimal c) as [v|] eqn:E; [|discriminate].
      destruct (decimal_plain _ _ E) as (-> & _ & _ & -> & _). reflexivity. }
  assert (forallb py_isdecimal (sub_space_hyphen siret_) = true) as Hdigits.
  { rewrite <- Hclean. unfold remove_char. apply forallb_forall. intros c Hin.
    apply filter_In in Hin as [Hin Hc].
    rewrite forallb_forall in Hchars. specialize (Hchars c Hin).
    apply negb_true_iff in Hc. now rewrite Hc in Hchars. }
  unfold derive_vat_number. rewrite Hclean.
  apply Nat.leb_le in Hlen. rewrite Hlen.
  rewrite py_int_digits.
  - reflexivity.
  - now apply forallb_firstn.
  - apply Nat.leb_le in Hlen. destruct (sub_space_hyphen siret_); [cbn in Hlen; lia | discriminate].
Qed.

(** The derivation agrees with the specification on a SIRET made of digits
    and plain spaces. *)
Theorem derive_vat_number_digits_and_spaces (siret_ : list N) :
  forallb (fun c => (c =? 32) || py_isdecimal c) siret_ = true ->
  (9 <= length (sub_space_hyphen siret_))%nat ->
  derive_vat_number siret_ = Ok (spec_vat_number siret_).
Proof. exact (derive_vat_number_reads_digits siret_). Qed.

Lemma derive_vat_number_digits_and_spaces_witness :
  forallb (fun c => (c =? 32) || py_isdecimal c) (py "391 123 565 00002") = true
  /\ (9 <= length (sub_space_hyphen (py "391 123 565 00002")))%nat
  /\ derive_vat_number (py "391 123 565 00002") = Ok (py "FR22391123565").
Proof.
  assert (forallb (fun c => (c =? 32) || py_isdecimal c) (py "391 123 565 00002") = true)
    as H1 by reflexivity.
  assert (9 <= length (sub_space_hyphen (py "391 123 565 00002")))%nat
    as H2 by (vm_compute; lia).
  split; [exact H1|]. split; [exact H2|].
  exact (derive_vat_number_digits_and_spaces (py "391 123 565 00002") H1 H2).
Defined.

(** C6, the failing input.  A SIRET written with hyphens passes the
    validator, which strips them; the builder strips spaces only, so the
    nine characters it takes for the SIREN are [391-123-5], [int()] raises
    [ValueError] and no document is built.  The specification's identifier
    for this SIRET is [FR22391123565]. *)
Theorem derive_vat_number_of_hyphenated_siret :
  validate_invoice_data hyphenated_invoice = Ok true
  /\ derive_vat_number (py "391-123-565-00002") = Raise ValueError
  /\ build_tree hyphenated_invoice = Raise ValueError
  /\ spec_vat_number (py "391-123-565-00002") = py "FR22391123565".
Proof. repeat split; vm_compute; reflexivity. Qed.

(* ------------------------------------------------------------------ *)
(** ** The monetary summation *)

(** What the builder writes in the summation.  In a built document
    [GrandTotalAmount] is the record's [total_ttc] written with two
    decimals, [TaxBasisTotalAmount] its [total_ht] and [TaxTotalAmount] its
    [total_vat]; the builder takes the three from the record and adds
    nothing up. *)
Theorem monetary_summation_renders_record_totals (data : invoice) (tree : xml) :
  build_tree data = Ok tree ->
  (v <- subscript (total_ttc data) ;; s <- format_2f v ;; Ok [Some s])
  = Ok (texts_at (monetary_path (py "GrandTotalAmount")) tree)
  /\ (v <- subscript (total_ht data) ;; s <- format_2f v ;; Ok [Some s])
     = Ok (texts_at (monetary_path (py "TaxBasisTotalAmount")) tree)
  /\ (v <- subscript (total_vat data) ;; s <- format_2f v ;; Ok [Some s])
     = Ok (texts_at (monetary_path (py "TaxTotalAmount")) tree).
Proof.
  intros H. unfold monetary_path.
  destruct (texts_at_monetary data tree [py "GrandTotalAmount"] H) as (m & Hm & ->).
  destruct (texts_at_monetary data tree [py "TaxBasisTotalAmount"] H) as (m' & Hm' & ->).
  destruct (texts_at_monetary data tree [py "TaxTotalAmount"] H) as (m'' & Hm'' & ->).
  rewrite Hm in Hm', Hm''. injection Hm' as <-. injection Hm'' as <-.
  unfold monetary_summation in Hm. run Hm. injection Hm as <-.
  rewrite Hv in Hv0. injection Hv0 as <-. rewrite Hr in Hr0. injection Hr0 as <-.
  rewrite Hv2 in Hv3. injection Hv3 as <-. rewrite Hr2 in Hr3. injection Hr3 as <-.
  rewrite Hv, Hv1, Hv2. cbn [subscript bind]. rewrite Hr, Hr1, Hr2. cbn [bind].
  repeat split; reflexivity.
Qed.

Lemma monetary_summation_renders_record_totals_witness :
  build_tree sample_invoice = Ok sample_tree
  /\ ((v <- subscript (total_ttc sample_invoice) ;; s <- format_2f v ;; Ok [Some s])
      = Ok (texts_at (monetary_path (py "GrandTotalAmount")) sample_tree)
      /\ (v <- subscript (total_ht sample_invoice) ;; s <- format_2f v ;; Ok [Some s])
         = Ok (texts_at (monetary_path (py "TaxBasisTotalAmount")) sample_tree)
      /\ (v <- subscript (total_vat sample_invoice) ;; s <- format_2f v ;; Ok [Some s])
         = Ok (texts_at (monetary_path (py "TaxTotalAmount")) sample_tree)).
Proof.
  assert (build_tree sample_invoice = Ok sample_tree) as H by (vm_compute; reflexivity).
  split; [exact H|].
  exact (monetary_summation_renders_record_totals sample_invoice sample_tree H).
Defined.

(** C2.  The builder states the rule above its summation ([BR-CO-15:
    GrandTotalAmount = TaxBasisTotalAmount + TaxTotalAmount]) and does not
    keep it.  A record that the validator accepts, with [total_ht = 1],
    [total_vat = 1] and [total_ttc = 100]: the document is built, and its
    [GrandTotalAmount], 100.00, is not the sum of [TaxBasisTotalAmount],
    1.00, and [TaxTotalAmount], 1.00. *)
Lemma grand_total_not_the_sum :
  validate_invoice_data inconsistent_invoice = Ok true
  /\ (tree <- build_tree inconsistent_invoice ;;
      Ok (summation_consistent tree,
          texts_at (monetary_path (py "GrandTotalAmount")) tree,
          texts_at (monetary_path (py "TaxBasisTotalAmount")) tree,
          texts_at (monetary_path (py "TaxTotalAmount")) tree))
     = Ok (false, [Some (py "100.00")], [Some (py "1.00")], [Some (py "1.00")]).
Proof. split; vm_compute; reflexivity. Qed.

(** C1, counterexample.  The same record is accepted although
    [total_ttc = 100] is not [total_ht + total_vat = 2]. *)
Lemma accepted_with_inconsistent_totals :
  validate_invoice_data inconsistent_invoice = Ok true
  /\ totals_consistent inconsistent_invoice = false.
Proof. split; vm_compute; reflexivity. Qed.

(* ------------------------------------------------------------------ *)
(** ** The validator *)

Lemma py_int_raises (s : list N) (e : exn) : py_int s = Raise e -> e = ValueError.
Proof.
  unfold py_int.
  destruct (match strip s with
            | [] => (false, strip s)
            | c :: r => if c =? 43 then (false, r)
                        else if c =? 45 then (true, r) else (false, strip s)
            end) as [negative body].
  destruct (digits_value 0 false body); congruence.
Qed.

Lemma strptime_ymd_raises (s : list N) (e : exn) :
  strptime_ymd s = Raise e -> e = ValueError.
Proof.
  unfold strptime_ymd. destruct (match_date s) as [[[[y m] d] rest]|]; [|congruence].
  destruct rest; [|congruence].
  destruct (py_int y) as [year|e1] eqn:Ey; cbn [bind];
    [|intros [= <-]; eapply py_int_raises; eauto].
  destruct (py_int m) as [month|e2] eqn:Em; cbn [bind];
    [|intros [= <-]; eapply py_int_raises; eauto].
  destruct (py_int d) as [day|e3] eqn:Ed; cbn [bind];
    [|intros [= <-]; eapply py_int_raises; eauto].
  unfold make_date. destruct (_ && _)%bool; congruence.
Qed.

Lemma float_of_str_raises (s : list N) (e : exn) :
  float_of_str s = Raise e -> e = ValueError.
Proof.
  unfold float_of_str. intros H.
  repeat match type of H with
         | context [match ?x with _ => _ end] => destruct x
         end;
    congruence.
Qed.

(** What [float()] can raise. *)
Lemma py_float_raises (v : pyval) (e : exn) :
  py_float v = Raise e -> e = ValueError \/ e = TypeError \/ e = OverflowError.
Proof.
  destruct v as [|z|f|s]; cbn [py_float].
  - intros [= <-]. auto.
  - unfold float_of_int. destruct (float_of_Z z); intros [= <-]. auto.
  - discriminate.
  - intros H. left. eapply float_of_str_raises; eauto.
Qed.


(** A [try] block around [float()] adds the range message, the parse
    message or nothing, and lets [OverflowError] through. *)
Lemma check_number_spec (o : option pyval) (bad : spec_float -> bool)
    (rm pm : list N) (errors : list (list N)) :
  check_number (get_default o (PInt 0)) bad rm pm errors
  = if in_float_range o
    then Ok (errors ++ shown (out_of_range bad o) rm ++ shown (not_a_number o) pm)
    else Raise OverflowError.
Proof.
  unfold check_number, in_float_range, out_of_range, not_a_number, read_number, append.
  destruct (py_float (get_default o (PInt 0))) as [x|e] eqn:E.
  - destruct (bad x); cbn [shown app]; now rewrite ?app_nil_r.
  - destruct (py_float_raises _ _ E) as [-> | [-> | ->]]; cbn [shown app];
      now rewrite ?app_nil_r.
Qed.

Lemma try_value_error {A : Type} (r : result A) (errors : list (list N)) (m : list N) :
  (forall e, r = Raise e -> e = ValueError) ->
  match r with
  | Ok _ => Ok errors
  | Raise ValueError => Ok (append errors m)
  | Raise e => Raise e
  end = Ok (errors ++ if negb (is_ok r) then [m] else []).
Proof.
  intros H. destruct r as [a|e]; cbn [is_ok negb].
  - rewrite app_nil_r. reflexivity.
  - rewrite (H e eq_refl). reflexivity.
Qed.

(** Messages are compared as written, never by evaluation of their text. *)
Ltac same_messages :=
  cbn [negb andb shown map message field_key app];
  rewrite <- ?app_assoc, ?app_nil_r; cbn [app]; reflexivity.

Lemma check_required_spec (data : invoice) (errors : list (list N)) :
  check_required data errors
  = errors ++ map message (filter (violated data) [MissingDate; MissingInvoiceNumber]).
Proof.
  unfold check_required, append. cbn [fold_left filter violated].
  destruct (truthy (date data)), (truthy (invoice_number data)); same_messages.
Qed.

Lemma check_date_spec (data : invoice) (errors : list (list N)) :
  check_date data errors
  = Ok (errors ++ map message (filter (violated data) [BadDate])).
Proof.
  unfold check_date. cbn [filter violated].
  destruct (truthy (date data)); cbn [andb]; [|same_messages].
  rewrite try_value_error by apply strptime_ymd_raises.
  destruct (negb (is_ok (strptime_ymd (get_default (date data) [])))); same_messages.
Qed.

Lemma check_party_spec (data : invoice) (w : who) (errors : list (list N)) :
  check_party (match w with Issuer => py "Émetteur - " | Recipient => py "Destinataire - " end)
              (match w with Issuer => issuer data | Recipient => recipient data end)
              errors
  = errors ++ map message (filter (violated data) (party_rules w)).
Proof.
  unfold check_party, party_required, party_rules, append.
  cbn [fold_left map filter violated field_of]. unfold party_of.
  set (p := get_default (match w with Issuer => issuer data | Recipient => recipient data end)
                        empty_party).
  destruct (truthy (name p)), (truthy (address p)), (truthy (postal_code p)),
           (truthy (city p)), w; same_messages.
Qed.

Lemma check_siret_spec (data : invoice) (w : who) (errors : list (list N)) :
  check_siret (match w with Issuer => py "Issuer" | Recipient => py "Recipient" end)
              (match w with Issuer => issuer data | Recipient => recipient data end)
              errors
  = Ok (errors ++ map message (filter (violated data) [BadSiret w])).
Proof.
  unfold check_siret, append. cbn [filter violated]. unfold party_of.
  set (p := get_default (match w with Issuer => issuer data | Recipient => recipient data end)
                        empty_party).
  destruct (siret p) as [[|c s]|]; cbn [truthy andb get_default]; try same_messages.
  rewrite validate_siret_total. cbn [bind].
  destruct (spec_siret_valid py_isdecimal (c :: s)), w; same_messages.
Qed.


Lemma check_item_spec (data : invoice) (i : nat) (it : item) (errors : list (list N)) :
  item_at data i = Some it ->
  check_item i it errors
  = if item_in_range it
    then Ok (errors ++ map message (filter (violated data) (item_rules i)))
    else Raise OverflowError.
Proof.
  intros Hit. unfold check_item, item_in_range.
  rewrite check_number_spec.
  destruct (in_float_range (quantity it)); cbn [andb bind]; [|reflexivity].
  rewrite check_number_spec.
  destruct (in_float_range (unit_price it)); cbn [andb bind]; [|reflexivity].
  rewrite check_number_spec.
  destruct (in_float_range (vat_rate it)); cbn [andb bind]; [|reflexivity].
  f_equal. unfold item_rules. cbn [filter violated]. unfold on_item. rewrite Hit.
  unfold append.
  destruct (truthy (description it)),
           (out_of_range (fun q => fle q zero) (quantity it)),
           (not_a_number (quantity it)),
           (out_of_range (fun p => flt p zero) (unit_price it)),
           (not_a_number (unit_price it)),
           (out_of_range (fun r => flt r zero || flt hundred r) (vat_rate it)),
           (not_a_number (vat_rate it)); same_messages.
Qed.

Lemma check_items_spec (data : invoice) (l : list item) :
  forall i errors,
    (forall k it, nth_error l k = Some it -> item_at data (i + k) = Some it) ->
    check_items i l errors
    = if forallb item_in_range l
      then Ok (errors ++ map message
                 (filter (violated data) (flat_map item_rules (seq i (length l)))))
      else Raise OverflowError.
Proof.
  induction l as [|it l IH]; intros i errors Hat; cbn [check_items forallb].
  - cbn [length seq flat_map filter map]. rewrite app_nil_r. reflexivity.
  - rewrite (check_item_spec data i it errors).
    2:{ rewrite <- (Nat.add_0_r i). apply Hat. reflexivity. }
    destruct (item_in_range it); cbn [andb bind]; [|reflexivity].
    rewrite IH.
    2:{ intros k it' Hk. rewrite Nat.add_succ_comm. apply Hat. exact Hk. }
    destruct (forallb item_in_range l); [|reflexivity].
    f_equal. cbn [length seq flat_map]. rewrite filter_app, map_app, app_assoc.
    reflexivity.
Qed.

Lemma check_articles_spec (data : invoice) (errors : list (list N)) :
  check_articles data errors
  = if forallb item_in_range (get_default (items data) [])
    then Ok (errors ++ map message
               (filter (violated data)
                  (NoItem :: flat_map item_rules
                               (seq 0 (length (get_default (items data) []))))))
    else Raise OverflowError.
Proof.
  unfold check_articles, append. cbn [filter violated].
  destruct (items data) as [[|it l]|] eqn:E; cbn [get_default forallb length seq flat_map];
    try same_messages.
  rewrite (check_items_spec data (it :: l) 0 errors).
  - reflexivity.
  - intros k it' Hk. unfold item_at. rewrite E. exact Hk.
Qed.

Lemma check_total_spec (data : invoice) (errors : list (list N)) :
  check_total data errors
  = if in_float_range (total_ttc data)
    then Ok (errors ++ map message
               (filter (violated data) [TotalNotPositive; TotalNotNumber]))
    else Raise OverflowError.
Proof.
  unfold check_total. rewrite check_number_spec.
  destruct (in_float_range (total_ttc data)); [|reflexivity].
  cbn [filter violated].
  destruct (out_of_range (fun t => fle t zero) (total_ttc data)),
           (not_a_number (total_ttc data)); same_messages.
Qed.

(** The list of messages the validator collects is the list of the rules the
    record breaks, unless an integer beyond the floats stops it. *)
Lemma collect_errors_spec (data : invoice) :
  collect_errors data
  = if no_overflow data then Ok (map message (spec_violations data))
    else Raise OverflowError.
Proof.
  assert (all_rules data
          = [MissingDate; MissingInvoiceNumber] ++ [BadDate]
            ++ party_rules Issuer ++ party_rules Recipient
            ++ [BadSiret Issuer] ++ [BadSiret Recipient]
            ++ (NoItem :: flat_map item_rules
                            (seq 0 (length (get_default (items data) []))))
            ++ [TotalNotPositive; TotalNotNumber]) as Hrules.
  { reflexivity. }
  unfold collect_errors, no_overflow, spec_violations. rewrite Hrules.
  rewrite check_required_spec, check_date_spec. cbn [bind].
  rewrite (check_party_spec data Issuer), (check_party_spec data Recipient).
  rewrite (check_siret_spec data Issuer). cbn [bind].
  rewrite (check_siret_spec data Recipient). cbn [bind].
  rewrite check_articles_spec.
  change (forallb _ (get_default (items data) []))
    with (forallb item_in_range (get_default (items data) [])).
  destruct (forallb item_in_range (get_default (items data) [])); cbn [andb bind];
    [|reflexivity].
  rewrite check_total_spec.
  destruct (in_float_range (total_ttc data)); [|reflexivity].
  f_equal. rewrite !filter_app, !map_app, <- !app_assoc. reflexivity.
Qed.

(** The validator, whole: it answers as the specification asks on every
    record that holds no integer beyond the floats, and stops on
    [OverflowError] on the others. *)
Theorem validate_invoice_data_spec (data : invoice) :
  validate_invoice_data data
  = if no_overflow data then spec_validate data else Raise OverflowError.
Proof.
  unfold validate_invoice_data, spec_validate. rewrite collect_errors_spec.
  destruct (no_overflow data); cbn [bind]; [|reflexivity].
  destruct (spec_violations data); reflexivity.
Qed.

(** Aggregation, never fail-fast: on a record whose integers fit a float,
    validation accepts when no rule is broken and otherwise raises one
    [ValidationError] whose text lists, in the order of the rules, the
    message of every broken rule. *)
Theorem validation_collects_every_violation (data : invoice) :
  no_overflow data = true ->
  validate_invoice_data data = spec_validate data
  /\ forall v, In v (spec_violations data)
               <-> In v (all_rules data) /\ violated data v = true.
Proof.
  intros H. rewrite validate_invoice_data_spec, H. split; [reflexivity|].
  intros v. unfold spec_violations. apply filter_In.
Qed.

Lemma validation_collects_every_violation_witness :
  no_overflow overflowing_invoice = false
  /\ no_overflow sample_invoice = true
  /\ validate_invoice_data sample_invoice = spec_validate sample_invoice.
Proof.
  split; [reflexivity|]. split; [reflexivity|].
  exact (proj1 (validation_collects_every_violation sample_invoice eq_refl)).
Defined.

(** C4, the failing input.  A record that breaks two rules and whose
    quantity is the integer [10 ** 400]: [float()] raises [OverflowError],
    which [except (ValueError, TypeError)] does not catch, so validation
    stops there and no list of violations is raised. *)
Theorem validation_stops_on_overflow :
  validate_invoice_data overflowing_invoice = Raise OverflowError
  /\ spec_violations overflowing_invoice = [MissingInvoiceNumber; NoDescription 0].
Proof. split; vm_compute; reflexivity. Qed.

Lemma validate_ignores_ht_vat (h v : option pyval) (data : invoice) :
  validate_invoice_data (with_ht_vat h v data) = validate_invoice_data data.
Proof. reflexivity. Qed.

(** C1 (as the code has it).  A record that the validator accepts has a
    [total_ttc] that converts to a float [t] for which [t <= 0] is false;
    [total_ht] and [total_vat] are not read: the record is accepted
    whatever they hold. *)
Theorem accepted_total_is_positive (data : invoice) :
  validate_invoice_data data = Ok true ->
  (exists t, py_float (get_default (total_ttc data) (PInt 0)) = Ok t
             /\ fle t zero = false)
  /\ forall h v, validate_invoice_data (with_ht_vat h v data) = Ok true.
Proof.
  intros H. split; [|intros h v; now rewrite validate_ignores_ht_vat].
  unfold validate_invoice_data in H.
  destruct (collect_errors data) as [errors|e] eqn:E; cbn [bind] in H; [|discriminate].
  destruct errors; [|discriminate]. clear H.
  unfold collect_errors in E. cbv zeta in E.
  rewrite check_date_spec in E. cbn [bind] in E.
  rewrite (check_siret_spec data Issuer) in E. cbn [bind] in E.
  rewrite (check_siret_spec data Recipient) in E. cbn [bind] in E.
  rewrite check_articles_spec in E.
  destruct (forallb item_in_range (get_default (items data) [])); [|discriminate].
  cbn [bind] in E. unfold check_total, check_number in E.
  destruct (py_float (get_default (total_ttc data) (PInt 0))) as [t|e] eqn:Et.
  - exists t. split; [reflexivity|].
    destruct (fle t zero); [|reflexivity].
    injection E as E. unfold append in E. now apply app_eq_nil in E as [_ ?].
  - destruct e; try discriminate;
      injection E as E; unfold append in E; now apply app_eq_nil in E as [_ ?].
Qed.

Lemma accepted_total_is_positive_witness :
  validate_invoice_data inconsistent_invoice = Ok true
  /\ ((exists t, py_float (get_default (total_ttc inconsistent_invoice) (PInt 0)) = Ok t
                 /\ fle t zero = false)
      /\ forall h v,
           validate_invoice_data (with_ht_vat h v inconsistent_invoice) = Ok true).
Proof.
  assert (validate_invoice_data inconsistent_invoice = Ok true) as H
    by (vm_compute; reflexivity).
  split; [exact H|]. exact (accepted_total_is_positive inconsistent_invoice H).
Defined.

(* ------------------------------------------------------------------ *)
(** ** Blank lines of the form *)

Lemma truthy_some (o : option (list N)) :
  truthy o = true -> exists c s, o = Some (c :: s).
Proof. destruct o as [[|c s]|]; try discriminate. eauto. Qed.

Lemma blank_lines_skipped (f : form) (acc : list item) :
  forall k start,
    (forall i, (start <= i < start + k)%nat -> nth_error (descriptions f) i = Some []) ->
    foldM (form_line f) (seq start k) acc = Ok acc.
Proof.
  induction k as [|k IH]; intros start H; cbn [seq foldM]; [reflexivity|].
  unfold form_line at 1, index. rewrite (H start) by lia. cbn [bind].
  apply IH. intros i Hi. apply H. lia.
Qed.

Lemma all_blank (l : list (list N)) :
  forallb is_empty l = true ->
  forall i, (0 <= i < 0 + length l)%nat -> nth_error l i = Some [].
Proof.
  intros H i Hi.
  destruct (nth_error l i) as [d|] eqn:E.
  - rewrite forallb_forall in H. specialize (H d (nth_error_In _ _ E)).
    destruct d; [reflexivity | discriminate].
  - apply nth_error_None in E. lia.
Qed.

(** C5 (as the code has it).  When every line of the form has an empty
    description and the other fields are valid, the record is built with no
    item and with the three totals equal to the integer 0, [total_ttc] among
    them, and validation raises exactly two violations: "at least one item"
    and "the total must be greater than 0"; no line yields a description
    error. *)
Theorem blank_lines_two_violations (f : form) :
  forallb is_empty (descriptions f) = true ->
  form_header_valid f = true ->
  exists data,
    build_invoice_data f = Ok data
    /\ items data = Some []
    /\ total_ht data = Some (PInt 0) /\ total_vat data = Some (PInt 0)
    /\ total_ttc data = Some (PInt 0)
    /\ spec_violations data = [NoItem; TotalNotPositive]
    /\ validate_invoice_data data
       = Raise (ValidationError
                  (validation_message [message NoItem; message TotalNotPositive])).
Proof.
  intros Hblank Hvalid. unfold form_header_valid in Hvalid.
  repeat (apply andb_true_iff in Hvalid; destruct Hvalid as [Hvalid ?]).
  repeat match goal with
         | H : truthy _ = true |- _ =>
             let c := fresh "c" in let s := fresh "s" in
             apply truthy_some in H; destruct H as (c & s & H)
         end.
  rewrite Hvalid in *. cbn [get_default] in *.
  unfold build_invoice_data.
  repeat match goal with
         | H : _ f = Some _ |- _ => rewrite H; clear H
         end.
  cbn [subscript bind].
  rewrite (blank_lines_skipped f [] _ 0 (all_blank _ Hblank)). cbn [bind].
  unfold py_sum. cbn [foldM bind].
  eexists. split; [reflexivity|]. split; [reflexivity|].
  split; [reflexivity|]. split; [reflexivity|]. split; [reflexivity|].
  match goal with |- spec_violations ?d = _ /\ _ => set (data := d) end.
  assert (spec_violations data = [NoItem; TotalNotPositive]) as Hv.
  { unfold spec_violations, all_rules, data.
    cbn [items get_default length seq flat_map party_rules map app filter violated
         date invoice_number issuer recipient party_of field_of truthy negb andb
         name address postal_code city siret total_ttc].
    match goal with H : is_ok _ = true |- _ => rewrite H end. cbn [negb andb].
    unfold siret_acceptable in *.
    destruct (get_default (issuer_siret f) []) as [|ci si];
      destruct (get_default (recipient_siret f) []) as [|cr sr]; cbn [truthy andb];
      repeat match goal with H : spec_siret_valid _ _ = true |- _ => rewrite H end;
      reflexivity. }
  split; [exact Hv|].
  rewrite validate_invoice_data_spec.
  replace (no_overflow data) with true by reflexivity.
  unfold spec_validate. rewrite Hv. reflexivity.
Qed.

Lemma blank_lines_two_violations_witness :
  forallb is_empty (descriptions blank_lines_form) = true
  /\ form_header_valid blank_lines_form = true
  /\ exists data,
       build_invoice_data blank_lines_form = Ok data
       /\ items data = Some []
       /\ total_ht data = Some (PInt 0) /\ total_vat data = Some (PInt 0)
       /\ total_ttc data = Some (PInt 0)
       /\ spec_violations data = [NoItem; TotalNotPositive]
       /\ validate_invoice_data data
          = Raise (ValidationError
                     (validation_message [message NoItem; message TotalNotPositive])).
Proof.
  assert (forallb is_empty (descriptions blank_lines_form) = true) as H1 by reflexivity.
  assert (form_header_valid blank_lines_form = true) as H2 by (vm_compute; reflexivity).
  split; [exact H1|]. split; [exact H2|].
  exact (blank_lines_two_violations blank_lines_form H1 H2).
Defined.

(** C5, counterexample.  A form whose two lines have empty descriptions, all
    other fields valid: the validator collects two messages, not one. *)
Lemma blank_lines_not_a_single_violation :
  form_header_valid blank_lines_form = true
  /\ (data <- build_invoice_data blank_lines_form ;; collect_errors data)
     = Ok [ py "Au moins un article est obligatoire";
            py "Le montant total doit être supérieur à 0" ].
Proof. split; vm_compute; reflexivity. Qed.

(* ------------------------------------------------------------------ *)
(** ** Equality of floats *)


Lemma feq_true_iff (a b : spec_float) :
  feq a b = true <-> unsigned_zero a = unsigned_zero b /\ a <> S754_nan.
Proof.
  assert (forall (P Q : Prop), (P -> False) -> (Q -> False) -> (P <-> Q)) as no
    by tauto.
  assert (forall (P Q : Prop), P -> Q -> (P <-> Q)) as yes by tauto.
  unfold feq, SFeqb, SFcompare.
  destruct a as [sa|sa| |sa ma ea], b as [sb|sb| |sb mb eb]; cbn [unsigned_zero];
    try (apply no; [discriminate | intros [? ?]; congruence]);
    try (apply yes; [reflexivity | split; [reflexivity | discriminate]]);
    try (destruct sa; (apply no; [discriminate | intros [? ?]; congruence]));
    try (destruct sb; (apply no; [discriminate | intros [? ?]; congruence])).
  - destruct sa, sb;
      try (apply no; [discriminate | intros [? ?]; congruence]);
      (apply yes; [reflexivity | split; [reflexivity | discriminate]]).
  - change (PosDef.Pos.compare_cont Eq ma mb) with (Pos.compare ma mb).
    destruct sa, sb;
      try (apply no; [discriminate | intros [? ?]; congruence]);
      destruct (Z.compare_spec ea eb) as [He|He|He];
      try (apply no; [discriminate | intros [E _]; injection E; lia]);
      destruct (Pos.compare_spec ma mb) as [Hm|Hm|Hm]; cbn [CompOpp];
      try (apply no; [discriminate | intros [E _]; injection E; lia]);
      subst; (apply yes; [reflexivity | split; [reflexivity | discriminate]]).
Qed.

Lemma feq_sym_true (a b : spec_float) : feq a b = true -> feq b a = true.
Proof.
  intros H. apply feq_true_iff in H as [H Hn]. apply feq_true_iff.
  split; [congruence|]. intros ->. destruct a; cbn in H; congruence.
Qed.

Lemma feq_sym (a b : spec_float) : feq a b = feq b a.
Proof.
  destruct (feq a b) eqn:E1, (feq b a) eqn:E2; try reflexivity.
  - apply feq_sym_true in E1. congruence.
  - apply feq_sym_true in E2. congruence.
Qed.


(* ------------------------------------------------------------------ *)
(** ** The keys of the dict *)






(* ------------------------------------------------------------------ *)
(** ** Grouping by rate *)



















Lemma ram_children_all_hit (tag : list N) (s : ns) (n : list N)
    (a : list (list N * list N)) (t : option (list N)) (xs rest : list xml) :
  Forall (fun x => xml_space x = RAM /\ xml_tag x = tag) xs ->
  ram_children tag (Element s n a t (xs ++ rest))
  = xs ++ ram_children tag (Element s n a t rest).
Proof.
  intros H. induction H as [|x xs [Hs Ht] _ IH]; cbn [app]; [reflexivity|].
  rewrite ram_children_hit by assumption. now rewrite IH.
Qed.




(** NaN rates.  Three items whose rate is NaN, the first two holding one
    float object and the third another: the first two make one block, the
    third a block of its own. *)
Lemma nan_rates_are_grouped_by_object :
  (tree <- build_tree nan_invoice ;;
   Ok (map block_summary (elements_at tax_summary_path tree)))
  = Ok [ [ [Some (py "80.00")]; [Some (py "VAT")]; [Some (py "400.00")]; [Some (py "S")];
           [Some (py "nan")] ];
         [ [Some (py "40.00")]; [Some (py "VAT")]; [Some (py "200.00")]; [Some (py "S")];
           [Some (py "nan")] ] ].
Proof. vm_compute. reflexivity. Qed.

(* ------------------------------------------------------------------ *)
(** ** Reading back what was written *)

Lemma span_app (p : N -> bool) (a r : list N) :
  forallb p a = true -> stops p r -> span p (a ++ r) = (a, r).
Proof.
  intros Ha Hr. induction a as [|c a IH]; cbn [app].
  - destruct r as [|c r]; cbn [span]; [reflexivity|]. cbn [stops] in Hr. now rewrite Hr.
  - cbn [forallb] in Ha. apply andb_true_iff in Ha as [Hc Ha].
    cbn [span]. rewrite Hc, (IH Ha). reflexivity.
Qed.

Lemma parse_name_app (n r : list N) :
  name_ok n = true -> stops name_char r -> parse_name (n ++ r) = Some (n, r).
Proof.
  intros Hn Hr. unfold name_ok in Hn. destruct n as [|c n]; [discriminate|].
  apply andb_true_iff in Hn as [Hn Hlen]. apply andb_true_iff in Hn as [Hc Hall].
  unfold parse_name. rewrite (span_app name_char (c :: n) r Hall Hr).
  now rewrite Hc, Hlen.
Qed.

Lemma delimited_stops (r : list N) : delimited r -> stops name_char r.
Proof. destruct r; cbn; tauto. Qed.

Lemma parse_qname_app (q : qname) (r : list N) :
  qname_ok q = true -> delimited r ->
  parse_qname (write_qname q ++ r) = Some (q, r).
Proof.
  destruct q as [[p|] local]; unfold qname_ok, write_qname, parse_qname; cbn [fst snd];
    intros Hq Hr.
  - apply andb_true_iff in Hq as [Hp Hl].
    rewrite <- !app_assoc. rewrite (parse_name_app p _ Hp) by reflexivity.
    cbn [app]. rewrite N.eqb_refl.
    now rewrite (parse_name_app local r Hl (delimited_stops r Hr)).
  - rewrite (parse_name_app local r Hq (delimited_stops r Hr)).
    destruct r as [|c r]; [reflexivity|]. cbn [delimited] in Hr. destruct Hr as [_ ->].
    reflexivity.
Qed.

Lemma name_start_not_space (c : N) : name_start c = true -> is_space c = false.
Proof.
  unfold name_start, is_space, in_range. intros H.
  repeat (apply orb_true_iff in H; destruct H as [H|H]);
    repeat (apply andb_true_iff in H; destruct H as [H ?]);
    repeat match goal with
           | K : (_ <=? _) = true |- _ => apply N.leb_le in K
           | K : (_ =? _) = true |- _ => apply N.eqb_eq in K
           end;
    repeat (apply orb_false_iff; split); apply N.eqb_neq; lia.
Qed.

Lemma escape_attr_plain (v : list N) :
  forallb plain_char v = true -> escape_attr v = v.
Proof.
  induction v as [|c v IH]; cbn [forallb]; [reflexivity|].
  intros H. apply andb_true_iff in H as [Hc Hv].
  unfold escape_attr. cbn [flat_map]. fold (escape_attr v). rewrite (IH Hv).
  unfold plain_char, value_char in Hc.
  repeat (apply andb_true_iff in Hc; destruct Hc as [Hc ?]).
  repeat match goal with K : negb _ = true |- _ => apply negb_true_iff in K end.
  unfold escape_attr_char, escape_char.
  repeat match goal with K : (c =? _) = false |- _ => rewrite K; clear K end.
  reflexivity.
Qed.

Lemma plain_value (v : list N) :
  forallb plain_char v = true -> forallb value_char v = true.
Proof.
  intros H. rewrite forallb_forall in *. intros c Hc. specialize (H c Hc).
  unfold plain_char in H. do 4 (apply andb_true_iff in H; destruct H as [H _]).
  exact H.
Qed.

Lemma parse_attributes_app (l : list (qname * list N)) (r : list N) :
  forallb attribute_ok l = true -> tag_end r ->
  forall fuel, (length l < fuel)%nat ->
    parse_attributes fuel (write_attributes l ++ r) = Some (l, r).
Proof.
  intros Hl Hr. induction l as [|[q v] l IH]; intros fuel Hfuel;
    (destruct fuel as [|fuel]; [cbn [length] in Hfuel; lia|]);
    cbn [parse_attributes write_attributes flat_map app].
  - destruct r as [|c r]; [contradiction|]. cbn [tag_end] in Hr.
    cbn [span]. destruct Hr as [-> | ->]; reflexivity.
  - cbn [forallb] in Hl. apply andb_true_iff in Hl as [Ha Hl].
    unfold attribute_ok in Ha. cbn [fst snd] in Ha. apply andb_true_iff in Ha as [Ha Hlen].
    apply andb_true_iff in Ha as [Hq Hv].
    fold (write_attributes l). unfold write_attribute. cbn [fst snd].
    rewrite (escape_attr_plain v Hv). rewrite <- !app_assoc. cbn [app].
    assert (exists c n, write_qname q = c :: n /\ name_start c = true) as (c & n & Eq & Hc).
    { destruct q as [[p|] local]; unfold qname_ok in Hq; cbn [fst snd] in Hq;
        [apply andb_true_iff in Hq as [Hq _]|];
        unfold name_ok in Hq;
        [destruct p as [|c p] | destruct local as [|c local]]; try discriminate;
        apply andb_true_iff in Hq as [Hq _]; apply andb_true_iff in Hq as [Hq _];
        cbn [write_qname app]; eauto. }
    remember (write_qname q ++ 61 :: quote ++ v ++ quote ++ write_attributes l ++ r) as w eqn:Ew.
    assert (w = c :: n ++ 61 :: quote ++ v ++ quote ++ write_attributes l ++ r) as Ew'
      by (rewrite Ew, Eq; reflexivity).
    destruct w as [|c0 w]; [discriminate|]. injection Ew' as -> _.
    cbn [span]. replace (is_space 32) with true by reflexivity.
    rewrite (name_start_not_space c Hc), Hc, Ew.
    rewrite (parse_qname_app q _ Hq) by (split; reflexivity).
    cbn [expect quote app]. rewrite N.eqb_refl. cbn [expect]. rewrite N.eqb_refl.
    rewrite (span_app value_char v _ (plain_value v Hv)) by reflexivity.
    cbn [expect]. rewrite N.eqb_refl. rewrite Hlen.
    rewrite IH; [reflexivity | exact Hl | cbn [length] in Hfuel; lia].
Qed.

Lemma bytes_cons (c : N) (s : list N) : bytes (c :: s) = utf8_length c + bytes s.
Proof. reflexivity. Qed.

Lemma bytes_repeat (c : N) (n : nat) : bytes (repeat c n) = utf8_length c * N.of_nat n.
Proof.
  induction n as [|n IH]; [cbn [repeat bytes fold_right]; lia|].
  cbn [repeat]. rewrite bytes_cons, IH. lia.
Qed.

(** A text node that is too long already stays so. *)
Lemma fits_more (a b : N) (x : bool) :
  (a <=? text_limit) && ((a + b <=? text_limit) && x) = (a + b <=? text_limit) && x.
Proof.
  destruct (a + b <=? text_limit) eqn:E; [|apply andb_false_r].
  apply N.leb_le in E. replace (a <=? text_limit) with true; [reflexivity|].
  symmetry. apply N.leb_le. lia.
Qed.

Lemma reads_ext (depth : nat) (env : list (list N)) (node : N) (c : list N) (b b' : bool) :
  b = b' -> reads depth env node c b -> reads depth env node c b'.
Proof. intros <-. exact (fun H => H). Qed.

Lemma parses_ext (depth : nat) (env : list (list N)) (w : list N) (b b' : bool) :
  b = b' -> parses depth env w b -> parses depth env w b'.
Proof. intros <-. exact (fun H => H). Qed.

Lemma reads_nil (depth : nat) (env : list (list N)) (node : N) :
  reads depth env node [] true.
Proof.
  intros r [|fuel] Hfuel; [cbn [length] in Hfuel; lia|]. reflexivity.
Qed.

Lemma data_char_plain (c : N) :
  data_char c = true -> (c =? 60) = false /\ (c =? 38) = false.
Proof.
  unfold data_char. intros H.
  do 3 (apply andb_true_iff in H; destruct H as [H ?]).
  repeat match goal with K : negb _ = true |- _ => apply negb_true_iff in K end.
  auto.
Qed.

(** One character of data: the text node grows by its bytes, and the parser
    gives up if that is too many. *)
Lemma reads_data (depth : nat) (env : list (list N)) (node : N) (a : N) (c : list N)
    (b : bool) :
  data_char a = true ->
  (node + utf8_length a <= text_limit -> reads depth env (node + utf8_length a) c b) ->
  reads depth env node (a :: c) ((node + utf8_length a <=? text_limit) && b).
Proof.
  intros Ha Hc r [|fuel] Hfuel; cbn [length] in Hfuel; [lia|].
  destruct (data_char_plain a Ha) as [H60 H38].
  cbn [app parse_content]. rewrite H60, H38, Ha. unfold grow.
  destruct (node + utf8_length a <=? text_limit) eqn:E; [|reflexivity].
  cbn [andb]. apply N.leb_le in E. apply (Hc E). lia.
Qed.

Lemma reads_datas (depth : nat) (env : list (list N)) (d c : list N) (b : bool) :
  forallb data_char d = true ->
  forall node,
    node <= text_limit ->
    (node + bytes d <= text_limit -> reads depth env (node + bytes d) c b) ->
    reads depth env node (d ++ c) ((node + bytes d <=? text_limit) && b).
Proof.
  induction d as [|a d IH]; cbn [forallb app]; intros H node Hnode Hc.
  - cbn [bytes fold_right] in *. rewrite N.add_0_r in *.
    apply (reads_ext _ _ _ _ b); [|exact (Hc Hnode)].
    apply N.leb_le in Hnode. now rewrite Hnode.
  - apply andb_true_iff in H as [Ha Hd]. rewrite bytes_cons, N.add_assoc in Hc |- *.
    rewrite <- fits_more.
    apply reads_data; [exact Ha|]. intros Hfit.
    apply IH; [exact Hd | exact Hfit | exact Hc].
Qed.

Lemma escape_char_cases (c : N) :
  escape_char c = [38; 108; 116; 59] /\ c = 60
  \/ escape_char c = [38; 103; 116; 59] /\ c = 62
  \/ escape_char c = [38; 97; 109; 112; 59] /\ c = 38
  \/ escape_char c = [38; 35; 49; 51; 59] /\ c = 13
  \/ escape_char c = [c] /\ c <> 60 /\ c <> 62 /\ c <> 38.
Proof.
  unfold escape_char.
  destruct (c =? 60) eqn:E1; [apply N.eqb_eq in E1; left; split; [vm_compute|]; auto|].
  destruct (c =? 62) eqn:E2; [apply N.eqb_eq in E2; right; left; split; [vm_compute|]; auto|].
  destruct (c =? 38) eqn:E3;
    [apply N.eqb_eq in E3; right; right; left; split; [vm_compute|]; auto|].
  destruct (c =? 13) eqn:E4;
    [apply N.eqb_eq in E4; right; right; right; left; split; [vm_compute|]; auto|].
  apply N.eqb_neq in E1, E2, E3. right; right; right; right. auto.
Qed.

(** A reference: the text node grows by the bytes of its character. *)
Lemma reads_reference (depth : nat) (env : list (list N)) (node : N) (x : N)
    (w c : list N) (b : bool) :
  (forall r, parse_reference (w ++ r) = Some (x, r)) ->
  (node + utf8_length x <= text_limit -> reads depth env (node + utf8_length x) c b) ->
  reads depth env node (38 :: w ++ c) ((node + utf8_length x <=? text_limit) && b).
Proof.
  intros Hw Hc r [|fuel] Hfuel; cbn [length] in Hfuel; [lia|].
  cbn [app parse_content]. replace (38 =? 60) with false by reflexivity.
  replace (38 =? 38) with true by reflexivity.
  rewrite <- app_assoc, Hw. unfold grow.
  destruct (node + utf8_length x <=? text_limit) eqn:E; [|reflexivity].
  cbn [andb]. apply N.leb_le in E. apply (Hc E). rewrite length_app in Hfuel. lia.
Qed.

Lemma reads_escape (depth : nat) (env : list (list N)) (node : N) (a : N) (c : list N)
    (b : bool) :
  xml_char a = true ->
  (node + utf8_length a <= text_limit -> reads depth env (node + utf8_length a) c b) ->
  reads depth env node (escape_char a ++ c) ((node + utf8_length a <=? text_limit) && b).
Proof.
  intros Ha Hc.
  destruct (escape_char_cases a)
    as [[-> ->]|[[-> ->]|[[-> ->]|[[-> ->]|[-> (H1 & H2 & H3)]]]]].
  - apply (reads_reference depth env node 60 [108; 116; 59] c); [|exact Hc].
    intros r. reflexivity.
  - apply (reads_reference depth env node 62 [103; 116; 59] c); [|exact Hc].
    intros r. reflexivity.
  - apply (reads_reference depth env node 38 [97; 109; 112; 59] c); [|exact Hc].
    intros r. reflexivity.
  - apply (reads_reference depth env node 13 [35; 49; 51; 59] c); [|exact Hc].
    intros r. reflexivity.
  - apply reads_data; [|exact Hc]. unfold data_char. rewrite Ha.
    apply N.eqb_neq in H1, H2, H3. now rewrite H1, H2, H3.
Qed.

(** The text of an element, as it is written: one text node of the bytes of
    the text. *)
Lemma reads_escapes (depth : nat) (env : list (list N)) (t c : list N) (b : bool) :
  forallb xml_char t = true ->
  forall node,
    node <= text_limit ->
    (node + bytes t <= text_limit -> reads depth env (node + bytes t) c b) ->
    reads depth env node (escape_text t ++ c) ((node + bytes t <=? text_limit) && b).
Proof.
  induction t as [|a t IH]; cbn [forallb]; intros H node Hnode Hc.
  - cbn [bytes fold_right escape_text flat_map app] in *. rewrite N.add_0_r in *.
    apply (reads_ext _ _ _ _ b); [|exact (Hc Hnode)].
    apply N.leb_le in Hnode. now rewrite Hnode.
  - apply andb_true_iff in H as [Ha Ht].
    unfold escape_text. cbn [flat_map]. fold (escape_text t). rewrite <- app_assoc.
    rewrite bytes_cons, N.add_assoc in Hc |- *. rewrite <- fits_more.
    apply reads_escape; [exact Ha|]. intros Hfit.
    apply IH; [exact Ht | exact Hfit | exact Hc].
Qed.

(** A child element in the content: it starts with [<] and a name, and ends
    the text node before it. *)
Lemma reads_child (depth : nat) (env : list (list N)) (node : N) (x : N)
    (w c : list N) (b1 b2 : bool) :
  (x =? 47) = false -> parses depth env (60 :: x :: w) b1 ->
  (b1 = true -> reads depth env 0 c b2) ->
  reads depth env node ((60 :: x :: w) ++ c) (b1 && b2).
Proof.
  intros Hx Hw Hc r [|fuel] Hfuel; [cbn [length] in Hfuel; lia|].
  rewrite length_app in Hfuel. cbn [length] in Hfuel.
  rewrite <- app_assoc.
  change (parse_content (S fuel) depth env node ((60 :: x :: w) ++ c ++ 60 :: 47 :: r))
    with (if 60 =? 60 then
            if x =? 47 then Read (w ++ c ++ 60 :: 47 :: r)
            else match parse_element fuel depth env
                         ((60 :: x :: w) ++ c ++ 60 :: 47 :: r) with
                 | Read s' => parse_content fuel depth env 0 s'
                 | Refused => Refused
                 | Unread => Unread
                 end
          else Unread).
  rewrite Hx. cbn [N.eqb Pos.eqb].
  rewrite Hw by (cbn [length]; lia).
  destruct b1; cbn [verdict andb]; [|reflexivity].
  apply (Hc eq_refl). lia.
Qed.

(** Induction on a tree, with the property known of every child. *)
Lemma xml_nested_ind (P : xml -> Prop) :
  (forall s tag attrib text children,
      Forall P children -> P (Element s tag attrib text children)) ->
  forall e, P e.
Proof.
  intros step. fix IH 1. intros [s tag attrib text children].
  apply step. induction children as [|c cs IHcs]; constructor; [apply IH | exact IHcs].
Qed.

Lemma write_attributes_length (l : list (qname * list N)) :
  (length l <= length (write_attributes l))%nat.
Proof.
  induction l as [|a l IH]; [reflexivity|].
  unfold write_attributes in *. cbn [flat_map]. rewrite length_app.
  unfold write_attribute at 1. cbn [length app]. lia.
Qed.

Lemma write_attributes_delimited (l : list (qname * list N)) (r : list N) :
  tag_end r -> delimited (write_attributes l ++ r).
Proof.
  destruct l as [|a l].
  - destruct r as [|c r]; [contradiction|]. cbn. intros [-> | ->]; split; reflexivity.
  - intros _. split; reflexivity.
Qed.

Lemma bound_prefixes_own (l : list (qname * list N)) (attrib : list (list N * list N)) :
  bound_prefixes (l ++ own_attributes attrib) = bound_prefixes l.
Proof.
  induction l as [|[[[p|] local] v] l IH]; cbn [app bound_prefixes].
  - induction attrib as [|a attrib IHa]; [reflexivity | exact IHa].
  - destruct (str_eqb p (py "xmlns")); [f_equal|]; exact IH.
  - exact IH.
Qed.

Lemma prefix_bound_attributes (env : list (list N)) (l : list (qname * list N)) :
  forallb (fun a => match fst (fst a) with
                    | Some p => str_eqb p (py "xmlns")
                    | None => true
                    end) l = true ->
  forallb (prefix_bound env) (map fst l) = true.
Proof.
  induction l as [|[[[p|] local] v] l IH]; cbn [forallb map fst]; [reflexivity| |].
  - intros H. apply andb_true_iff in H as [Hp Hl].
    unfold prefix_bound at 1. cbn [fst]. rewrite Hp, (IH Hl). reflexivity.
  - intros H. rewrite (IH H). reflexivity.
Qed.

Lemma qname_eqb_refl (q : qname) : qname_eqb q q = true.
Proof.
  destruct q as [[p|] local]; unfold qname_eqb; cbn [fst snd];
    rewrite ?str_eqb_refl; reflexivity.
Qed.

Section StartTag.

Variable env : list (list N).
Variable q : qname.
Variable A : list (qname * list N).
Hypothesis Hq : qname_ok q = true.
Hypothesis HA : attributes_ok A = true.
Hypothesis Hbound : prefix_bound (bound_prefixes A ++ env) q = true.

(** The start tag is read, and the checks on its names succeed. *)
Lemma parse_element_start (rest : list N) (fuel depth : nat) :
  tag_end rest -> (length A < fuel)%nat ->
  parse_element (S fuel) (S depth) env (60 :: write_qname q ++ write_attributes A ++ rest)
  = match rest with
    | 47 :: s4 =>
        match expect 62 s4 with
        | Some r => Read r
        | None => Unread
        end
    | 62 :: s4 =>
        match parse_content fuel depth (bound_prefixes A ++ env) 0 s4 with
        | Read s5 =>
            match parse_qname s5 with
            | None => Unread
            | Some (q', s6) =>
                if qname_eqb q q'
                then match expect 62 (snd (span is_space s6)) with
                     | Some r => Read r
                     | None => Unread
                     end
                else Unread
            end
        | Refused => Refused
        | Unread => Unread
        end
    | _ => Unread
    end.
Proof.
  intros Hrest Hfuel.
  unfold attributes_ok in HA. apply andb_true_iff in HA as [HA' Hx].
  apply andb_true_iff in HA' as [Hok Hdistinct].
  cbn [parse_element expect]. replace (60 =? 60) with true by reflexivity.
  rewrite (parse_qname_app q _ Hq (write_attributes_delimited A rest Hrest)).
  rewrite (parse_attributes_app A rest Hok Hrest fuel Hfuel).
  rewrite Hdistinct. cbn [forallb]. rewrite Hbound, (prefix_bound_attributes _ A Hx).
  reflexivity.
Qed.

Lemma parses_empty_element (depth : nat) :
  parses (S depth) env ([60] ++ write_qname q ++ write_attributes A ++ [47; 62]) true.
Proof.
  intros r [|fuel] Hfuel; [cbn [length app] in Hfuel; lia|].
  rewrite <- !app_assoc. cbn [app].
  rewrite !length_app in Hfuel. cbn [length] in Hfuel.
  pose proof (write_attributes_length A).
  rewrite parse_element_start; [| right; reflexivity | lia].
  reflexivity.
Qed.

Lemma parses_element_with_content (depth : nat) (c : list N) (b : bool) :
  reads depth (bound_prefixes A ++ env) 0 c b ->
  parses (S depth) env ([60] ++ write_qname q ++ write_attributes A ++ [62] ++ c
                        ++ [60; 47] ++ write_qname q ++ [62]) b.
Proof.
  intros Hc r [|fuel] Hfuel; [cbn [length app] in Hfuel; lia|].
  rewrite <- !app_assoc. cbn [app].
  rewrite !length_app in Hfuel. cbn [length] in Hfuel.
  pose proof (write_attributes_length A).
  rewrite parse_element_start; [| left; reflexivity | lia].
  rewrite Hc by lia.
  destruct b; cbn [verdict]; [|reflexivity].
  rewrite (parse_qname_app q (62 :: r) Hq) by (split; reflexivity).
  rewrite qname_eqb_refl. reflexivity.
Qed.

End StartTag.

Lemma indentation_data (level : nat) : forallb data_char (indentation level) = true.
Proof.
  unfold indentation. induction (2 * level)%nat as [|n IH]; [reflexivity|].
  cbn [repeat forallb]. rewrite IH. reflexivity.
Qed.

Lemma indentation_bytes (level : nat) : bytes (indentation level) = N.of_nat (2 * level).
Proof.
  unfold indentation. rewrite bytes_repeat.
  replace (utf8_length 32) with 1 by reflexivity. lia.
Qed.

Lemma prefix_of_head (s : ns) :
  exists x p, prefix_of s = x :: p /\ (x =? 47) = false.
Proof.
  destruct s;
    [exists 114, [115; 109] | exists 114, [97; 109]
     | exists 117, [100; 116] | exists 113, [100; 116]];
    split; vm_compute; reflexivity.
Qed.

Lemma prefix_of_ok (s : ns) : name_ok (prefix_of s) = true.
Proof. destruct s; vm_compute; reflexivity. Qed.

Lemma write_element_head (decls : list (qname * list N)) (level : nat) (e : xml) :
  exists x w, write_element decls level e = 60 :: x :: w /\ (x =? 47) = false.
Proof.
  destruct e as [s tag attrib text children].
  destruct (prefix_of_head s) as (x & p & Hp & Hx).
  cbn [write_element write_qname]. rewrite Hp.
  destruct text as [t|]; [|destruct children as [|c cs]];
    cbn [app]; eexists _, _; (split; [reflexivity | exact Hx]).
Qed.

(** The children of an element without text, each on a line of its own:
    between them are text nodes of a newline and an indentation. *)
Lemma reads_children (depth : nat) (env : list (list N)) (level : nat)
    (children : list xml) (tail : list N) (b : bool) :
  1 + N.of_nat (2 * level) <= text_limit ->
  Forall (fun c => parses depth env (write_element [] level c) (texts_fit c)) children ->
  reads depth env 1 tail b ->
  reads depth env 1
        (flat_map (fun c => indentation level ++ write_element [] level c ++ [10])
                  children ++ tail)
        (forallb texts_fit children && b).
Proof.
  intros Hlevel Hall Htail. induction Hall as [|c cs Hc _ IH]; [exact Htail|].
  cbn [flat_map forallb]. rewrite <- !app_assoc.
  assert ((1 + bytes (indentation level) <=? text_limit) = true) as Hfit
    by (apply N.leb_le; rewrite indentation_bytes; exact Hlevel).
  apply (reads_ext _ _ _ _
           ((1 + bytes (indentation level) <=? text_limit)
            && (texts_fit c && ((0 + utf8_length 10 <=? text_limit)
                               && (forallb texts_fit cs && b))))).
  { rewrite Hfit. replace (0 + utf8_length 10 <=? text_limit) with true by reflexivity.
    cbn [andb]. now rewrite andb_assoc. }
  apply reads_datas; [apply indentation_data | unfold text_limit; lia |].
  intros _.
  destruct (write_element_head [] level c) as (x & w & Ew & Hx).
  rewrite Ew in *. apply reads_child; [exact Hx | exact Hc |].
  intros _. cbn [app]. apply reads_data; [reflexivity|].
  intros _. exact IH.
Qed.

Lemma tree_ok_children (s : ns) (tag : list N) (attrib : list (list N * list N))
    (text : option (list N)) (children : list xml) :
  tree_ok (Element s tag attrib text children) = true ->
  name_ok tag = true /\ attributes_ok (own_attributes attrib) = true
  /\ match text with
     | Some t => forallb xml_char t = true /\ children = []
     | None => True
     end
  /\ Forall (fun c => tree_ok c = true) children.
Proof.
  cbn [tree_ok]. intros H.
  apply andb_true_iff in H as [H Hc]. apply andb_true_iff in H as [H Ht].
  apply andb_true_iff in H as [Hn Ha].
  repeat split; auto.
  - destruct text as [t|]; [|exact I]. apply andb_true_iff in Ht as [Ht He].
    split; [exact Ht|]. destruct children; [reflexivity | discriminate].
  - apply Forall_forall. rewrite forallb_forall in Hc. exact Hc.
Qed.

Lemma height_child (s : ns) (tag : list N) (attrib : list (list N * list N))
    (text : option (list N)) (children : list xml) (c : xml) :
  In c children -> (height c < height (Element s tag attrib text children))%nat.
Proof.
  intros Hin. cbn [height].
  assert (height c <= list_max (map height children))%nat; [|lia].
  pose proof (proj1 (list_max_le (map height children) (list_max (map height children)))
                    (Nat.le_refl _)) as Hall.
  rewrite Forall_forall in Hall. apply Hall. now apply in_map.
Qed.

(** What is written for a tree is read back as one element, unless one of
    its texts is above the limit, on which the parser gives up. *)
Lemma write_element_parses (e : xml) :
  forall decls level env depth,
    tree_ok e = true ->
    attributes_ok (decls ++ own_attributes (xml_attrib e)) = true ->
    env_ok (bound_prefixes decls ++ env) ->
    (height e <= depth)%nat ->
    1 + N.of_nat (2 * (level + height e)) <= text_limit ->
    parses depth env (write_element decls level e) (texts_fit e).
Proof.
  induction e as [s tag attrib text children IH] using xml_nested_ind.
  intros decls level env depth Hok Hattrs Henv Hdepth Hlevel.
  cbn [xml_attrib] in Hattrs.
  pose proof (height_child s tag attrib text children) as Hheight.
  apply tree_ok_children in Hok as (Htag & _ & Htext & Hchildren).
  assert (qname_ok (Some (prefix_of s), tag) = true) as Hq
    by (unfold qname_ok; cbn [fst snd]; rewrite prefix_of_ok, Htag; reflexivity).
  assert (prefix_bound (bound_prefixes (decls ++ own_attributes attrib) ++ env)
                       (Some (prefix_of s), tag) = true) as Hbound
    by (unfold prefix_bound; cbn [fst]; rewrite bound_prefixes_own, (Henv s);
        apply orb_true_r).
  destruct depth as [|depth];
    [cbn [height] in Hdepth; lia|].
  assert (Forall (fun c => parses depth
                             (bound_prefixes (decls ++ own_attributes attrib) ++ env)
                             (write_element [] (S level) c) (texts_fit c)) children)
    as Hparses.
  { rewrite bound_prefixes_own. rewrite Forall_forall in *. intros c Hin.
    specialize (Hchildren c Hin). specialize (Hheight c Hin).
    apply (IH c Hin); [exact Hchildren | | exact Henv | lia | lia].
    destruct c as [s' tag' attrib' text' children'].
    apply tree_ok_children in Hchildren as (_ & Ha & _). exact Ha. }
  cbn [write_element texts_fit].
  replace (py "/>") with [47; 62] by (vm_compute; reflexivity).
  replace (py "</") with [60; 47] by (vm_compute; reflexivity).
  destruct text as [t|]; [|destruct children as [|c cs]].
  - destruct Htext as [Ht ->]. cbn [flat_map get_default forallb]. rewrite <- !app_assoc.
    apply (parses_element_with_content env _ _ Hq Hattrs Hbound depth (escape_text t)).
    rewrite <- (app_nil_r (escape_text t)).
    apply (reads_ext _ _ _ _ ((0 + bytes t <=? text_limit) && true));
      [now rewrite N.add_0_l|].
    apply reads_escapes; [exact Ht | unfold text_limit; lia |].
    intros _. apply reads_nil.
  - rewrite <- !app_assoc.
    apply (parses_ext _ _ _ true); [reflexivity|].
    apply (parses_empty_element env _ _ Hq Hattrs Hbound depth).
  - rewrite <- !app_assoc.
    change ([62; 10] ++ ?x) with ([62] ++ [10] ++ x).
    match goal with
    | |- parses _ _ (_ ++ _ ++ _ ++ _ ++ _ ++ ?f ++ ?i ++ ?rest) _ =>
        replace (f ++ i ++ rest) with ((f ++ i) ++ rest) by (rewrite <- app_assoc; reflexivity)
    end.
    rewrite (app_assoc [10]).
    apply (parses_element_with_content env _ _ Hq Hattrs Hbound depth).
    cbn [app get_default bytes fold_right].
    assert (height (Element s tag attrib None (c :: cs)) >= 2)%nat as Htwo.
    { specialize (Hheight c (or_introl eq_refl)). destruct c. cbn [height] in *. lia. }
    apply (reads_ext _ _ _ _
             ((0 + utf8_length 10 <=? text_limit)
              && (forallb texts_fit (c :: cs)
                  && ((1 + bytes (indentation level) <=? text_limit) && true)))).
    { replace (0 + utf8_length 10 <=? text_limit) with true by reflexivity.
      replace (1 + bytes (indentation level) <=? text_limit) with true.
      - cbn [andb]. now rewrite andb_true_r.
      - symmetry. apply N.leb_le. rewrite indentation_bytes. lia. }
    apply reads_data; [reflexivity|]. intros _.
    change (0 + utf8_length 10) with 1.
    apply reads_children; [lia | exact Hparses |].
    match goal with
    | |- reads ?d ?e ?n (indentation level) ?b =>
        assert (reads d e n (indentation level ++ []) b) as K;
          [|rewrite app_nil_r in K; exact K]
    end.
    apply reads_datas; [apply indentation_data | unfold text_limit; lia |].
    intros _. apply reads_nil.
Qed.

(* ------------------------------------------------------------------ *)
(** ** The trees of the builder can be read back *)

Lemma as_text_chars (s t : list N) : as_text s = Ok t -> forallb xml_char t = true.
Proof.
  unfold as_text. destruct (forallb xml_char s) eqn:E; [|discriminate].
  intros [= <-]. exact E.
Qed.

Lemma leaf_tree_ok (s : ns) (tag : list N) (attrib : list (list N * list N))
    (t : list N) :
  name_ok tag = true -> attributes_ok (own_attributes attrib) = true ->
  forallb xml_char t = true ->
  tree_ok (Element s tag attrib (Some t) []) = true.
Proof. intros Hn Ha Ht. cbn [tree_ok forallb is_empty]. now rewrite Hn, Ha, Ht. Qed.

Lemma node_tree_ok (s : ns) (tag : list N) (children : list xml) :
  name_ok tag = true -> Forall (fun c => tree_ok c = true) children ->
  tree_ok (Element s tag [] None children) = true.
Proof.
  intros Hn Hc. cbn [tree_ok]. rewrite Hn.
  replace (forallb tree_ok children) with true; [reflexivity|].
  symmetry. apply forallb_forall. rewrite Forall_forall in Hc. exact Hc.
Qed.

Lemma ram_leaf_tree_ok (tag s : list N) (x : xml) :
  name_ok tag = true -> ram_leaf tag s = Ok x -> tree_ok x = true.
Proof.
  intros Hn H. unfold ram_leaf in H. apply bind_ok in H as [t [Ht H]].
  injection H as <-. apply leaf_tree_ok; [exact Hn | reflexivity |].
  exact (as_text_chars _ _ Ht).
Qed.

(** Inversion of a successful run of the builder, keeping of each element
    built on the way that it can be read back. *)
Ltac built H :=
  repeat first
    [ match type of H with
      | bind (ram_leaf _ _) _ = Ok _ =>
          let x := fresh "x" in let Hx := fresh "Hx" in
          apply bind_ok in H as [x [Hx H]];
          apply ram_leaf_tree_ok in Hx; [|vm_compute; reflexivity]
      | bind (as_text _) _ = Ok _ =>
          let x := fresh "t" in let Hx := fresh "Ht" in
          apply bind_ok in H as [x [Hx H]]; apply as_text_chars in Hx
      | bind _ _ = Ok _ =>
          let x := fresh "r" in let Hx := fresh "Hr" in
          apply bind_ok in H as [x [Hx H]]
      end ].

Ltac readable :=
  repeat first
    [ assumption
    | apply Forall_nil
    | apply Forall_cons
    | apply Forall_app; split
    | apply node_tree_ok; [vm_compute; reflexivity|]
    | apply leaf_tree_ok; [vm_compute; reflexivity | vm_compute; reflexivity |] ].

Lemma line_item_tree_ok (idx : nat) (it : item) (x : xml) :
  line_item idx it = Ok x -> tree_ok x = true.
Proof. unfold line_item. intros H. built H. injection H as <-. readable. Qed.

Lemma line_items_tree_ok (l : list item) :
  forall idx lines,
    line_items idx l = Ok lines -> Forall (fun c => tree_ok c = true) lines.
Proof.
  induction l as [|it l IH]; intros idx lines H; cbn [line_items] in H.
  - injection H as <-. constructor.
  - apply bind_ok in H as [x [Hx H]]. apply bind_ok in H as [xs [Hxs H]].
    injection H as <-. constructor; [exact (line_item_tree_ok _ _ _ Hx) | eauto].
Qed.

Lemma postal_address_tree_ok (p : party) (x : xml) :
  postal_address p = Ok x -> tree_ok x = true.
Proof. unfold postal_address. intros H. built H. injection H as <-. readable. Qed.

Lemma seller_party_tree_ok (p : party) (x : xml) :
  seller_party p = Ok x -> tree_ok x = true.
Proof.
  unfold seller_party. intros H. built H. injection H as <-.
  match goal with K : postal_address _ = Ok _ |- _ => apply postal_address_tree_ok in K end.
  readable.
Qed.

Lemma buyer_party_tree_ok (p : party) (x : xml) :
  buyer_party p = Ok x -> tree_ok x = true.
Proof.
  unfold buyer_party. intros H. built H. injection H as <-.
  match goal with K : postal_address _ = Ok _ |- _ => apply postal_address_tree_ok in K end.
  readable.
Qed.

Lemma tax_block_tree_ok (entry : rate_key * (spec_float * spec_float)) (x : xml) :
  tax_block entry = Ok x -> tree_ok x = true.
Proof.
  destruct entry as [[o rate] [base tax]]. unfold tax_block. intros H. built H.
  injection H as <-. readable.
Qed.

Lemma tax_blocks_tree_ok (rates : rate_table) :
  forall taxes, mapM tax_block rates = Ok taxes ->
                Forall (fun c => tree_ok c = true) taxes.
Proof.
  induction rates as [|entry rates IH]; intros taxes H; cbn [mapM] in H.
  - injection H as <-. constructor.
  - apply bind_ok in H as [x [Hx H]]. apply bind_ok in H as [xs [Hxs H]].
    injection H as <-. constructor; [exact (tax_block_tree_ok _ _ Hx) | eauto].
Qed.

Lemma monetary_summation_tree_ok (data : invoice) (x : xml) :
  monetary_summation data = Ok x -> tree_ok x = true.
Proof. unfold monetary_summation. intros H. built H. injection H as <-. readable. Qed.

Lemma build_tree_ok (data : invoice) (root : xml) :
  build_tree data = Ok root -> tree_ok root = true /\ xml_attrib root = [].
Proof.
  unfold build_tree. intros H. built H. injection H as <-.
  split; [|reflexivity].
  repeat match goal with
         | K : line_items _ _ = Ok _ |- _ => apply line_items_tree_ok in K
         | K : seller_party _ = Ok _ |- _ => apply seller_party_tree_ok in K
         | K : buyer_party _ = Ok _ |- _ => apply buyer_party_tree_ok in K
         | K : mapM tax_block _ = Ok _ |- _ => apply tax_blocks_tree_ok in K
         | K : monetary_summation _ = Ok _ |- _ => apply monetary_summation_tree_ok in K
         end.
  readable.
Qed.

(* ------------------------------------------------------------------ *)
(** ** The nesting of the trees of the builder *)

Lemma height_node (s : ns) (tag : list N) (attrib : list (list N * list N))
    (text : option (list N)) (children : list xml) (n : nat) :
  Forall (fun c => (height c <= n)%nat) children ->
  (height (Element s tag attrib text children) <= S n)%nat.
Proof.
  intros H. cbn [height]. apply le_n_S. apply list_max_le.
  apply Forall_map. exact H.
Qed.

Ltac shallow :=
  repeat first
    [ apply Forall_nil
    | apply Forall_cons
    | apply Forall_app; split
    | apply height_node
    | match goal with
      | K : Forall _ ?l |- Forall _ ?l =>
          refine (Forall_impl _ _ K); cbv beta; intros; lia
      end
    | lia ].

Lemma line_item_height (idx : nat) (it : item) (x : xml) :
  line_item idx it = Ok x -> (height x <= 4)%nat.
Proof. unfold line_item. intros H. run H. injection H as <-. unfold ram_node. shallow. Qed.

Lemma line_items_height (l : list item) :
  forall idx lines,
    line_items idx l = Ok lines -> Forall (fun c => (height c <= 4)%nat) lines.
Proof.
  induction l as [|it l IH]; intros idx lines H; cbn [line_items] in H.
  - injection H as <-. constructor.
  - apply bind_ok in H as [x [Hx H]]. apply bind_ok in H as [xs [Hxs H]].
    injection H as <-. constructor; [exact (line_item_height _ _ _ Hx) | eauto].
Qed.

Lemma postal_address_height (p : party) (x : xml) :
  postal_address p = Ok x -> (height x <= 2)%nat.
Proof.
  unfold postal_address. intros H. run H. injection H as <-. unfold ram_node. shallow.
Qed.

Lemma seller_party_height (p : party) (x : xml) :
  seller_party p = Ok x -> (height x <= 3)%nat.
Proof.
  unfold seller_party. intros H. run H. injection H as <-.
  repeat match goal with
         | K : postal_address _ = Ok _ |- _ => apply postal_address_height in K
         end.
  unfold ram_node. shallow.
Qed.

Lemma buyer_party_height (p : party) (x : xml) :
  buyer_party p = Ok x -> (height x <= 3)%nat.
Proof.
  unfold buyer_party. intros H. run H. injection H as <-.
  repeat match goal with
         | K : postal_address _ = Ok _ |- _ => apply postal_address_height in K
         end.
  unfold ram_node. shallow.
Qed.

Lemma tax_blocks_height (rates : rate_table) :
  forall taxes, mapM tax_block rates = Ok taxes ->
                Forall (fun c => (height c <= 2)%nat) taxes.
Proof.
  induction rates as [|[[o rate] [base tax]] rates IH]; intros taxes H; cbn [mapM] in H.
  - injection H as <-. constructor.
  - apply bind_ok in H as [x [Hx H]]. apply bind_ok in H as [xs [Hxs H]].
    injection H as <-. constructor; [|eauto].
    unfold tax_block in Hx. run Hx. injection Hx as <-. unfold ram_node. shallow.
Qed.

Lemma monetary_summation_height (data : invoice) (x : xml) :
  monetary_summation data = Ok x -> (height x <= 2)%nat.
Proof.
  unfold monetary_summation. intros H. run H. injection H as <-. unfold ram_node. shallow.
Qed.

Lemma build_tree_height (data : invoice) (root : xml) :
  build_tree data = Ok root -> (height root <= 8)%nat.
Proof.
  unfold build_tree. intros H. run H. injection H as <-.
  repeat match goal with
         | K : line_items _ _ = Ok _ |- _ => apply line_items_height in K
         | K : seller_party _ = Ok _ |- _ => apply seller_party_height in K
         | K : buyer_party _ = Ok _ |- _ => apply buyer_party_height in K
         | K : mapM tax_block _ = Ok _ |- _ => apply tax_blocks_height in K
         | K : monetary_summation _ = Ok _ |- _ => apply monetary_summation_height in K
         end.
  unfold ram_node. shallow.
Qed.

(* ------------------------------------------------------------------ *)
(** ** The document and the structural check *)

Lemma strip_prefix_app (p s : list N) : strip_prefix p (p ++ s) = Some s.
Proof.
  induction p as [|a p IH]; cbn [app strip_prefix]; [reflexivity|].
  now rewrite N.eqb_refl.
Qed.

Lemma strip_prefix_more (p a x t : list N) :
  strip_prefix p a = Some x -> strip_prefix p (a ++ t) = Some (x ++ t).
Proof.
  revert a. induction p as [|c p IH]; intros a; cbn [strip_prefix].
  - intros [= <-]. reflexivity.
  - destruct a as [|b a]; [discriminate|]. cbn [app].
    destruct (c =? b); [apply IH | discriminate].
Qed.

Lemma declared_env_ok : env_ok (bound_prefixes (declarations nsmap) ++ []).
Proof. intros s. destruct s; vm_compute; reflexivity. Qed.

(** A tree without attributes on its root is written as a document on
    which the parser succeeds, unless a text of the tree is above the limit
    of a text node: then it gives up. *)
Lemma written_document_parses (root : xml) :
  tree_ok root = true -> xml_attrib root = [] -> (height root <= depth_limit)%nat ->
  xml_parses (xml_declaration ++ tostring root) = Some (texts_fit root).
Proof.
  intros Hok Hattrib Hheight. unfold xml_parses.
  destruct (strip_prefix (py "<?xml") xml_declaration) as [d|] eqn:Ed;
    [|vm_compute in Ed; discriminate].
  rewrite (strip_prefix_more _ _ _ (tostring root) Ed), strip_prefix_app.
  unfold tostring.
  destruct (write_element_head (declarations nsmap) 0 root) as (x & w & Ew & _).
  assert (parses depth_limit [] (write_element (declarations nsmap) 0 root)
                 (texts_fit root)) as Hparses.
  { apply write_element_parses; [exact Hok | | exact declared_env_ok | exact Hheight |].
    - rewrite Hattrib. vm_compute. reflexivity.
    - unfold depth_limit in Hheight. unfold text_limit. lia. }
  rewrite Ew in *. cbn [app span]. replace (is_space 60) with false by reflexivity.
  cbn [snd]. change (60 :: x :: w ++ [10]) with ((60 :: x :: w) ++ [10]).
  rewrite Hparses by (rewrite !length_app; lia).
  destruct (texts_fit root); reflexivity.
Qed.

Lemma starts_with_app (p s : list N) : starts_with p (p ++ s) = true.
Proof.
  induction p as [|a p IH]; cbn [app starts_with]; [reflexivity|].
  now rewrite N.eqb_refl.
Qed.

Lemma starts_with_more (p a b : list N) :
  starts_with p a = true -> starts_with p (a ++ b) = true.
Proof.
  revert a. induction p as [|c p IH]; intros a; cbn [starts_with]; [reflexivity|].
  destruct a as [|x a]; [discriminate|]. cbn [app]. intros H.
  apply andb_true_iff in H as [-> H]. exact (IH a H).
Qed.

Lemma contains_eq (needle hay : list N) :
  contains needle hay
  = starts_with needle hay
    || match hay with
       | [] => false
       | _ :: hay' => contains needle hay'
       end.
Proof. destruct hay; reflexivity. Qed.

Lemma contains_here (p s : list N) : contains p (p ++ s) = true.
Proof. rewrite contains_eq, starts_with_app. reflexivity. Qed.

Lemma contains_app_r (p a b : list N) :
  contains p b = true -> contains p (a ++ b) = true.
Proof.
  intros H. induction a as [|x a IH]; [exact H|].
  cbn [app]. rewrite contains_eq, IH. apply orb_true_r.
Qed.

Lemma contains_app_l (p a b : list N) :
  contains p a = true -> contains p (a ++ b) = true.
Proof.
  induction a as [|x a IH]; rewrite contains_eq; intros H.
  - rewrite orb_false_r in H. destruct p; [|discriminate]. now destruct b.
  - rewrite contains_eq. apply orb_true_iff in H as [H|H].
    + now rewrite (starts_with_more p (x :: a) b H).
    + cbn [app]. rewrite (IH H). apply orb_true_r.
Qed.

Lemma contains_flat_map (p : list N) (f : xml -> list N) (c : xml) (l : list xml) :
  In c l -> contains p (f c) = true -> contains p (flat_map f l) = true.
Proof.
  intros Hin Hc. induction l as [|a l IH]; [contradiction|].
  cbn [flat_map]. destruct Hin as [-> | Hin].
  - now apply contains_app_l.
  - apply contains_app_r. exact (IH Hin).
Qed.

(** The text written for an element holds its name. *)
Lemma write_element_names (decls : list (qname * list N)) (level : nat) (e : xml) :
  contains (xml_tag e) (write_element decls level e) = true.
Proof.
  destruct e as [s tag attrib text children]. cbn [xml_tag write_element write_qname].
  destruct text as [t|]; [|destruct children as [|c cs]];
    rewrite <- !app_assoc; do 3 apply contains_app_r; apply contains_here.
Qed.

(** So does the text written for its parent. *)
Lemma write_element_names_child (decls : list (qname * list N)) (level : nat)
    (s : ns) (tag : list N) (attrib : list (list N * list N)) (children : list xml)
    (c : xml) :
  In c children ->
  contains (xml_tag c) (write_element decls level (Element s tag attrib None children))
  = true.
Proof.
  intros Hin. cbn [write_element].
  destruct children as [|c0 cs]; [contradiction|].
  apply contains_app_r, contains_app_r, contains_app_l.
  apply (contains_flat_map _ _ c); [exact Hin|].
  apply contains_app_r, contains_app_l, write_element_names.
Qed.

(** The names of a root and of its three children are in the document. *)
Lemma document_names (s s1 s2 s3 : ns) (n n1 n2 n3 : list N)
    (a : list (list N * list N)) (c1 c2 c3 : list xml) :
  forallb (fun element =>
             contains element
               (xml_declaration
                ++ tostring (Element s n a None
                               [ Element s1 n1 [] None c1; Element s2 n2 [] None c2;
                                 Element s3 n3 [] None c3 ])))
          [n; n1; n2; n3] = true.
Proof.
  cbn [forallb]. unfold tostring.
  rewrite !andb_true_iff. repeat split; apply contains_app_r, contains_app_l.
  - apply (write_element_names _ _ (Element s n a None _)).
  - apply (write_element_names_child _ _ _ _ _ _ (Element s1 n1 [] None c1)).
    left. reflexivity.
  - apply (write_element_names_child _ _ _ _ _ _ (Element s2 n2 [] None c2)).
    right. left. reflexivity.
  - apply (write_element_names_child _ _ _ _ _ _ (Element s3 n3 [] None c3)).
    right. right. left. reflexivity.
Qed.

Lemma build_tree_names (data : invoice) (root : xml) :
  build_tree data = Ok root ->
  forallb (fun element => contains element (xml_declaration ++ tostring root))
          required_elements = true.
Proof.
  intros H. apply build_tree_inv in H.
  destruct H as (context & document & l & lines & p & seller & q & buyer & rates & taxes
                 & currency & payment & monetary & H).
  do 11 (destruct H as [_ H]). subst root. apply document_names.
Qed.

(** What the structural check makes of a built document: the four names
    are there, so that the check returns what the parser does, true unless
    a text of the tree is above the limit of a text node. *)
Lemma built_document_checked (data : invoice) (root : xml) :
  build_tree data = Ok root ->
  forallb (fun element => contains element (xml_declaration ++ tostring root))
          required_elements = true
  /\ xml_parses (xml_declaration ++ tostring root) = Some (texts_fit root)
  /\ _validate_xml (xml_declaration ++ tostring root) = Some (texts_fit root).
Proof.
  intros Hroot.
  destruct (build_tree_ok data root Hroot) as [Hok Hattrib].
  pose proof (build_tree_height data root Hroot) as Hheight.
  assert (height root <= depth_limit)%nat as Hdepth by (unfold depth_limit; lia).
  pose proof (written_document_parses root Hok Hattrib Hdepth) as Hparses.
  pose proof (build_tree_names data root Hroot) as Hnames.
  split; [exact Hnames|]. split; [exact Hparses|].
  unfold _validate_xml. rewrite Hparses, Hnames. destruct (texts_fit root); reflexivity.
Qed.

(** C8 (as the code has it).  Whenever the validator accepts a record and
    the builder returns a text for it, that text is the document written
    for the tree built; it holds the four names [CrossIndustryInvoice],
    [ExchangedDocumentContext], [ExchangedDocument] and
    [SupplyChainTradeTransaction]; and the parser reads it, so that the
    structural check [_validate_xml] returns true, exactly when no text of
    the tree is above 10,000,000 bytes, the limit of the parser on a text
    node.  Above the limit the check returns false. *)
Theorem generated_xml_passes_structural_check (data : invoice) (text : list N) :
  validate_invoice_data data = Ok true ->
  _generate_facturx_xml data = Ok text ->
  exists root,
    build_tree data = Ok root
    /\ text = xml_declaration ++ tostring root
    /\ forallb (fun element => contains element text) required_elements = true
    /\ xml_parses text = Some (texts_fit root)
    /\ _validate_xml text = Some (texts_fit root).
Proof.
  intros _ H. unfold _generate_facturx_xml in H.
  apply bind_ok in H as [root [Hroot H]].
  assert (xml_declaration ++ tostring root = text) as Htext by congruence.
  clear H. subst text.
  destruct (built_document_checked data root Hroot) as (Hnames & Hparses & Hvalid).
  exists root. auto.
Qed.

Lemma generated_xml_passes_structural_check_witness :
  validate_invoice_data sample_invoice = Ok true
  /\ _generate_facturx_xml sample_invoice = Ok sample_text
  /\ _validate_xml sample_text = Some true
  /\ exists root,
       build_tree sample_invoice = Ok root
       /\ sample_text = xml_declaration ++ tostring root
       /\ forallb (fun element => contains element sample_text) required_elements = true
       /\ xml_parses sample_text = Some (texts_fit root)
       /\ _validate_xml sample_text = Some (texts_fit root).
Proof.
  assert (validate_invoice_data sample_invoice = Ok true) as Hv
    by (vm_compute; reflexivity).
  assert (_generate_facturx_xml sample_invoice = Ok sample_text) as Hg
    by (vm_compute; reflexivity).
  split; [exact Hv|]. split; [exact Hg|]. split; [vm_compute; reflexivity|].
  exact (generated_xml_passes_structural_check sample_invoice sample_text Hv Hg).
Defined.

(* ------------------------------------------------------------------ *)
(** ** The checksum detects a wrong digit *)

Lemma spec_luhn_sum_app (x y : list Z) :
  forall i,
    spec_luhn_sum i (x ++ y)
    = (spec_luhn_sum i x + spec_luhn_sum (i + length x) y)%Z.
Proof.
  induction x as [|d x IH]; intros i; cbn [app spec_luhn_sum length].
  - rewrite Nat.add_0_r. lia.
  - rewrite IH. replace (S i + length x)%nat with (i + S (length x))%nat by lia. lia.
Qed.

(** At a position, two different digits weigh differently modulo ten. *)
Lemma spec_luhn_term_injective (i : nat) (d d' : Z) :
  (0 <= d < 10)%Z -> (0 <= d' < 10)%Z -> d <> d' ->
  ((spec_luhn_term i d - spec_luhn_term i d') mod 10 <> 0)%Z.
Proof.
  intros Hd Hd' Hne. unfold spec_luhn_term.
  destruct (Nat.odd i).
  - destruct (2 * d >? 9)%Z eqn:E; destruct (2 * d' >? 9)%Z eqn:E';
      intros H; apply Z.mod_divide in H; try lia; destruct H as [k Hk]; lia.
  - intros H. apply Z.mod_divide in H; [|lia]. destruct H as [k Hk]. lia.
Qed.

Lemma sub_space_hyphen_digits (s : list N) :
  forallb py_isdecimal s = true -> sub_space_hyphen s = s.
Proof.
  intros H. unfold sub_space_hyphen. induction s as [|c s IH]; [reflexivity|].
  cbn [forallb] in H. apply andb_true_iff in H as [Hc Hs].
  cbn [filter]. unfold py_isdecimal in Hc.
  destruct (py_decimal c) as [v|] eqn:E; [|discriminate].
  destruct (decimal_plain _ _ E) as (-> & _ & _ & -> & _).
  cbn [orb negb]. now rewrite (IH Hs).
Qed.

(** One wrong digit.  When a text of decimal digits passes the check, the
    text that differs from it by the value of one digit does not. *)
Theorem siret_detects_one_wrong_digit (a b : list N) (c c' : N) :
  forallb py_isdecimal (a ++ c :: b) = true ->
  py_isdecimal c' = true ->
  digit_value c <> digit_value c' ->
  _validate_siret (a ++ c :: b) = Ok true ->
  _validate_siret (a ++ c' :: b) = Ok false.
Proof.
  intros Hall Hc' Hne Hvalid.
  assert (forallb py_isdecimal (a ++ c' :: b) = true) as Hall'.
  { rewrite forallb_app in *. cbn [forallb] in *.
    apply andb_true_iff in Hall as [-> Hcb]. apply andb_true_iff in Hcb as [_ ->].
    now rewrite Hc'. }
  rewrite validate_siret_total in *. f_equal. injection Hvalid as Hvalid.
  unfold spec_siret_valid in *.
  rewrite (sub_space_hyphen_digits _ Hall) in Hvalid.
  rewrite (sub_space_hyphen_digits _ Hall'), Hall'.
  rewrite Hall in Hvalid.
  assert (length (a ++ c' :: b) = length (a ++ c :: b)) as ->
    by (rewrite !length_app; reflexivity).
  destruct (Nat.eqb (length (a ++ c :: b)) 14); [|discriminate].
  cbn [andb] in *. apply Z.eqb_eq in Hvalid. apply Z.eqb_neq.
  rewrite map_app, spec_luhn_sum_app in *. cbn [map spec_luhn_sum] in *.
  intros H.
  apply (spec_luhn_term_injective (0 + length (map digit_value a))
           (digit_value c) (digit_value c')
           (digit_value_range c) (digit_value_range c') Hne).
  apply Z.mod_divide in Hvalid, H; try lia. apply Z.mod_divide; [lia|].
  destruct Hvalid as [k Hk]. destruct H as [k' Hk'].
  exists (k - k')%Z. lia.
Qed.

Lemma siret_detects_one_wrong_digit_witness :
  forallb py_isdecimal (py "3911235" ++ 54 :: py "500002") = true
  /\ py_isdecimal 55 = true
  /\ digit_value 54 <> digit_value 55
  /\ _validate_siret (py "3911235" ++ 54 :: py "500002") = Ok true
  /\ _validate_siret (py "3911235" ++ 55 :: py "500002") = Ok false.
Proof.
  assert (forallb py_isdecimal (py "3911235" ++ 54 :: py "500002") = true) as H1
    by (vm_compute; reflexivity).
  assert (py_isdecimal 55 = true) as H2 by (vm_compute; reflexivity).
  assert (digit_value 54 <> digit_value 55) as H3 by (vm_compute; discriminate).
  assert (_validate_siret (py "3911235" ++ 54 :: py "500002") = Ok true) as H4
    by (vm_compute; reflexivity).
  repeat (split; [assumption|]).
  exact (siret_detects_one_wrong_digit _ _ _ _ H1 H2 H3 H4).
Defined.

(* ------------------------------------------------------------------ *)
(** ** Accepted records *)

Lemma filter_nil_all {A : Type} (f : A -> bool) (l : list A) :
  filter f l = [] -> forall a, In a l -> f a = false.
Proof.
  induction l as [|x l IH]; cbn [filter]; [contradiction|].
  destruct (f x) eqn:E; [discriminate|].
  intros H a [<- | Hin]; [exact E | exact (IH H a Hin)].
Qed.

(** Acceptance: no integer overflows and no rule is broken. *)
Lemma accepted_no_violation (data : invoice) :
  validate_invoice_data data = Ok true ->
  no_overflow data = true
  /\ forall v, In v (all_rules data) -> violated data v = false.
Proof.
  intros H. rewrite validate_invoice_data_spec in H.
  destruct (no_overflow data); [|discriminate]. split; [reflexivity|].
  unfold spec_validate in H.
  destruct (spec_violations data) as [|v vs] eqn:E; [|discriminate].
  exact (filter_nil_all _ _ E).
Qed.

Lemma number_read (o : option pyval) (bad : spec_float -> bool) :
  in_float_range o = true -> not_a_number o = false -> out_of_range bad o = false ->
  exists x, py_float (get_default o (PInt 0)) = Ok x /\ bad x = false.
Proof.
  unfold in_float_range, not_a_number, out_of_range, read_number.
  destruct (py_float (get_default o (PInt 0))) as [x|e]; [eauto|].
  destruct e; discriminate.
Qed.

Lemma strptime_ymd_calendar (s : list N) (y m d : Z) :
  strptime_ymd s = Ok (y, m, d) ->
  (1 <= y <= 9999)%Z /\ (1 <= m <= 12)%Z /\ (1 <= d <= days_in_month y m)%Z.
Proof.
  unfold strptime_ymd. destruct (match_date s) as [[[[ys ms] ds] rest]|]; [|discriminate].
  destruct rest; [|discriminate]. intros H.
  apply bind_ok in H as [year [_ H]]. apply bind_ok in H as [month [_ H]].
  apply bind_ok in H as [day [_ H]]. unfold make_date in H.
  destruct ((1 <=? year) && (year <=? 9999) && (1 <=? month) && (month <=? 12)
            && (1 <=? day) && (day <=? days_in_month year month))%Z eqn:E; [|discriminate].
  injection H as <- <- <-.
  repeat (apply andb_true_iff in E; destruct E as [E ?]).
  repeat match goal with K : (_ <=? _)%Z = true |- _ => apply Z.leb_le in K end.
  lia.
Qed.

Lemma item_rules_in (data : invoice) (i : nat) (it : item) (v : violation) :
  item_at data i = Some it -> In v (item_rules i) -> In v (all_rules data).
Proof.
  intros Hi Hv. unfold all_rules.
  do 4 (apply in_or_app; right). apply in_or_app. left.
  apply in_flat_map. exists i. split; [|exact Hv].
  apply in_seq. unfold item_at in Hi.
  assert (nth_error (get_default (items data) []) i <> None) as Hn by congruence.
  apply nth_error_Some in Hn. lia.
Qed.

(** Acceptance leaves a record well formed. *)
Lemma accepted_is_well_formed (data : invoice) :
  validate_invoice_data data = Ok true -> well_formed data.
Proof.
  intros H. destruct (accepted_no_violation data H) as [Hno Hrules].
  assert (forall v, In v [MissingDate; MissingInvoiceNumber; BadDate] ->
                    violated data v = false) as Hhead
    by (intros v Hv; apply Hrules; unfold all_rules; apply in_or_app; now left).
  assert (forall w f, violated data (MissingPartyField w f) = false) as Hparty.
  { intros w f. apply Hrules. unfold all_rules. apply in_or_app. right.
    destruct w; [apply in_or_app; left | apply in_or_app; right; apply in_or_app; left];
      unfold party_rules; apply in_map; destruct f; cbn; tauto. }
  assert (forall v, In v [BadSiret Issuer; BadSiret Recipient; NoItem] ->
                    violated data v = false) as Hmid.
  { intros v Hv. apply Hrules. unfold all_rules.
    do 3 (apply in_or_app; right). apply in_or_app. now left. }
  unfold well_formed, item_accepted. repeat split.
  - pose proof (Hhead MissingDate (or_introl eq_refl)) as H1.
    pose proof (Hhead BadDate (or_intror (or_intror (or_introl eq_refl)))) as H2.
    cbn [violated] in H1, H2. apply negb_false_iff in H1. rewrite H1 in H2.
    cbn [andb] in H2. apply negb_false_iff in H2.
    destruct (strptime_ymd (get_default (date data) [])) as [[[y m] d]|e] eqn:E;
      [|discriminate].
    exists y, m, d. split; [reflexivity|]. exact (strptime_ymd_calendar _ _ _ _ E).
  - pose proof (Hhead MissingInvoiceNumber (or_intror (or_introl eq_refl))) as H1.
    cbn [violated] in H1. now apply negb_false_iff in H1.
  - intros w f. specialize (Hparty w f). cbn [violated] in Hparty.
    now apply negb_false_iff in Hparty.
  - intros w.
    assert (violated data (BadSiret w) = false) as Hs
      by (apply Hmid; destruct w; cbn; tauto).
    cbn [violated] in Hs. unfold siret_acceptable.
    destruct (siret (party_of w data)) as [[|c s]|]; try reflexivity.
    cbn [truthy andb get_default] in *. now apply negb_false_iff in Hs.
  - pose proof (Hmid NoItem (or_intror (or_intror (or_introl eq_refl)))) as H1.
    cbn [violated] in H1. destruct (items data) as [[|it l]|]; try discriminate. eauto.
  - assert (violated data (NoDescription i) = false) as Hd
      by (apply Hrules, (item_rules_in data i it); [assumption | cbn; tauto]).
    cbn [violated] in Hd. unfold on_item in Hd. rewrite H0 in Hd.
    now apply negb_false_iff in Hd.
  - assert (In it (get_default (items data) [])) as Hin
      by (unfold item_at in H0; exact (nth_error_In _ _ H0)).
    unfold no_overflow in Hno. apply andb_true_iff in Hno as [Hitems _].
    rewrite forallb_forall in Hitems. specialize (Hitems it Hin).
    apply andb_true_iff in Hitems as [Hitems _].
    apply andb_true_iff in Hitems as [Hq _].
    apply number_read; [exact Hq | |].
    + assert (violated data (QuantityNotNumber i) = false) as Hv
        by (apply Hrules, (item_rules_in data i it); [assumption | cbn; tauto]).
      cbn [violated] in Hv. unfold on_item in Hv. now rewrite H0 in Hv.
    + assert (violated data (QuantityNotPositive i) = false) as Hv
        by (apply Hrules, (item_rules_in data i it); [assumption | cbn; tauto]).
      cbn [violated] in Hv. unfold on_item in Hv. now rewrite H0 in Hv.
  - assert (In it (get_default (items data) [])) as Hin
      by (unfold item_at in H0; exact (nth_error_In _ _ H0)).
    unfold no_overflow in Hno. apply andb_true_iff in Hno as [Hitems _].
    rewrite forallb_forall in Hitems. specialize (Hitems it Hin).
    apply andb_true_iff in Hitems as [Hitems _].
    apply andb_true_iff in Hitems as [_ Hp].
    apply number_read; [exact Hp | |].
    + assert (violated data (PriceNotNumber i) = false) as Hv
        by (apply Hrules, (item_rules_in data i it); [assumption | cbn; tauto]).
      cbn [violated] in Hv. unfold on_item in Hv. now rewrite H0 in Hv.
    + assert (violated data (PriceNegative i) = false) as Hv
        by (apply Hrules, (item_rules_in data i it); [assumption | cbn; tauto]).
      cbn [violated] in Hv. unfold on_item in Hv. now rewrite H0 in Hv.
  - assert (In it (get_default (items data) [])) as Hin
      by (unfold item_at in H0; exact (nth_error_In _ _ H0)).
    unfold no_overflow in Hno. apply andb_true_iff in Hno as [Hitems _].
    rewrite forallb_forall in Hitems. specialize (Hitems it Hin).
    apply andb_true_iff in Hitems as [_ Hr].
    destruct (number_read (vat_rate it) (fun r => flt r zero || flt hundred r) Hr)
      as (r & Er & Hbad).
    + assert (violated data (RateNotNumber i) = false) as Hv
        by (apply Hrules, (item_rules_in data i it); [assumption | cbn; tauto]).
      cbn [violated] in Hv. unfold on_item in Hv. now rewrite H0 in Hv.
    + assert (violated data (RateOutOfRange i) = false) as Hv
        by (apply Hrules, (item_rules_in data i it); [assumption | cbn; tauto]).
      cbn [violated] in Hv. unfold on_item in Hv. now rewrite H0 in Hv.
    + exists r. apply orb_false_iff in Hbad as [H1 H2]. auto.
Qed.

(** Every record that [validate_invoice_data] accepts is well formed: its
    date is a date of the calendar, the invoice number and the four fields of
    both parties are not empty, a SIRET that is given passes the check, there
    is an item, and every item has a description, a quantity that is not
    [<= 0], a price that is not [< 0] and a rate within 0 and 100. *)
Theorem accepted_record_is_well_formed (data : invoice) :
  validate_invoice_data data = Ok true -> well_formed data.
Proof. exact (accepted_is_well_formed data). Qed.

Lemma accepted_record_is_well_formed_witness :
  validate_invoice_data sample_invoice = Ok true /\ well_formed sample_invoice.
Proof.
  assert (validate_invoice_data sample_invoice = Ok true) as H
    by (vm_compute; reflexivity).
  split; [exact H | exact (accepted_record_is_well_formed sample_invoice H)].
Defined.

Lemma filter_none {A : Type} (f : A -> bool) (l : list A) :
  (forall a, In a l -> f a = false) -> filter f l = [].
Proof.
  induction l as [|x l IH]; intros H; cbn [filter]; [reflexivity|].
  rewrite (H x (or_introl eq_refl)). apply IH. intros a Ha. apply H. now right.
Qed.

(** Not-a-number and infinity pass the rule on the total: a record that is
    accepted stays accepted when its [total_ttc] is replaced by one of them,
    since neither is [<= 0]. *)
Theorem total_that_is_no_amount_is_accepted (data : invoice) (v : pyval) :
  validate_invoice_data data = Ok true ->
  In v no_amounts ->
  validate_invoice_data (with_total (Some v) data) = Ok true.
Proof.
  intros H Hv. destruct (accepted_no_violation data H) as [Hno Hrules].
  assert (in_float_range (Some v) = true
          /\ out_of_range (fun t => fle t zero) (Some v) = false
          /\ not_a_number (Some v) = false) as (Hrange & Hout & Hnan).
  { unfold no_amounts in Hv. cbn [In] in Hv.
    destruct Hv as [<- | [<- | [<- | [<- | []]]]]; repeat split; vm_compute; reflexivity. }
  rewrite validate_invoice_data_spec.
  assert (no_overflow (with_total (Some v) data) = true) as ->.
  { unfold no_overflow in *. cbn [with_total items total_ttc].
    apply andb_true_iff in Hno as [-> _]. exact Hrange. }
  unfold spec_validate, spec_violations.
  rewrite filter_none; [reflexivity|].
  intros r Hr. change (all_rules (with_total (Some v) data)) with (all_rules data) in Hr.
  specialize (Hrules r Hr).
  destruct r; try exact Hrules; cbn [violated with_total total_ttc]; assumption.
Qed.

Lemma total_that_is_no_amount_is_accepted_witness :
  validate_invoice_data sample_invoice = Ok true
  /\ In (PStr (py "nan")) no_amounts
  /\ validate_invoice_data (with_total (Some (PStr (py "nan"))) sample_invoice) = Ok true.
Proof.
  assert (validate_invoice_data sample_invoice = Ok true) as H
    by (vm_compute; reflexivity).
  assert (In (PStr (py "nan")) no_amounts) as Hin by (right; left; reflexivity).
  split; [exact H|]. split; [exact Hin|].
  exact (total_that_is_no_amount_is_accepted sample_invoice _ H Hin).
Defined.

(* ------------------------------------------------------------------ *)
(** ** The record built from a form *)

Lemma skipn_nth_error {A : Type} (l : list A) :
  forall n a, nth_error l n = Some a -> skipn n l = a :: skipn (S n) l.
Proof.
  induction l as [|x l IH]; intros [|n] a H; cbn in *; try discriminate.
  - now injection H as ->.
  - exact (IH n a H).
Qed.

Lemma index_ok {A : Type} (l : list A) (i : nat) (a : A) :
  index l i = Ok a -> nth_error l i = Some a.
Proof. unfold index. destruct (nth_error l i); congruence. Qed.

(** One turn of the loop over the lines: a blank line adds nothing, a
    filled one adds an item that follows the formulas. *)
Lemma form_line_inv (f : form) (acc out : list item) (i : nat) :
  form_line f acc i = Ok out ->
  exists d, nth_error (descriptions f) i = Some d
            /\ line_readable f i = true
            /\ ((d = [] /\ out = acc)
                \/ (exists it, line_filled d = true /\ out = acc ++ [it]
                               /\ description it = Some d
                               /\ item_follows_formulas it)).
Proof.
  unfold form_line. intros H. apply bind_ok in H as [d [Hd H]].
  apply index_ok in Hd. exists d. split; [exact Hd|].
  unfold line_readable. rewrite Hd.
  destruct d as [|c d]; [injection H as <-; auto|].
  apply bind_ok in H as [q [Hq H]]. apply index_ok in Hq.
  apply bind_ok in H as [q' [Hq' H]].
  apply bind_ok in H as [p [Hp H]]. apply index_ok in Hp.
  apply bind_ok in H as [p' [Hp' H]].
  apply bind_ok in H as [r [Hr H]]. apply index_ok in Hr.
  apply bind_ok in H as [r' [Hr' H]]. cbv zeta in H. injection H as <-.
  unfold number_at. rewrite Hq, Hp, Hr, Hq', Hp', Hr'. split; [reflexivity|].
  right. eexists. split; [reflexivity|]. split; [reflexivity|].
  split; [reflexivity|]. exists q', p', r'. cbn. auto 6.
Qed.

Lemma form_lines_inv (f : form) (k : nat) :
  forall start acc out,
    foldM (form_line f) (seq start k) acc = Ok out ->
    forallb (line_readable f) (seq start k) = true
    /\ exists new,
         out = acc ++ new
         /\ map description new
            = map Some (filter line_filled (firstn k (skipn start (descriptions f))))
         /\ Forall item_follows_formulas new.
Proof.
  induction k as [|k IH]; intros start acc out H; cbn [seq foldM forallb] in *.
  - injection H as <-. split; [reflexivity|]. exists []. rewrite app_nil_r. auto.
  - apply bind_ok in H as [acc' [Hline H]].
    destruct (form_line_inv f acc acc' start Hline) as (d & Hd & Hread & Hcase).
    destruct (IH _ _ _ H) as (Hrest & new & -> & Hnew & Hall).
    rewrite Hread, Hrest. split; [reflexivity|].
    rewrite (skipn_nth_error _ _ _ Hd). cbn [firstn filter].
    destruct Hcase as [[-> ->] | (it & Hfilled & -> & Hdesc & Hit)].
    + exists new. cbn [line_filled is_empty negb]. auto.
    + exists (it :: new). rewrite Hfilled, <- app_assoc. cbn [app map].
      rewrite Hdesc, Hnew. auto.
Qed.

(** The sum of a field that is a float on every item: the integer 0 when
    there is no item, else a float; it never fails. *)
Lemma py_sum_floats (field : item -> option pyval) (l : list item) :
  Forall (fun it => exists x, field it = Some (PFloat x)) l ->
  forall acc, (acc = PInt 0 \/ exists x, acc = PFloat x) ->
    exists t, foldM (fun acc it => v <- subscript (field it) ;; py_add acc v) l acc = Ok t
              /\ (t = PInt 0 \/ exists x, t = PFloat x).
Proof.
  induction 1 as [|it l [x Hx] _ IH]; intros acc Hacc; cbn [foldM]; [eauto|].
  rewrite Hx. cbn [subscript bind].
  destruct Hacc as [-> | [a ->]]; cbn [py_add]; [|apply IH; eauto].
  replace (float_of_int 0) with (Ok (float_of_Z 0)) by reflexivity.
  cbn [bind]. apply IH. eauto.
Qed.

Lemma formulas_field (l : list item) (field : item -> option pyval) :
  (forall it, item_follows_formulas it -> exists x, field it = Some (PFloat x)) ->
  Forall item_follows_formulas l ->
  Forall (fun it => exists x, field it = Some (PFloat x)) l.
Proof. intros H Hall. induction Hall; constructor; auto. Qed.

(** The shape of the record that [generate_invoice] builds. *)
Lemma build_invoice_data_inv (f : form) (data : invoice) :
  build_invoice_data f = Ok data ->
  form_convertible f = true
  /\ exists l ht vat ttc,
       items data = Some l
       /\ map description l = map Some (filter line_filled (descriptions f))
       /\ Forall item_follows_formulas l
       /\ total_ht data = Some ht /\ py_sum amount_ht l = Ok ht
       /\ total_vat data = Some vat /\ py_sum vat_amount l = Ok vat
       /\ total_ttc data = Some ttc /\ py_sum amount_ttc l = Ok ttc.
Proof.
  unfold build_invoice_data. intros H.
  repeat match type of H with
         | bind (subscript ?o) _ = Ok _ =>
             let x := fresh "v" in let Hx := fresh "Hv" in
             apply bind_ok in H as [x [Hx H]]; apply subscript_ok in Hx
         end.
  apply bind_ok in H as [l [Hl H]]. apply bind_ok in H as [ht [Hht H]].
  apply bind_ok in H as [vat [Hvat H]]. apply bind_ok in H as [ttc [Httc H]].
  injection H as <-.
  destruct (form_lines_inv f _ _ _ _ Hl) as (Hread & new & E & Hdesc & Hall).
  cbn [app] in E. subst new. cbn [skipn] in Hdesc. rewrite firstn_all in Hdesc.
  split.
  - unfold form_convertible. rewrite Hv, Hv0, Hv1, Hv2, Hv3, Hv4, Hv5, Hv6, Hv7, Hv8.
    exact Hread.
  - exists l, ht, vat, ttc. cbn. auto 10.
Qed.

(** The items are the filled lines, in the order of the form: blank lines
    are left out, whatever their numbers hold. *)
Theorem form_items_are_the_filled_lines (f : form) (data : invoice) :
  build_invoice_data f = Ok data ->
  exists l, items data = Some l
            /\ map description l = map Some (filter line_filled (descriptions f)).
Proof.
  intros H. destruct (build_invoice_data_inv f data H)
    as (_ & l & ht & vat & ttc & Hl & Hd & _). eauto.
Qed.

Lemma form_items_are_the_filled_lines_witness :
  build_invoice_data sample_form = Ok form_invoice
  /\ exists l, items form_invoice = Some l
               /\ map description l
                  = map Some (filter line_filled (descriptions sample_form)).
Proof.
  assert (build_invoice_data sample_form = Ok form_invoice) as H
    by (vm_compute; reflexivity).
  split; [exact H | exact (form_items_are_the_filled_lines sample_form form_invoice H)].
Defined.

Lemma formulas_amount_ht (it : item) :
  item_follows_formulas it -> exists x, amount_ht it = Some (PFloat x).
Proof. intros (q & p & r & _ & _ & _ & E & _). eauto. Qed.

Lemma formulas_vat_amount (it : item) :
  item_follows_formulas it -> exists x, vat_amount it = Some (PFloat x).
Proof. intros (q & p & r & _ & _ & _ & _ & E & _). eauto. Qed.

Lemma formulas_amount_ttc (it : item) :
  item_follows_formulas it -> exists x, amount_ttc it = Some (PFloat x).
Proof. intros (q & p & r & _ & _ & _ & _ & _ & E). eauto. Qed.

Lemma formulas_in_range (it : item) : item_follows_formulas it -> item_in_range it = true.
Proof.
  intros (q & p & r & Hq & Hp & Hr & _). unfold item_in_range. rewrite Hq, Hp, Hr.
  reflexivity.
Qed.

(** No integer of a record built from a form is too large for a float, all
    its numbers being floats: its validation is the rule-by-rule one, that
    lists every broken rule. *)
Theorem form_record_is_validated_rule_by_rule (f : form) (data : invoice) :
  build_invoice_data f = Ok data ->
  no_overflow data = true /\ validate_invoice_data data = spec_validate data.
Proof.
  intros H. destruct (build_invoice_data_inv f data H)
    as (_ & l & ht & vat & ttc & Hl & _ & Hall & _ & _ & _ & _ & Ettc & Sttc).
  assert (no_overflow data = true) as Hno.
  { unfold no_overflow. rewrite Hl, Ettc. cbn [get_default]. apply andb_true_iff. split.
    - apply forallb_forall. intros it Hin. rewrite Forall_forall in Hall.
      exact (formulas_in_range it (Hall it Hin)).
    - destruct (py_sum_floats amount_ttc l
                  (formulas_field l amount_ttc formulas_amount_ttc Hall)
                  (PInt 0) (or_introl eq_refl)) as (t & Et & Ht).
      unfold py_sum in Sttc. rewrite Sttc in Et. injection Et as <-.
      destruct Ht as [-> | [x ->]]; reflexivity. }
  split; [exact Hno|]. rewrite validate_invoice_data_spec, Hno. reflexivity.
Qed.

Lemma form_record_is_validated_rule_by_rule_witness :
  build_invoice_data sample_form = Ok form_invoice
  /\ no_overflow form_invoice = true
  /\ validate_invoice_data form_invoice = spec_validate form_invoice.
Proof.
  assert (build_invoice_data sample_form = Ok form_invoice) as H
    by (vm_compute; reflexivity).
  split; [exact H | exact (form_record_is_validated_rule_by_rule sample_form form_invoice H)].
Defined.

Lemma number_at_read (l : list (list N)) (i : nat) :
  number_at l i = true -> exists s x, index l i = Ok s /\ float_of_str s = Ok x.
Proof.
  unfold number_at, index. destruct (nth_error l i) as [s|]; [|discriminate].
  destruct (float_of_str s) as [x|e] eqn:E; [|discriminate].
  intros _. exists s, x. split; [reflexivity | exact E].
Qed.

Lemma form_lines_ok (f : form) (k : nat) :
  forall start acc,
    forallb (line_readable f) (seq start k) = true ->
    exists out, foldM (form_line f) (seq start k) acc = Ok out.
Proof.
  induction k as [|k IH]; intros start acc H; cbn [seq foldM forallb] in *; [eauto|].
  apply andb_true_iff in H as [Hline Hrest].
  assert (exists acc', form_line f acc start = Ok acc') as [acc' ->].
  { unfold line_readable in Hline. unfold form_line. unfold index at 1.
    destruct (nth_error (descriptions f) start) as [[|c d]|]; try discriminate;
      cbn [bind]; [eauto|].
    apply andb_true_iff in Hline as [Hline Hr]. apply andb_true_iff in Hline as [Hq Hp].
    destruct (number_at_read _ _ Hq) as (sq & q & Iq & Fq).
    destruct (number_at_read _ _ Hp) as (sp & p & Ip & Fp).
    destruct (number_at_read _ _ Hr) as (sr & r & Ir & Fr).
    rewrite Iq. cbn [bind]. rewrite Fq. cbn [bind].
    rewrite Ip. cbn [bind]. rewrite Fp. cbn [bind].
    rewrite Ir. cbn [bind]. rewrite Fr. cbn [bind]. eauto. }
  cbn [bind]. exact (IH _ _ Hrest).
Qed.

(** The form is turned into a record exactly when the ten keys read with
    [request.form[key]] are there and every line that is not blank has a
    quantity, a unit price and a rate that [float()] reads: the sums never
    fail. *)
Theorem form_is_converted_when_readable (f : form) :
  is_ok (build_invoice_data f) = form_convertible f.
Proof.
  destruct (build_invoice_data f) as [data|e] eqn:E; cbn [is_ok].
  - symmetry. exact (proj1 (build_invoice_data_inv f data E)).
  - destruct (form_convertible f) eqn:C; [|reflexivity]. exfalso.
    unfold form_convertible in C.
    repeat (apply andb_true_iff in C; destruct C as [C ?]).
    unfold build_invoice_data in E.
    repeat match goal with
           | K : present ?o = true |- _ =>
               destruct o; [clear K | discriminate K]
           end.
    cbn [subscript bind] in E.
    destruct (form_lines_ok f _ 0 [] H) as [out Hout]. rewrite Hout in E.
    cbn [bind] in E.
    destruct (form_lines_inv f _ _ _ _ Hout) as (_ & new & -> & _ & Hall).
    cbn [app] in E.
    destruct (py_sum_floats amount_ht new
                (formulas_field new amount_ht formulas_amount_ht Hall)
                (PInt 0) (or_introl eq_refl)) as (ht & Eht & _).
    destruct (py_sum_floats vat_amount new
                (formulas_field new vat_amount formulas_vat_amount Hall)
                (PInt 0) (or_introl eq_refl)) as (vat & Evat & _).
    destruct (py_sum_floats amount_ttc new
                (formulas_field new amount_ttc formulas_amount_ttc Hall)
                (PInt 0) (or_introl eq_refl)) as (ttc & Ettc & _).
    unfold py_sum in E. rewrite Eht in E. cbn [bind] in E. rewrite Evat in E.
    cbn [bind] in E. rewrite Ettc in E. discriminate E.
Qed.

(* ------------------------------------------------------------------ *)
(** ** The seller's identifiers, in general *)

(** A VAT number that the issuer gives is written as it is: nothing is
    derived from the SIRET, which is then not read as a number. *)
Theorem seller_tax_id_is_the_given_vat_number (data : invoice) (tree : xml) (p : party) :
  build_tree data = Ok tree ->
  issuer data = Some p ->
  truthy (vat_number p) = true ->
  texts_at seller_tax_id_path tree = [vat_number p].
Proof.
  intros H Hp Hvat.
  destruct (texts_at_seller data tree [py "SpecifiedTaxRegistration"; py "ID"] H)
    as (p' & seller & Hp' & Hseller & E).
  rewrite Hp in Hp'. injection Hp' as <-.
  unfold seller_tax_id_path. rewrite E.
  unfold seller_party in Hseller. run Hseller. injection Hseller as <-.
  unfold postal_address in Hr. run Hr. injection Hr as <-.
  assert (vat_number p = Some r0) as ->; [|reflexivity].
  unfold seller_vat_number in Hr0.
  destruct (vat_number p) as [[|c given]|]; try discriminate Hvat.
  cbn in Hr0. now injection Hr0 as <-.
Qed.

Lemma seller_tax_id_is_the_given_vat_number_witness :
  build_tree (with_vat_number sample_invoice) = Ok given_vat_tree
  /\ issuer (with_vat_number sample_invoice) = Some given_vat_party
  /\ truthy (vat_number given_vat_party) = true
  /\ texts_at seller_tax_id_path given_vat_tree = [vat_number given_vat_party].
Proof.
  assert (build_tree (with_vat_number sample_invoice) = Ok given_vat_tree) as H
    by (vm_compute; reflexivity).
  split; [exact H|]. do 2 (split; [reflexivity|]).
  exact (seller_tax_id_is_the_given_vat_number _ _ given_vat_party H eq_refl eq_refl).
Defined.

(* ------------------------------------------------------------------ *)
(** ** The lines of the document *)

(** The texts found below the lines are those found below each line, in the
    order of the lines. *)
Lemma texts_at_lines (data : invoice) (tree : xml) :
  build_tree data = Ok tree ->
  exists l lines,
    items data = Some l /\ line_items 1 l = Ok lines
    /\ forall path,
         texts_at (line_path path) tree
         = flat_map (fun x => map xml_text (ram_path path x)) lines.
Proof.
  intros H. apply build_tree_inv in H.
  destruct H as (context & document & l & lines & p & seller & q & buyer & rates
                 & taxes & currency & payment & monetary & Hl & Hlines & Hp & Hseller
                 & Hq & Hbuyer & Hrates & Htaxes & Hmon & Hcur & Hpay & ->).
  exists l, lines. split; [exact Hl|]. split; [exact Hlines|]. intros path.
  unfold line_path. rewrite texts_at_transaction by reflexivity.
  cbn [ram_path].
  rewrite ram_children_all_hit.
  - rewrite ram_children_miss with (other := py "ApplicableHeaderTradeAgreement")
      by reflexivity.
    rewrite ram_children_miss with (other := py "ApplicableHeaderTradeDelivery")
      by reflexivity.
    rewrite ram_children_miss with (other := py "ApplicableHeaderTradeSettlement")
      by reflexivity.
    unfold ram_children at 1. cbn [xml_children filter]. rewrite app_nil_r.
    clear. induction lines as [|x xs IH]; cbn [flat_map map]; [reflexivity|].
    now rewrite map_app, IH.
  - clear - Hlines. revert Hlines. generalize 1%nat. revert lines.
    induction l as [|it l IH]; intros lines idx H; cbn [line_items] in H.
    + injection H as <-. constructor.
    + apply bind_ok in H as [x [Hx H]]. apply bind_ok in H as [xs [Hxs H]].
      injection H as <-. constructor; [|eauto].
      unfold line_item in Hx. run Hx. injection Hx as <-. split; reflexivity.
Qed.

(** What one line holds. *)
Lemma line_item_texts (idx : nat) (it : item) (x : xml) :
  line_item idx it = Ok x ->
  map xml_text (ram_path (tl line_id_path) x) = [Some (str_of_N (N.of_nat idx))]
  /\ map xml_text (ram_path (tl line_name_path) x) = [description it]
  /\ written unit_price it = Ok (hd None (map xml_text (ram_path (tl line_price_path) x)))
  /\ written quantity it
     = Ok (hd None (map xml_text (ram_path (tl line_quantity_path) x)))
  /\ written vat_rate it = Ok (hd None (map xml_text (ram_path (tl line_rate_path) x)))
  /\ written amount_ht it
     = Ok (hd None (map xml_text (ram_path (tl line_total_path) x)))
  /\ (forall path, In path [line_price_path; line_quantity_path; line_rate_path;
                            line_total_path] ->
                   length (ram_path (tl path) x) = 1%nat).
Proof.
  unfold line_item. intros H. run H. injection H as <-.
  unfold written. rewrite Hv, Hv0, Hv1, Hv2, Hv3. cbn [subscript bind].
  rewrite Hr, Hr0, Hr1, Hr2. cbn [bind].
  generalize (str_of_N (N.of_nat idx)). intros line_id.
  repeat split; try reflexivity.
  intros path [<- | [<- | [<- | [<- | []]]]]; reflexivity.
Qed.

Lemma line_items_numbers (l : list item) :
  forall idx lines,
    line_items idx l = Ok lines ->
    flat_map (fun x => map xml_text (ram_path (tl line_id_path) x)) lines
    = map (fun k => Some (str_of_N (N.of_nat k))) (seq idx (length l))
    /\ flat_map (fun x => map xml_text (ram_path (tl line_name_path) x)) lines
       = map description l.
Proof.
  induction l as [|it l IH]; intros idx lines H; cbn [line_items] in H.
  - injection H as <-. split; reflexivity.
  - apply bind_ok in H as [x [Hx H]]. apply bind_ok in H as [xs [Hxs H]].
    injection H as <-. destruct (IH _ _ Hxs) as [IH1 IH2].
    destruct (line_item_texts _ _ _ Hx) as (E1 & E2 & _).
    cbn [flat_map length seq map]. rewrite E1, E2, IH1, IH2. split; reflexivity.
Qed.

(** One line per item, in the order of the items: the lines are numbered
    from 1 and each is named by the description of its item. *)
Theorem lines_are_the_items_in_order (data : invoice) (tree : xml) (l : list item) :
  build_tree data = Ok tree ->
  items data = Some l ->
  texts_at line_id_path tree
  = map (fun k => Some (str_of_N (N.of_nat k))) (seq 1 (length l))
  /\ texts_at line_name_path tree = map description l.
Proof.
  intros H Hl. destruct (texts_at_lines data tree H) as (l' & lines & Hl' & Hlines & E).
  rewrite Hl in Hl'. injection Hl' as <-.
  unfold line_id_path, line_name_path. rewrite !E.
  exact (line_items_numbers l 1 lines Hlines).
Qed.

Lemma lines_are_the_items_in_order_witness :
  build_tree form_invoice = Ok form_tree
  /\ items form_invoice = Some (get_default (items form_invoice) [])
  /\ texts_at line_id_path form_tree = [Some (py "1"); Some (py "2")]
  /\ texts_at line_name_path form_tree = [Some (py "Conseil"); Some (py "Licence")].
Proof.
  assert (build_tree form_invoice = Ok form_tree) as H by (vm_compute; reflexivity).
  split; [exact H|]. split; [reflexivity|].
  exact (lines_are_the_items_in_order form_invoice form_tree _ H eq_refl).
Defined.

Lemma hd_singleton {A : Type} (d : A) (l : list A) : length l = 1%nat -> [hd d l] = l.
Proof. destruct l as [|a [|b l]]; try discriminate. reflexivity. Qed.

Lemma line_items_amounts (field : item -> option pyval) (path : list (list N)) :
  In path [line_price_path; line_quantity_path; line_rate_path; line_total_path] ->
  (forall idx it x,
      line_item idx it = Ok x ->
      written field it = Ok (hd None (map xml_text (ram_path (tl path) x)))) ->
  forall l idx lines,
    line_items idx l = Ok lines ->
    mapM (written field) l
    = Ok (flat_map (fun x => map xml_text (ram_path (tl path) x)) lines).
Proof.
  intros Hpath Hone. induction l as [|it l IH]; intros idx lines H; cbn [line_items] in H.
  - injection H as <-. reflexivity.
  - apply bind_ok in H as [x [Hx H]]. apply bind_ok in H as [xs [Hxs H]].
    injection H as <-. cbn [mapM flat_map].
    rewrite (Hone _ _ _ Hx), (IH _ _ Hxs). cbn [bind]. f_equal.
    change (?a :: ?b) with ([a] ++ b). f_equal.
    apply hd_singleton. rewrite length_map.
    destruct (line_item_texts _ _ _ Hx) as (_ & _ & _ & _ & _ & _ & Hlen). auto.
Qed.

(** The amounts of a line are the fields of its item, each written with two
    decimals: the unit price, the quantity, the rate and [amount_ht]. *)
Theorem line_amounts_are_the_fields_of_the_item (data : invoice) (tree : xml)
    (l : list item) :
  build_tree data = Ok tree ->
  items data = Some l ->
  mapM (written unit_price) l = Ok (texts_at line_price_path tree)
  /\ mapM (written quantity) l = Ok (texts_at line_quantity_path tree)
  /\ mapM (written vat_rate) l = Ok (texts_at line_rate_path tree)
  /\ mapM (written amount_ht) l = Ok (texts_at line_total_path tree).
Proof.
  intros H Hl. destruct (texts_at_lines data tree H) as (l' & lines & Hl' & Hlines & E).
  rewrite Hl in Hl'. injection Hl' as <-.
  change line_price_path with (line_path (tl line_price_path)).
  change line_quantity_path with (line_path (tl line_quantity_path)).
  change line_rate_path with (line_path (tl line_rate_path)).
  change line_total_path with (line_path (tl line_total_path)).
  rewrite !E.
  repeat split.
  - apply (line_items_amounts unit_price line_price_path) with (idx := 1%nat);
      [cbn; tauto | | exact Hlines].
    intros idx it x Hx. exact (proj1 (proj2 (proj2 (line_item_texts _ _ _ Hx)))).
  - apply (line_items_amounts quantity line_quantity_path) with (idx := 1%nat);
      [cbn; tauto | | exact Hlines].
    intros idx it x Hx.
    exact (proj1 (proj2 (proj2 (proj2 (line_item_texts _ _ _ Hx))))).
  - apply (line_items_amounts vat_rate line_rate_path) with (idx := 1%nat);
      [cbn; tauto | | exact Hlines].
    intros idx it x Hx.
    exact (proj1 (proj2 (proj2 (proj2 (proj2 (line_item_texts _ _ _ Hx)))))).
  - apply (line_items_amounts amount_ht line_total_path) with (idx := 1%nat);
      [cbn; tauto | | exact Hlines].
    intros idx it x Hx.
    exact (proj1 (proj2 (proj2 (proj2 (proj2 (proj2 (line_item_texts _ _ _ Hx))))))).
Qed.

Lemma line_amounts_are_the_fields_of_the_item_witness :
  build_tree form_invoice = Ok form_tree
  /\ items form_invoice = Some (get_default (items form_invoice) [])
  /\ (mapM (written unit_price) (get_default (items form_invoice) [])
      = Ok (texts_at line_price_path form_tree)
      /\ mapM (written quantity) (get_default (items form_invoice) [])
         = Ok (texts_at line_quantity_path form_tree)
      /\ mapM (written vat_rate) (get_default (items form_invoice) [])
         = Ok (texts_at line_rate_path form_tree)
      /\ mapM (written amount_ht) (get_default (items form_invoice) [])
         = Ok (texts_at line_total_path form_tree)).
Proof.
  assert (build_tree form_invoice = Ok form_tree) as H by (vm_compute; reflexivity).
  split; [exact H|]. split; [reflexivity|].
  exact (line_amounts_are_the_fields_of_the_item form_invoice form_tree _ H eq_refl).
Defined.

(* ------------------------------------------------------------------ *)
(** ** The date of the document *)

(** The issue date is the date of the record without its hyphens. *)
Lemma issue_date_of_built_tree (data : invoice) (tree : xml) (d : list N) :
  build_tree data = Ok tree ->
  date data = Some d ->
  issue_date_texts tree = [Some (remove_char 45 d)].
Proof.
  unfold build_tree. intros H Hd. run H. injection H as <-.
  rewrite Hd in Hv0. injection Hv0 as <-.
  generalize (remove_char 45 d). intros written_date.
  reflexivity.
Qed.

Lemma in_range_bounds (lo hi c : N) : in_range lo hi c = true <-> lo <= c <= hi.
Proof. unfold in_range. rewrite andb_true_iff, !N.leb_le. tauto. Qed.

Ltac bounds :=
  repeat match goal with
         | K : _ && _ = true |- _ => apply andb_true_iff in K; destruct K
         | K : in_range _ _ _ = true |- _ => apply in_range_bounds in K
         | K : (_ =? _) = true |- _ => apply N.eqb_eq in K
         end.

Lemma month_alternatives_shape (s m r : list N) :
  In (m, r) (month_alternatives s) ->
  s = m ++ r /\ (1 <= length m <= 2)%nat /\ forallb (in_range 0x30 0x39) m = true.
Proof.
  unfold month_alternatives. destruct s as [|a [|b s]]; [contradiction | |].
  - destruct (in_range 49 57 a) eqn:E; [|contradiction].
    intros [[= <- <-] | []]. cbn [forallb length app]. bounds.
    split; [reflexivity|]. split; [lia|].
    rewrite andb_true_r. apply in_range_bounds. lia.
  - intros H. repeat (apply in_app_or in H; destruct H as [H | H]);
      match type of H with
      | In _ (if ?c then _ else _) => destruct c eqn:E; [|contradiction]
      end;
      destruct H as [[= <- <-] | []]; cbn [forallb length app]; bounds;
      (split; [reflexivity|]); (split; [lia|]);
      rewrite !andb_true_iff, !in_range_bounds; lia.
Qed.

Lemma decimal_date_char (c : N) : py_isdecimal c = true -> date_char c = true.
Proof.
  unfold py_isdecimal. destruct (py_decimal c) as [v|] eqn:E; [|discriminate].
  intros _. exact (decimal_table_check date_char eq_refl c v E).
Qed.

Lemma ascii_date_char (lo hi c : N) :
  45 < lo -> hi <= 57 -> in_range lo hi c = true -> date_char c = true.
Proof.
  intros Hlo Hhi Hc. apply in_range_bounds in Hc.
  unfold date_char, xml_char. apply andb_true_iff. split.
  - replace (in_range 32 55295 c) with true; [now rewrite !orb_true_r|].
    symmetry. apply in_range_bounds. lia.
  - apply negb_true_iff, N.eqb_neq. lia.
Qed.

Lemma day_alternatives_shape (s d r : list N) :
  In (d, r) (day_alternatives s) ->
  s = d ++ r /\ (1 <= length d <= 2)%nat /\ forallb date_char d = true.
Proof.
  unfold day_alternatives. destruct s as [|a [|b s]]; [contradiction | |].
  - destruct (in_range 49 57 a) eqn:E; [|contradiction].
    intros [[= <- <-] | []]. cbn [forallb length app].
    rewrite (ascii_date_char 49 57 a) by (auto; lia). repeat split; lia.
  - intros H. repeat (apply in_app_or in H; destruct H as [H | H]);
      match type of H with
      | In _ (if ?c then _ else _) => destruct c eqn:E; [|contradiction]
      end;
      destruct H as [[= <- <-] | []]; cbn [forallb length app];
      repeat match goal with
             | K : _ && _ = true |- _ => apply andb_true_iff in K; destruct K
             end;
      (split; [reflexivity|]); (split; [lia|]);
      repeat match goal with
             | K : in_range ?lo ?hi ?c = true |- _ =>
                 rewrite (ascii_date_char lo hi c) by (auto; lia); clear K
             | K : py_isdecimal ?c = true |- _ => rewrite (decimal_date_char c K); clear K
             | K : (?c =? ?k) = true |- _ => apply N.eqb_eq in K; subst c
             end; reflexivity.
Qed.

Lemma first_some_in {A B : Type} (f : A -> option B) (l : list A) (b : B) :
  first_some f l = Some b -> exists a, In a l /\ f a = Some b.
Proof.
  induction l as [|a l IH]; cbn [first_some]; [discriminate|].
  destruct (f a) as [b'|] eqn:E.
  - intros [= <-]. exists a. split; [now left | exact E].
  - intros H. destruct (IH H) as (a' & Hin & Ha'). exists a'. split; [now right | exact Ha'].
Qed.

(** A text that [strptime] takes for a date: four digits, a hyphen, a month
    of one or two characters, a hyphen, a day of one or two characters. *)
Lemma match_date_shape (s y m d rest : list N) :
  match_date s = Some (y, m, d, rest) ->
  s = y ++ [45] ++ m ++ [45] ++ d ++ rest
  /\ length y = 4%nat /\ (1 <= length m <= 2)%nat /\ (1 <= length d <= 2)%nat
  /\ forallb date_char (y ++ m ++ d) = true.
Proof.
  unfold match_date. destruct (match_digits 4 s) as [r0|] eqn:E0; [|discriminate].
  destruct (match_digits_inv _ _ _ E0) as (y' & -> & Hy & Hdigits).
  assert (firstn 4 (y' ++ r0) = y') as ->.
  { rewrite <- Hy, firstn_app, Nat.sub_diag, firstn_O, firstn_all. apply app_nil_r. }
  destruct r0 as [|c r1]; [discriminate|]. cbn [expect].
  destruct (c =? 45) eqn:Ec; [|discriminate]. apply N.eqb_eq in Ec. subst c.
  intros H. apply first_some_in in H as ([m' r2] & Hin & H).
  destruct (month_alternatives_shape _ _ _ Hin) as (-> & Hm & Hmd).
  destruct r2 as [|c r3]; [discriminate|]. cbn [expect] in H.
  destruct (c =? 45) eqn:Ec; [|discriminate]. apply N.eqb_eq in Ec. subst c.
  destruct (day_alternatives r3) as [|[d' rest'] alts] eqn:Ed; [discriminate|].
  injection H as <- <- <- <-.
  destruct (day_alternatives_shape r3 d' rest') as (-> & Hd & Hdd);
    [rewrite Ed; now left|].
  split; [reflexivity|]. split; [exact Hy|]. split; [exact Hm|]. split; [exact Hd|].
  rewrite !forallb_app, Hdd. rewrite andb_true_r. apply andb_true_iff. split.
  - apply forallb_forall. intros c Hc. rewrite forallb_forall in Hdigits.
    exact (decimal_date_char c (Hdigits c Hc)).
  - apply forallb_forall. intros c Hc. rewrite forallb_forall in Hmd.
    apply (ascii_date_char 48 57 c); [lia | lia | exact (Hmd c Hc)].
Qed.

Lemma date_chars_plain (s : list N) :
  forallb date_char s = true -> forallb (fun x => negb (x =? 45)) s = true.
Proof.
  intros H. apply forallb_forall. intros c Hc. rewrite forallb_forall in H.
  specialize (H c Hc). unfold date_char in H. now apply andb_true_iff in H as [_ H].
Qed.

Lemma remove_char_none (c : N) (s : list N) :
  forallb (fun x => negb (x =? c)) s = true -> remove_char c s = s.
Proof.
  unfold remove_char. induction s as [|x s IH]; cbn [forallb filter]; [reflexivity|].
  intros H. apply andb_true_iff in H as [-> H]. now rewrite (IH H).
Qed.

(** A text that [strptime] takes, once its two hyphens are removed. *)
Lemma strptime_text_shape (d : list N) (x : Z * Z * Z) :
  strptime_ymd d = Ok x ->
  forallb date_char (remove_char 45 d) = true
  /\ (length (remove_char 45 d) + 2 = length d)%nat
  /\ (8 <= length d <= 10)%nat.
Proof.
  unfold strptime_ymd. intros Hdate.
  destruct (match_date d) as [[[[ys ms] ds] rest]|] eqn:Em; [|discriminate].
  destruct rest; [|discriminate].
  destruct (match_date_shape _ _ _ _ _ Em) as (-> & Hy & Hm & Hd & Hplain).
  rewrite app_nil_r in *.
  assert (remove_char 45 (ys ++ [45] ++ ms ++ [45] ++ ds) = ys ++ ms ++ ds) as ->.
  { pose proof Hplain as Hplain'.
    rewrite !forallb_app in Hplain'. apply andb_true_iff in Hplain' as [Py Pmd].
    apply andb_true_iff in Pmd as [Pm Pd].
    pose proof (remove_char_none 45 ys (date_chars_plain ys Py)) as Ey.
    pose proof (remove_char_none 45 ms (date_chars_plain ms Pm)) as Em'.
    pose proof (remove_char_none 45 ds (date_chars_plain ds Pd)) as Ed'.
    unfold remove_char in *. rewrite !filter_app, Ey, Em', Ed'. reflexivity. }
  split; [exact Hplain|]. rewrite !length_app. cbn [length]. lia.
Qed.

(** The date that the validator accepts is written without its two
    hyphens.  It is taken with a month and a day of one or two characters,
    so the text written counts six to eight characters: the eight of the
    format [102] only when the date counts ten. *)
Theorem accepted_date_is_written_without_hyphens (data : invoice) (tree : xml) :
  validate_invoice_data data = Ok true ->
  build_tree data = Ok tree ->
  exists d,
    date data = Some d
    /\ issue_date_texts tree = [Some (remove_char 45 d)]
    /\ (length (remove_char 45 d) + 2 = length d)%nat
    /\ (8 <= length d <= 10)%nat.
Proof.
  intros Hvalid Htree.
  destruct (accepted_is_well_formed data Hvalid) as ((y & m & dd & Hdate & _) & _).
  destruct (date data) as [d|] eqn:Ed; [|discriminate Hdate].
  exists d. split; [reflexivity|].
  split; [exact (issue_date_of_built_tree data tree d Htree Ed)|].
  cbn [get_default] in Hdate.
  exact (proj2 (strptime_text_shape d _ Hdate)).
Qed.

Lemma accepted_date_is_written_without_hyphens_witness :
  validate_invoice_data sample_invoice = Ok true
  /\ build_tree sample_invoice = Ok sample_tree
  /\ exists d,
       date sample_invoice = Some d
       /\ issue_date_texts sample_tree = [Some (remove_char 45 d)]
       /\ (length (remove_char 45 d) + 2 = length d)%nat
       /\ (8 <= length d <= 10)%nat.
Proof.
  assert (validate_invoice_data sample_invoice = Ok true) as Hv
    by (vm_compute; reflexivity).
  assert (build_tree sample_invoice = Ok sample_tree) as Ht by (vm_compute; reflexivity).
  split; [exact Hv|]. split; [exact Ht|].
  exact (accepted_date_is_written_without_hyphens sample_invoice sample_tree Hv Ht).
Defined.

(* ------------------------------------------------------------------ *)
(** ** What the builder needs *)

Lemma line_item_ready (idx : nat) (it : item) (x : xml) :
  line_item idx it = Ok x ->
  present (description it) && is_number (unit_price it) && is_number (quantity it)
  && is_number (vat_rate it) && is_number (amount_ht it) = true.
Proof.
  unfold line_item. intros H. run H.
  unfold is_number. rewrite Hv, Hv0, Hv1, Hv2, Hv3, Hr, Hr0, Hr1, Hr2. reflexivity.
Qed.

Lemma line_items_ready (l : list item) :
  forall idx lines,
    line_items idx l = Ok lines ->
    forallb (fun it => present (description it) && is_number (unit_price it)
                       && is_number (quantity it) && is_number (vat_rate it)
                       && is_number (amount_ht it)) l = true.
Proof.
  induction l as [|it l IH]; intros idx lines H; cbn [line_items forallb] in *;
    [reflexivity|].
  apply bind_ok in H as [x [Hx H]]. apply bind_ok in H as [xs [Hxs H]].
  rewrite (line_item_ready _ _ _ Hx). exact (IH _ _ Hxs).
Qed.

Lemma group_items_ready (l : list item) :
  forall d rates,
    foldM group_item l d = Ok rates ->
    forallb (fun it => is_convertible (vat_amount it)) l = true.
Proof.
  induction l as [|it l IH]; intros d rates H; cbn [foldM forallb] in *; [reflexivity|].
  apply bind_ok in H as [d' [Hd H]]. rewrite (IH _ _ H), andb_true_r.
  unfold group_item in Hd. run Hd. unfold is_convertible. now rewrite Hv1, Hr1.
Qed.

Lemma postal_address_ready (p : party) (x : xml) :
  postal_address p = Ok x ->
  present (postal_code p) && present (address p) && present (city p) = true.
Proof. unfold postal_address. intros H. run H. now rewrite Hv, Hv0, Hv1. Qed.

Lemma seller_party_ready (p : party) (x : xml) :
  seller_party p = Ok x -> party_ready (Some p) = true.
Proof.
  unfold seller_party. intros H. run H.
  pose proof (postal_address_ready _ _ Hr) as Ha.
  apply andb_true_iff in Ha as [Ha Hc]. apply andb_true_iff in Ha as [Hp Ha].
  cbn [party_ready]. now rewrite Hv, Hp, Ha, Hc.
Qed.

Lemma buyer_party_ready (p : party) (x : xml) :
  buyer_party p = Ok x -> party_ready (Some p) = true.
Proof.
  unfold buyer_party. intros H. run H.
  pose proof (postal_address_ready _ _ Hr) as Ha.
  apply andb_true_iff in Ha as [Ha Hc]. apply andb_true_iff in Ha as [Hp Ha].
  cbn [party_ready]. now rewrite Hv, Hp, Ha, Hc.
Qed.

Lemma monetary_summation_ready (data : invoice) (x : xml) :
  monetary_summation data = Ok x ->
  is_number (total_ht data) && is_number (total_vat data) && is_number (total_ttc data)
  = true.
Proof.
  unfold monetary_summation. intros H. run H.
  unfold is_number. now rewrite Hv, Hv1, Hv2, Hr, Hr1, Hr2.
Qed.

(** What the builder reads on the way to a tree. *)
Lemma build_tree_reads (data : invoice) (tree : xml) :
  build_tree data = Ok tree ->
  exists n d l lines p seller q buyer rates monetary,
    invoice_number data = Some n /\ date data = Some d
    /\ items data = Some l /\ line_items 1 l = Ok lines
    /\ issuer data = Some p /\ seller_party p = Ok seller
    /\ recipient data = Some q /\ buyer_party q = Ok buyer
    /\ foldM group_item l [] = Ok rates
    /\ monetary_summation data = Ok monetary.
Proof.
  unfold build_tree. intros H. run H.
  rewrite Hv1 in Hv4. injection Hv4 as <-.
  do 10 eexists. repeat split; eassumption.
Qed.

Lemma forallb_both {A : Type} (f g : A -> bool) (l : list A) :
  forallb f l = true -> forallb g l = true -> forallb (fun a => f a && g a) l = true.
Proof.
  intros Hf Hg. apply forallb_forall. intros a Ha. rewrite forallb_forall in Hf, Hg.
  now rewrite (Hf a Ha), (Hg a Ha).
Qed.

(** The builder returns a text only for a record that has every key it
    subscripts, with numbers where it formats with two decimals. *)
Lemma built_record_is_ready (data : invoice) (text : list N) :
  _generate_facturx_xml data = Ok text -> record_ready data = true.
Proof.
  unfold _generate_facturx_xml. intros H. apply bind_ok in H as [tree [H _]].
  destruct (build_tree_reads data tree H)
    as (n & d & l & lines & p & seller & q & buyer & rates & monetary
        & Hn & Hd & Hl & Hlines & Hp & Hseller & Hq & Hbuyer & Hrates & Hmon).
  unfold record_ready. rewrite Hn, Hd, Hl, Hp, Hq.
  rewrite (seller_party_ready _ _ Hseller), (buyer_party_ready _ _ Hbuyer).
  cbn [present andb]. rewrite !andb_true_r.
  pose proof (monetary_summation_ready _ _ Hmon) as Hm.
  apply andb_true_iff in Hm as [Hm ->]. apply andb_true_iff in Hm as [-> ->].
  rewrite !andb_true_r.
  exact (forallb_both _ _ l (line_items_ready _ _ _ Hlines) (group_items_ready _ _ _ Hrates)).
Qed.

(* ------------------------------------------------------------------ *)
(** ** Amounts written with two decimals *)

Lemma digits_to_N_app (a b : list N) :
  forall acc,
    fold_left (fun acc c => acc * 10 + (c - 0x30)) (a ++ b) acc
    = fold_left (fun acc c => acc * 10 + (c - 0x30)) b
        (fold_left (fun acc c => acc * 10 + (c - 0x30)) a acc).
Proof. intros acc. apply fold_left_app. Qed.

(** Reading the digits that [str] writes gives the number back. *)
Lemma str_of_uint_acc (d : Decimal.uint) :
  forall acc,
    fold_left (fun acc c => acc * 10 + (c - 0x30)) (str_of_uint d) (Npos acc)
    = Npos (Pos.of_uint_acc d acc).
Proof.
  induction d; intros acc; cbn [str_of_uint fold_left Pos.of_uint_acc];
    [reflexivity | ..];
    match goal with
    | |- fold_left _ _ ?x = N.pos (Pos.of_uint_acc _ ?y) =>
        replace x with (Npos y) by lia
    end; apply IHd.
Qed.

Lemma str_of_uint_value (d : Decimal.uint) :
  digits_to_N (str_of_uint d) = Pos.of_uint d.
Proof.
  unfold digits_to_N.
  induction d; cbn [str_of_uint fold_left Pos.of_uint]; [reflexivity | exact IHd | ..];
    match goal with
    | |- fold_left _ _ ?x = N.pos (Pos.of_uint_acc _ ?y) =>
        replace x with (Npos y) by lia
    end; apply str_of_uint_acc.
Qed.

Lemma str_of_N_value (n : N) : digits_to_N (str_of_N n) = n.
Proof.
  unfold str_of_N. rewrite str_of_uint_value.
  exact (DecimalN.Unsigned.of_to n).
Qed.

Lemma str_of_uint_digits (d : Decimal.uint) :
  forallb ascii_digit (str_of_uint d) = true.
Proof. induction d; cbn [str_of_uint forallb]; [reflexivity | ..]; exact IHd. Qed.

Lemma str_of_N_digits (n : N) : forallb ascii_digit (str_of_N n) = true.
Proof. apply str_of_uint_digits. Qed.

Lemma str_of_N_not_empty (n : N) : str_of_N n <> [].
Proof.
  unfold str_of_N. destruct n as [|p]; [discriminate|].
  cbn [N.to_uint]. intros H.
  assert (Pos.to_uint p <> Decimal.Nil) as Hne.
  { intros E. pose proof (DecimalPos.Unsigned.of_to p) as T. rewrite E in T. discriminate. }
  destruct (Pos.to_uint p); try discriminate. now apply Hne.
Qed.

(** Below one hundred, two digits are written. *)
Lemma two_digits_spec (n : N) :
  n < 100 ->
  length (two_digits n) = 2%nat /\ forallb ascii_digit (two_digits n) = true
  /\ digits_to_N (two_digits n) = n.
Proof.
  intros H.
  assert (forallb (fun n => Nat.eqb (length (two_digits n)) 2
                            && forallb ascii_digit (two_digits n)
                            && (digits_to_N (two_digits n) =? n))
                  (map N.of_nat (seq 0 100)) = true) as T by (vm_compute; reflexivity).
  rewrite forallb_forall in T. specialize (T n).
  assert (In n (map N.of_nat (seq 0 100))) as Hin.
  { replace n with (N.of_nat (N.to_nat n)) by apply N2Nat.id.
    apply in_map, in_seq. lia. }
  specialize (T Hin). apply andb_true_iff in T as [T Hv].
  apply andb_true_iff in T as [Hl Hd].
  apply Nat.eqb_eq in Hl. apply N.eqb_eq in Hv. auto.
Qed.

Lemma span_digits_app (ds rest : list N) :
  forallb ascii_digit ds = true ->
  match rest with c :: _ => ascii_digit c = false | [] => True end ->
  span_digits (ds ++ rest) = (ds, rest).
Proof.
  intros Hds Hrest. induction ds as [|c ds IH]; cbn [app].
  - destruct rest as [|c rest]; cbn [span_digits]; [reflexivity|]. now rewrite Hrest.
  - cbn [forallb] in Hds. apply andb_true_iff in Hds as [Hc Hds].
    cbn [span_digits]. rewrite Hc, (IH Hds). reflexivity.
Qed.

Lemma digits_two_more (a b : list N) :
  length b = 2%nat ->
  digits_to_N (a ++ b) = digits_to_N a * 100 + digits_to_N b.
Proof.
  intros Hb. destruct b as [|x [|y [|z b]]]; try discriminate.
  unfold digits_to_N. rewrite digits_to_N_app. cbn [fold_left]. lia.
Qed.

(** What [format_cents] writes spells the cents over one hundred. *)
Lemma read_format_cents (neg : bool) (cents : Z) :
  (0 <= cents)%Z ->
  read_decimal (format_cents neg cents)
  = Some (if neg then Qopp (cents # 100) else (cents # 100))%Q.
Proof.
  intros Hc. unfold format_cents, read_decimal.
  assert (Z.to_N (cents mod 100) < 100) as Hlt
    by (pose proof (Z.mod_pos_bound cents 100); lia).
  destruct (two_digits_spec _ Hlt) as (Hlen & Hdigits & Hvalue).
  pose proof (str_of_N_digits (Z.to_N (cents / 100))) as Hip.
  pose proof (str_of_N_value (Z.to_N (cents / 100))) as Hipv.
  pose proof (str_of_N_not_empty (Z.to_N (cents / 100))) as Hne.
  remember (str_of_N (Z.to_N (cents / 100))) as ip eqn:Eip. clear Eip.
  remember (two_digits (Z.to_N (cents mod 100))) as fp eqn:Efp. clear Efp.
  destruct ip as [|c ip']; [now contradiction Hne|].
  assert (take_sign ((if neg then [45] else []) ++ (c :: ip') ++ [46] ++ fp)
          = (neg, (c :: ip') ++ [46] ++ fp)) as ->.
  { destruct neg; [reflexivity|]. cbn [app take_sign].
    cbn [forallb] in Hip. apply andb_true_iff in Hip as [Hc0 _].
    unfold ascii_digit in Hc0. apply andb_true_iff in Hc0 as [H1 H2].
    apply N.leb_le in H1, H2.
    replace (c =? 45) with false by (symmetry; apply N.eqb_neq; lia).
    replace (c =? 43) with false by (symmetry; apply N.eqb_neq; lia). reflexivity. }
  rewrite (span_digits_app (c :: ip') ([46] ++ fp) Hip) by reflexivity.
  cbn [app]. rewrite N.eqb_refl, Hdigits. cbn [andb].
  change (c :: ip' ++ fp) with ((c :: ip') ++ fp).
  rewrite (digits_two_more (c :: ip') fp Hlen), Hvalue, Hipv, Hlen.
  replace (Z.to_pos (10 ^ Z.of_nat 2)) with 100%positive by reflexivity.
  replace (Z.of_N (Z.to_N (cents / 100) * 100 + Z.to_N (cents mod 100))) with cents;
    [reflexivity|].
  pose proof (Z.div_mod cents 100). pose proof (Z.mod_pos_bound cents 100).
  assert (0 <= cents / 100)%Z by (apply Z.div_pos; lia). lia.
Qed.

(** Rounding to the nearest integer, half to even: the quotient that is
    returned is within a half of the exact quotient. *)
Lemma round_half_even_bound (num den : Z) :
  (0 <= num)%Z -> (0 < den)%Z ->
  (0 <= round_half_even num den)%Z
  /\ (2 * Z.abs (round_half_even num den * den - num) <= den)%Z.
Proof.
  intros Hn Hd. unfold round_half_even.
  pose proof (Z.div_mod num den). pose proof (Z.mod_pos_bound num den).
  assert (0 <= num / den)%Z by (apply Z.div_pos; lia).
  destruct (2 * (num mod den) >? den)%Z eqn:E1.
  - apply Z.gtb_lt in E1. split; nia.
  - assert (2 * (num mod den) <= den)%Z by (rewrite Z.gtb_ltb in E1; apply Z.ltb_ge in E1; lia).
    destruct (2 * (num mod den) =? den)%Z eqn:E2.
    + apply Z.eqb_eq in E2. destruct (Z.even (num / den)); split; nia.
    + split; nia.
Qed.

Lemma cents_of_finite_bound (m : positive) (e : Z) :
  (0 <= cents_of_finite m e)%Z
  /\ match e with
     | Zneg p =>
         (2 * Z.abs (cents_of_finite m e * 2 ^ Zpos p - Zpos m * 100) <= 2 ^ Zpos p)%Z
     | _ => cents_of_finite m e = (Zpos m * 2 ^ e * 100)%Z
     end.
Proof.
  unfold cents_of_finite. destruct e as [|p|p].
  - split; [lia | reflexivity].
  - split; [|reflexivity]. pose proof (Z.pow_pos_nonneg 2 (Zpos p)). nia.
  - apply round_half_even_bound; [lia|]. apply Z.pow_pos_nonneg; lia.
Qed.

Lemma Qabs_opp_diff (a b : Q) : (Qabs (- a - - b) == Qabs (a - b))%Q.
Proof.
  rewrite <- (Qabs_opp (a - b)). apply Qabs_wd. ring.
Qed.

Lemma within_half_a_cent (c n : Z) (d : positive) :
  (2 * Z.abs (c * Zpos d - n * 100) <= Zpos d)%Z ->
  (Qabs ((c # 100) - (n # d)) <= 1 # 200)%Q.
Proof.
  intros H. apply Qabs_Qle_condition.
  unfold Qle, Qminus, Qplus, Qopp. cbn [Qnum Qden]. rewrite !Pos2Z.inj_mul.
  split; nia.
Qed.

(** [f"{x:.2f}"] writes a finite float to the nearest cent: the number that
    the text spells is within half a cent of the value of the float. *)
Lemma format_2f_float_nearest_cent (f : spec_float) (q : Q) :
  float_value f = Some q ->
  exists r, read_decimal (format_2f_float f) = Some r
            /\ (Qabs (r - q) <= 1 # 200)%Q.
Proof.
  destruct f as [s| s | | s m e]; cbn [float_value format_2f_float]; try discriminate.
  - intros [= <-]. rewrite read_format_cents by lia.
    eexists. split; [reflexivity|]. destruct s; vm_compute; discriminate.
  - intros [= <-]. destruct (cents_of_finite_bound m e) as [Hpos Hbound].
    rewrite read_format_cents by exact Hpos.
    eexists. split; [reflexivity|].
    assert (Qabs ((cents_of_finite m e # 100)
                  - match e with
                    | Zneg p => Zpos m # Pos.pow 2 p
                    | _ => inject_Z (Zpos m * 2 ^ e)
                    end) <= 1 # 200)%Q as Hmain.
    { destruct e as [|p|p].
      - apply within_half_a_cent. rewrite Hbound. lia.
      - apply within_half_a_cent. rewrite Hbound. lia.
      - apply within_half_a_cent. rewrite Pos2Z.inj_pow. exact Hbound. }
    destruct s; [|exact Hmain].
    rewrite Qabs_opp_diff. exact Hmain.
Qed.

(** The amounts due.  When the record's [total_ttc] is a finite float, the
    texts of [GrandTotalAmount] and of [DuePayableAmount] are one decimal
    text of two decimals, and the number it spells is within half a cent of
    the value of the float. *)
Theorem amount_is_written_to_the_nearest_cent (data : invoice) (tree : xml)
    (f : spec_float) (q : Q) :
  build_tree data = Ok tree ->
  total_ttc data = Some (PFloat f) ->
  float_value f = Some q ->
  exists s r,
    texts_at (monetary_path (py "GrandTotalAmount")) tree = [Some s]
    /\ texts_at (monetary_path (py "DuePayableAmount")) tree = [Some s]
    /\ read_decimal s = Some r
    /\ (Qabs (r - q) <= 1 # 200)%Q.
Proof.
  intros H Ht Hq. unfold monetary_path.
  destruct (texts_at_monetary data tree [py "GrandTotalAmount"] H) as (m & Hm & ->).
  destruct (texts_at_monetary data tree [py "DuePayableAmount"] H) as (m' & Hm' & ->).
  rewrite Hm in Hm'. injection Hm' as <-.
  unfold monetary_summation in Hm. run Hm. injection Hm as <-.
  rewrite Ht in Hv2, Hv3.
  assert (v2 = PFloat f) by congruence. assert (v3 = PFloat f) by congruence. subst v2 v3.
  cbn [format_2f] in Hr2, Hr3.
  assert (format_2f_float f = r2) by congruence. assert (format_2f_float f = r3) by congruence.
  subst r2 r3.
  destruct (format_2f_float_nearest_cent f q Hq) as (x & Hread & Hbound).
  exists (format_2f_float f), x.
  split; [reflexivity|]. split; [reflexivity|]. split; [exact Hread | exact Hbound].
Qed.

Lemma amount_is_written_to_the_nearest_cent_witness :
  build_tree eighth_invoice = Ok eighth_tree
  /\ total_ttc eighth_invoice = Some (PFloat one_eighth)
  /\ float_value one_eighth = Some (1 # 8)%Q
  /\ texts_at (monetary_path (py "GrandTotalAmount")) eighth_tree = [Some (py "0.12")]
  /\ exists s r,
       texts_at (monetary_path (py "GrandTotalAmount")) eighth_tree = [Some s]
       /\ texts_at (monetary_path (py "DuePayableAmount")) eighth_tree = [Some s]
       /\ read_decimal s = Some r
       /\ (Qabs (r - (1 # 8)) <= 1 # 200)%Q.
Proof.
  assert (build_tree eighth_invoice = Ok eighth_tree) as H by (vm_compute; reflexivity).
  split; [exact H|]. split; [reflexivity|]. split; [reflexivity|].
  split; [vm_compute; reflexivity|].
  exact (amount_is_written_to_the_nearest_cent eighth_invoice eighth_tree one_eighth
           (1 # 8)%Q H eq_refl eq_refl).
Defined.

(* ------------------------------------------------------------------ *)
(** ** When the builder returns a text *)

Lemma ascii_digit_xml_char (c : N) : ascii_digit c = true -> xml_char c = true.
Proof.
  unfold ascii_digit, xml_char, in_range. intros H.
  apply andb_true_iff in H as [H1 H2]. apply N.leb_le in H1, H2.
  replace ((32 <=? c) && (c <=? 55295)) with true; [now rewrite !orb_true_r|].
  symmetry. apply andb_true_iff. split; apply N.leb_le; lia.
Qed.

Lemma digits_xml_chars (s : list N) :
  forallb ascii_digit s = true -> forallb xml_char s = true.
Proof.
  intros H. apply forallb_forall. intros c Hc. rewrite forallb_forall in H.
  exact (ascii_digit_xml_char c (H c Hc)).
Qed.

Lemma two_digits_digits (n : N) : forallb ascii_digit (two_digits n) = true.
Proof.
  unfold two_digits. pose proof (str_of_N_digits n) as H.
  destruct (str_of_N n) as [|d [|d' s]]; exact H.
Qed.

(** What [f"{x:.2f}"] writes is made of characters of XML. *)
Lemma format_2f_float_chars (f : spec_float) :
  forallb xml_char (format_2f_float f) = true.
Proof.
  assert (forall neg cents, forallb xml_char (format_cents neg cents) = true) as Hc.
  { intros neg cents. unfold format_cents. rewrite !forallb_app.
    rewrite (digits_xml_chars _ (str_of_N_digits _)).
    rewrite (digits_xml_chars _ (two_digits_digits _)).
    destruct neg; reflexivity. }
  destruct f as [s|s| |s m e]; cbn [format_2f_float]; try apply Hc;
    [destruct s|]; vm_compute; reflexivity.
Qed.

Lemma ram_leaf_writable (tag s : list N) :
  forallb xml_char s = true -> ram_leaf tag s = Ok (Element RAM tag [] (Some s) []).
Proof. intros H. unfold ram_leaf, as_text. now rewrite H. Qed.

Lemma is_number_written (o : option pyval) :
  is_number o = true ->
  exists v s, o = Some v /\ format_2f v = Ok s /\ forallb xml_char s = true.
Proof.
  unfold is_number. destruct o as [v|]; [|discriminate].
  destruct (format_2f v) as [s|e] eqn:E; [|discriminate]. intros _.
  exists v, s. split; [reflexivity|]. split; [exact E|].
  destruct v as [|z|f|t]; try discriminate.
  - cbn [format_2f] in E. destruct (float_of_int z) as [f|]; [|discriminate].
    injection E as <-. apply format_2f_float_chars.
  - injection E as <-. apply format_2f_float_chars.
Qed.

Lemma present_some {A : Type} (o : option A) : present o = true -> exists a, o = Some a.
Proof. destruct o; [eauto | discriminate]. Qed.

Ltac conjuncts H :=
  repeat match type of H with
         | _ && _ = true =>
             let H' := fresh "C" in
             apply andb_true_iff in H as [H H']
         end.

Lemma line_item_succeeds (idx : nat) (it : item) :
  item_ready it = true -> writable (description it) = true ->
  exists x, line_item idx it = Ok x.
Proof.
  unfold item_ready, writable. intros H Hd. conjuncts H.
  apply present_some in H as [d Ed]. rewrite Ed in Hd. cbn [get_default] in Hd.
  destruct (is_number_written _ C3) as (vp & sp & Ep & Fp & Wp).
  destruct (is_number_written _ C2) as (vq & sq & Eq & Fq & Wq).
  destruct (is_number_written _ C1) as (vr & sr & Er & Fr & Wr).
  destruct (is_number_written _ C0) as (vh & sh & Eh & Fh & Wh).
  unfold line_item.
  rewrite (ram_leaf_writable _ (str_of_N (N.of_nat idx)))
    by exact (digits_xml_chars _ (str_of_N_digits _)).
  cbn [bind]. rewrite Ed. cbn [subscript bind]. rewrite (ram_leaf_writable _ d Hd).
  cbn [bind]. rewrite Ep. cbn [subscript bind]. rewrite Fp. cbn [bind].
  rewrite (ram_leaf_writable _ sp Wp). cbn [bind].
  rewrite Eq. cbn [subscript bind]. rewrite Fq. cbn [bind].
  unfold as_text at 1. rewrite Wq. cbn [bind].
  rewrite !ram_leaf_writable by reflexivity. cbn [bind].
  rewrite Er. cbn [subscript bind]. rewrite Fr. cbn [bind].
  rewrite (ram_leaf_writable _ sr Wr). cbn [bind].
  rewrite Eh. cbn [subscript bind]. rewrite Fh. cbn [bind].
  rewrite (ram_leaf_writable _ sh Wh). cbn [bind]. eauto.
Qed.

Lemma line_items_succeed (l : list item) :
  forallb item_ready l = true ->
  forallb (fun it => writable (description it)) l = true ->
  forall idx, exists lines, line_items idx l = Ok lines.
Proof.
  induction l as [|it l IH]; intros Hr Hw idx; cbn [line_items forallb] in *; [eauto|].
  apply andb_true_iff in Hr as [Hr Hrs]. apply andb_true_iff in Hw as [Hw Hws].
  destruct (line_item_succeeds idx it Hr Hw) as [x ->].
  destruct (IH Hrs Hws (S idx)) as [xs ->]. cbn [bind]. eauto.
Qed.

Lemma group_items_succeed (l : list item) :
  forallb item_ready l = true ->
  forall d, exists rates, foldM group_item l d = Ok rates.
Proof.
  induction l as [|it l IH]; intros Hr d; cbn [foldM forallb] in *; [eauto|].
  apply andb_true_iff in Hr as [Hr Hrs].
  assert (exists d', group_item d it = Ok d') as [d' ->]; [|cbn [bind]; apply IH, Hrs].
  unfold item_ready in Hr. conjuncts Hr.
  assert (forall o, is_number o = true -> exists v x, o = Some v /\ py_float v = Ok x)
    as Hnum.
  { intros o Ho. unfold is_number in Ho. destruct o as [v|]; [|discriminate].
    destruct v as [|z|f|t]; try discriminate.
    - cbn [format_2f] in Ho. exists (PInt z). cbn [py_float].
      destruct (float_of_int z) as [f|] eqn:E; [eauto | discriminate].
    - exists (PFloat f), f. auto. }
  destruct (Hnum _ C1) as (vr & xr & Er & Fr).
  destruct (Hnum _ C0) as (vh & xh & Eh & Fh).
  unfold is_convertible in C.
  destruct (vat_amount it) as [vt|] eqn:Et; [|discriminate].
  destruct (py_float vt) as [xt|] eqn:Ft; [|discriminate].
  unfold group_item, float_object. rewrite Er, Eh, Et. cbn [subscript bind].
  rewrite Fr. cbn [bind]. rewrite Fh. cbn [bind]. rewrite Ft. cbn [bind]. eauto.
Qed.

Lemma tax_blocks_succeed (rates : rate_table) : exists taxes, mapM tax_block rates = Ok taxes.
Proof.
  induction rates as [|[[o rate] [base tax]] rates [taxes IH]]; cbn [mapM]; [eauto|].
  rewrite IH. unfold tax_block.
  rewrite !ram_leaf_writable by (try apply format_2f_float_chars; reflexivity).
  cbn [bind]. eauto.
Qed.

Lemma postal_address_succeeds (p : party) :
  present (postal_code p) && present (address p) && present (city p) = true ->
  writable (postal_code p) && writable (address p) && writable (city p) = true ->
  exists x, postal_address p = Ok x.
Proof.
  intros H W. conjuncts H. conjuncts W.
  apply present_some in H as [pc Epc]. apply present_some in C0 as [ad Ead].
  apply present_some in C as [ci Eci].
  unfold writable in *. rewrite Epc in W. rewrite Ead in C2. rewrite Eci in C1.
  cbn [get_default] in *.
  unfold postal_address. rewrite Epc, Ead, Eci. cbn [subscript bind].
  rewrite !ram_leaf_writable by (assumption || reflexivity). cbn [bind]. eauto.
Qed.

Lemma party_address (p : party) :
  party_ready (Some p) = true -> party_writable (Some p) = true ->
  exists n x,
    name p = Some n /\ forallb xml_char n = true /\ postal_address p = Ok x.
Proof.
  unfold party_ready, party_writable. cbn [get_default]. intros H W.
  conjuncts H. conjuncts W.
  apply present_some in H as [n En]. unfold writable in W. rewrite En in W.
  cbn [get_default] in W.
  destruct (postal_address_succeeds p) as [x Hx].
  - now rewrite C1, C0, C.
  - now rewrite C4, C3, C2.
  - exists n, x. auto.
Qed.

Lemma seller_party_succeeds (p : party) :
  party_ready (Some p) = true -> party_writable (Some p) = true ->
  seller_ids_writable (Some p) = true ->
  exists x, seller_party p = Ok x.
Proof.
  intros H W S. destruct (party_address p H W) as (n & a & En & Wn & Ea).
  unfold seller_ids_writable in S. cbn [get_default] in S.
  apply andb_true_iff in S as [Ws Wv].
  destruct (seller_vat_number p (get_default (siret p) (py "00000000000000")))
    as [t|] eqn:Et; [|discriminate].
  unfold seller_party. rewrite En. cbn [subscript bind].
  rewrite (ram_leaf_writable _ n Wn). cbn [bind].
  rewrite (ram_leaf_writable _ _ Ws). cbn [bind]. rewrite Ea. cbn [bind].
  rewrite Et. cbn [bind]. unfold as_text. rewrite Wv. cbn [bind]. eauto.
Qed.

Lemma buyer_party_succeeds (p : party) :
  party_ready (Some p) = true -> party_writable (Some p) = true ->
  exists x, buyer_party p = Ok x.
Proof.
  intros H W. destruct (party_address p H W) as (n & a & En & Wn & Ea).
  unfold buyer_party. rewrite En. cbn [subscript bind].
  rewrite (ram_leaf_writable _ n Wn). cbn [bind]. rewrite Ea. cbn [bind]. eauto.
Qed.

Lemma monetary_summation_succeeds (data : invoice) :
  is_number (total_ht data) = true -> is_number (total_vat data) = true ->
  is_number (total_ttc data) = true ->
  exists x, monetary_summation data = Ok x.
Proof.
  intros Hh Hv Ht.
  destruct (is_number_written _ Hh) as (vh & sh & Eh & Fh & Wh).
  destruct (is_number_written _ Hv) as (vv & sv & Ev & Fv & Wv).
  destruct (is_number_written _ Ht) as (vt & st & Et & Ft & Wt).
  unfold monetary_summation. rewrite Eh, Ev, Et. cbn [subscript bind].
  rewrite Fh, Fv, Ft. cbn [bind].
  rewrite !(ram_leaf_writable _ sh Wh), !(ram_leaf_writable _ st Wt).
  unfold as_text. rewrite Wv. cbn [bind]. eauto.
Qed.

Lemma build_tree_succeeds (data : invoice) :
  record_ready data = true -> texts_writable data = true ->
  exists tree, build_tree data = Ok tree.
Proof.
  unfold record_ready, texts_writable. intros R W. conjuncts R. conjuncts W.
  apply present_some in R as [n En]. apply present_some in C5 as [d Ed].
  destruct (items data) as [l|] eqn:El; [|discriminate].
  destruct (issuer data) as [p|] eqn:Ep; [|discriminate].
  destruct (recipient data) as [q|] eqn:Eq; [|discriminate].
  cbn [get_default] in *. unfold writable in W. rewrite En in W. rewrite Ed in C10.
  cbn [get_default] in *.
  destruct (line_items_succeed l C4 C9 1) as [lines Hlines].
  destruct (seller_party_succeeds p C3 C8 C7) as [seller Hseller].
  destruct (buyer_party_succeeds q C2 C6) as [buyer Hbuyer].
  destruct (group_items_succeed l C4 []) as [rates Hrates].
  destruct (tax_blocks_succeed rates) as [taxes Htaxes].
  destruct (monetary_summation_succeeds data C1 C0 C) as [monetary Hmon].
  unfold build_tree. rewrite En, Ed, El, Ep, Eq.
  rewrite !ram_leaf_writable by (vm_compute; reflexivity). cbn [subscript bind].
  rewrite (ram_leaf_writable _ n W). cbn [bind].
  unfold as_text at 1. rewrite C10. cbn [bind].
  rewrite Hlines. cbn [bind]. rewrite Hseller. cbn [bind]. rewrite Hbuyer. cbn [bind].
  rewrite Hrates. cbn [bind]. rewrite Htaxes. cbn [bind]. rewrite Hmon. cbn [bind].
  eauto.
Qed.

Lemma as_text_chars_of (s t : list N) :
  as_text s = Ok t -> forallb xml_char s = true /\ t = s.
Proof.
  unfold as_text. destruct (forallb xml_char s); [|discriminate].
  intros [= <-]. auto.
Qed.

Lemma ram_leaf_chars (tag s : list N) (x : xml) :
  ram_leaf tag s = Ok x -> forallb xml_char s = true.
Proof.
  unfold ram_leaf. intros H. apply bind_ok in H as [t [Ht _]].
  exact (proj1 (as_text_chars_of _ _ Ht)).
Qed.

(** Inversion of a successful run, keeping of each text that it is
    writable. *)
Ltac texts H :=
  repeat first
    [ match type of H with
      | bind (ram_leaf _ _) _ = Ok _ =>
          let x := fresh "x" in let Hx := fresh "Hx" in
          apply bind_ok in H as [x [Hx H]]; apply ram_leaf_chars in Hx
      | bind (as_text _) _ = Ok _ =>
          let x := fresh "t" in let Hx := fresh "Ht" in
          apply bind_ok in H as [x [Hx H]]; apply as_text_chars_of in Hx as [Hx _]
      | bind (subscript _) _ = Ok _ =>
          let x := fresh "v" in let Hx := fresh "Hv" in
          apply bind_ok in H as [x [Hx H]]; apply subscript_ok in Hx
      | bind _ _ = Ok _ =>
          let x := fresh "r" in let Hx := fresh "Hr" in
          apply bind_ok in H as [x [Hx H]]
      end
    | progress cbv zeta in H ].

Ltac written_texts :=
  unfold writable;
  repeat match goal with
         | K : ?o = Some _ |- context [get_default ?o _] =>
             rewrite K; cbn [get_default]
         end;
  repeat match goal with
         | K : forallb xml_char ?s = true |- context [forallb xml_char ?s] => rewrite K
         end.

Lemma line_items_writable (l : list item) :
  forall idx lines,
    line_items idx l = Ok lines ->
    forallb (fun it => writable (description it)) l = true.
Proof.
  induction l as [|it l IH]; intros idx lines H; cbn [line_items forallb] in *;
    [reflexivity|].
  apply bind_ok in H as [x [Hx H]]. apply bind_ok in H as [xs [Hxs H]].
  rewrite (IH _ _ Hxs), andb_true_r.
  unfold line_item in Hx. texts Hx. written_texts. reflexivity.
Qed.

Lemma postal_address_writable (p : party) (x : xml) :
  postal_address p = Ok x ->
  writable (postal_code p) && writable (address p) && writable (city p) = true.
Proof.
  unfold postal_address. intros H. texts H. written_texts. reflexivity.
Qed.

Lemma seller_party_writable (p : party) (x : xml) :
  seller_party p = Ok x ->
  party_writable (Some p) = true /\ seller_ids_writable (Some p) = true.
Proof.
  unfold seller_party. intros H. texts H.
  pose proof (postal_address_writable _ _ Hr) as Ha.
  apply andb_true_iff in Ha as [Ha Hc]. apply andb_true_iff in Ha as [Hp Ha].
  unfold party_writable, seller_ids_writable. cbn [get_default].
  rewrite Hp, Ha, Hc, Hr0. written_texts. split; reflexivity.
Qed.

Lemma buyer_party_writable (p : party) (x : xml) :
  buyer_party p = Ok x -> party_writable (Some p) = true.
Proof.
  unfold buyer_party. intros H. texts H.
  pose proof (postal_address_writable _ _ Hr) as Ha.
  apply andb_true_iff in Ha as [Ha Hc]. apply andb_true_iff in Ha as [Hp Ha].
  unfold party_writable. cbn [get_default].
  rewrite Hp, Ha, Hc. written_texts. reflexivity.
Qed.

Lemma build_tree_writable (data : invoice) (tree : xml) :
  build_tree data = Ok tree -> texts_writable data = true.
Proof.
  unfold build_tree. intros H. texts H.
  unfold texts_writable.
  match goal with
  | K1 : items data = Some ?a, K2 : items data = Some ?b |- _ =>
      rewrite K1 in K2; injection K2 as <-
  end.
  repeat match goal with
         | K : line_items _ _ = Ok _ |- _ => apply line_items_writable in K
         | K : seller_party _ = Ok _ |- _ => apply seller_party_writable in K as [? ?]
         | K : buyer_party _ = Ok _ |- _ => apply buyer_party_writable in K
         end.
  repeat match goal with
         | K : ?o = Some _ |- context [get_default ?o _] =>
             rewrite K; cbn [get_default]
         | K : ?o = Some _ |- context [party_writable ?o] => rewrite K
         | K : ?o = Some _ |- context [seller_ids_writable ?o] => rewrite K
         | K : ?o = Some _ |- context [writable ?o] =>
             unfold writable at 1; rewrite K; cbn [get_default]
         end.
  repeat match goal with
         | K : ?b = true |- context [?b] => rewrite K
         end.
  reflexivity.
Qed.

(** Success of the builder, characterised. *)
Lemma builder_characterised (data : invoice) :
  is_ok (_generate_facturx_xml data) = record_ready data && texts_writable data.
Proof.
  destruct (_generate_facturx_xml data) as [text|e] eqn:E; cbn [is_ok].
  - rewrite (built_record_is_ready data text E).
    unfold _generate_facturx_xml in E. apply bind_ok in E as [tree [Htree _]].
    now rewrite (build_tree_writable data tree Htree).
  - destruct (record_ready data && texts_writable data) eqn:C; [|reflexivity].
    apply andb_true_iff in C as [R W].
    destruct (build_tree_succeeds data R W) as [tree Htree].
    unfold _generate_facturx_xml in E. rewrite Htree in E. discriminate E.
Qed.

(** The builder returns a text exactly for the records that have every
    key it subscripts, with numbers where it formats with two decimals, and
    whose texts are made of characters of XML, the seller's VAT number being
    given or derivable from the SIRET.  The validator sees to neither: it
    asks for no [total_ht], no [total_vat], no amount of an item. *)
Theorem builder_returns_a_text_exactly_when (data : invoice) :
  is_ok (_generate_facturx_xml data) = record_ready data && texts_writable data.
Proof. exact (builder_characterised data). Qed.

(* ------------------------------------------------------------------ *)
(** ** The temporary file of [generate_facturx] *)

Lemma starts_with_empty_text (old : list N) : old <> [] -> starts_with old [] = false.
Proof. destruct old; [congruence | reflexivity]. Qed.

(** A text without [old] is left as it is. *)
Lemma replace_from_absent (old new s : list N) :
  contains old s = false -> replace_from old new 0 s = s.
Proof.
  induction s as [|c s IH]; [reflexivity|].
  cbn [contains replace_from]. intros H. apply orb_false_iff in H as [-> H].
  now rewrite (IH H).
Qed.

(** What is written is no shorter than what is read, the characters still
    to pass apart, when [new] is no shorter than [old]. *)
Lemma replace_from_length (old new s : list N) :
  (1 <= length old <= length new)%nat ->
  forall skip, (length s <= length (replace_from old new skip s) + skip)%nat.
Proof.
  intros Hlen. induction s as [|c s IH]; intros skip; cbn [replace_from length]; [lia|].
  destruct skip as [|k].
  - destruct (starts_with old (c :: s)).
    + rewrite length_app. specialize (IH (length old - 1)%nat). lia.
    + cbn [length]. specialize (IH 0%nat). lia.
  - specialize (IH k). lia.
Qed.

(** A text with [old] grows when [new] is longer. *)
Lemma replace_from_longer (old new s : list N) :
  (1 <= length old < length new)%nat ->
  contains old s = true ->
  (length s < length (replace_from old new 0 s))%nat.
Proof.
  intros Hlen. induction s as [|c s IH].
  - cbn [contains]. rewrite orb_false_r, starts_with_empty_text; [discriminate|].
    destruct old; [cbn in Hlen; lia | discriminate].
  - cbn [contains replace_from length]. intros H.
    destruct (starts_with old (c :: s)).
    + rewrite length_app.
      pose proof (replace_from_length old new s ltac:(lia) (length old - 1)%nat). lia.
    + cbn [orb] in H. cbn [length]. specialize (IH H). lia.
Qed.

Lemma str_eqb_length (a b : list N) : length a <> length b -> str_eqb a b = false.
Proof.
  intros H. destruct (str_eqb a b) eqn:E; [|reflexivity].
  apply str_eqb_eq in E. now subst.
Qed.

Lemma starts_with_self (p : list N) : starts_with p p = true.
Proof. induction p as [|a p IH]; cbn [starts_with]; [reflexivity|]. now rewrite N.eqb_refl. Qed.

(** The temporary path is the output path exactly when the output path
    holds no [.pdf]. *)
Lemma temp_pdf_same_path (path : list N) :
  str_eqb (temp_pdf path) path = negb (contains (py ".pdf") path).
Proof.
  unfold temp_pdf.
  assert (exists c old, py ".pdf" = c :: old /\ length (c :: old) = 4%nat)
    as (c & old & Eold & Hold) by (vm_compute; eauto).
  assert (length (py "_temp.pdf") = 9%nat) as Hnew by (vm_compute; reflexivity).
  rewrite Eold in *. unfold py_replace.
  destruct (contains (c :: old) path) eqn:E; cbn [negb].
  - apply str_eqb_length.
    pose proof (replace_from_longer (c :: old) (py "_temp.pdf") path ltac:(lia) E). lia.
  - rewrite replace_from_absent by exact E. apply str_eqb_refl.
Qed.

(** The temporary file is the output file itself exactly when the output
    path holds no [.pdf]; the paths that [generate_invoice] makes hold one,
    whatever the invoice number. *)
Theorem temp_pdf_is_the_output_without_extension (output_path : list N) :
  str_eqb (temp_pdf output_path) output_path = negb (contains (py ".pdf") output_path)
  /\ forall invoice_number_,
       str_eqb (temp_pdf (invoice_path invoice_number_)) (invoice_path invoice_number_)
       = false.
Proof.
  split; [apply temp_pdf_same_path|].
  intros n. rewrite temp_pdf_same_path. apply negb_false_iff. unfold invoice_path.
  generalize (py ".pdf"). intros p. do 4 apply contains_app_r.
  destruct p; [reflexivity|]. cbn [contains]. now rewrite starts_with_self.
Qed.

(* ------------------------------------------------------------------ *)
(** ** The pipeline *)

(** The warning of the fourth step is printed exactly when the step is
    reached (the record is accepted, the PDF is drawn, the tree is built)
    and a text of the document is above the limit of the parser on a text
    node; on a text of the builder the check always has a verdict. *)
Theorem xml_warning_is_printed_exactly_when {content : Type} (w : writers content)
    (invoice_data : invoice) (output_path : list N) (fs : files content) :
  existsb is_warning (printed (generate_facturx w invoice_data output_path fs))
  = match validate_invoice_data invoice_data,
          snd (_generate_pdf w invoice_data (temp_pdf output_path) fs),
          build_tree invoice_data with
    | Ok _, None, Ok root => negb (texts_fit root)
    | _, _, _ => false
    end
  /\ existsb is_unread (printed (generate_facturx w invoice_data output_path fs)) = false.
Proof.
  unfold generate_facturx.
  destruct (validate_invoice_data invoice_data) as [ok|e];
    [|destruct e; split; reflexivity].
  destruct (_generate_pdf w invoice_data (temp_pdf output_path) fs) as [fs1 [f|]];
    cbn [snd]; [split; reflexivity|].
  unfold _generate_facturx_xml.
  destruct (build_tree invoice_data) as [root|e] eqn:E; cbn [bind]; [|split; reflexivity].
  destruct (built_document_checked _ _ E) as (_ & _ & ->).
  destruct (generate_from_file w (temp_pdf output_path) (xml_declaration ++ tostring root)
                               output_path fs1) as [fs2 [f|]];
    destruct (texts_fit root); split; reflexivity.
Qed.

Lemma path_exists_removed {content : Type} (path : list N) (fs : files content) :
  path_exists path (os_remove path fs) = false.
Proof. unfold path_exists, os_remove. now rewrite str_eqb_refl. Qed.

(** After a run that raises nothing, no file is left at the temporary
    path. *)
Lemma no_temporary_file_left {content : Type} (w : writers content)
    (invoice_data : invoice) (output_path : list N) (fs : files content) :
  raised (generate_facturx w invoice_data output_path fs) = None ->
  path_exists (temp_pdf output_path)
    (files_after (generate_facturx w invoice_data output_path fs)) = false.
Proof.
  unfold generate_facturx.
  destruct (validate_invoice_data invoice_data) as [ok|e]; [|destruct e; discriminate].
  destruct (_generate_pdf w invoice_data (temp_pdf output_path) fs) as [fs1 [f|]];
    [discriminate|].
  destruct (_generate_facturx_xml invoice_data) as [xml_content|e]; [|discriminate].
  destruct (generate_from_file w (temp_pdf output_path) xml_content output_path fs1)
    as [fs2 [f|]]; [discriminate|].
  intros _. cbn [files_after].
  destruct (path_exists (temp_pdf output_path) fs2) eqn:E;
    [apply path_exists_removed | exact E].
Qed.

(** After a run that raises nothing, no file is left at the temporary path,
    whatever the two writers do. *)
Theorem temporary_pdf_is_removed {content : Type} (w : writers content)
    (invoice_data : invoice) (output_path : list N) (fs : files content) :
  raised (generate_facturx w invoice_data output_path fs) = None ->
  path_exists (temp_pdf output_path)
    (files_after (generate_facturx w invoice_data output_path fs)) = false.
Proof. exact (no_temporary_file_left w invoice_data output_path fs). Qed.

Lemma temporary_pdf_is_removed_witness :
  raised (generate_facturx plain_writers sample_invoice (invoice_path (py "F-1")) no_file)
  = None
  /\ path_exists (temp_pdf (invoice_path (py "F-1")))
       (files_after
          (generate_facturx plain_writers sample_invoice (invoice_path (py "F-1")) no_file))
     = false.
Proof.
  assert (raised (generate_facturx plain_writers sample_invoice
                    (invoice_path (py "F-1")) no_file) = None) as H
    by (vm_compute; reflexivity).
  split; [exact H|].
  exact (temporary_pdf_is_removed plain_writers sample_invoice _ no_file H).
Defined.

(** With an output path that holds no [.pdf], a run that raises nothing
    leaves no file at the output path: the document that the library wrote
    there is removed as the temporary file. *)
Theorem output_without_extension_is_removed {content : Type} (w : writers content)
    (invoice_data : invoice) (output_path : list N) (fs : files content) :
  contains (py ".pdf") output_path = false ->
  raised (generate_facturx w invoice_data output_path fs) = None ->
  path_exists output_path
    (files_after (generate_facturx w invoice_data output_path fs)) = false.
Proof.
  intros Hno H.
  pose proof (no_temporary_file_left w invoice_data output_path fs H) as Htemp.
  pose proof (temp_pdf_same_path output_path) as Heq.
  rewrite Hno in Heq. apply str_eqb_eq in Heq. rewrite Heq in Htemp. exact Htemp.
Qed.

Lemma output_without_extension_is_removed_witness :
  contains (py ".pdf") (py "facture") = false
  /\ raised (generate_facturx plain_writers sample_invoice (py "facture") no_file) = None
  /\ path_exists (py "facture")
       (files_after (generate_facturx plain_writers sample_invoice (py "facture") no_file))
     = false.
Proof.
  assert (contains (py ".pdf") (py "facture") = false) as Hno by (vm_compute; reflexivity).
  assert (raised (generate_facturx plain_writers sample_invoice (py "facture") no_file)
          = None) as H by (vm_compute; reflexivity).
  split; [exact Hno|]. split; [exact H|].
  exact (output_without_extension_is_removed plain_writers sample_invoice (py "facture")
           no_file Hno H).
Defined.

(* ------------------------------------------------------------------ *)
(** ** From the form to the document *)

(** The fields of the record other than the items and the totals. *)
Lemma build_invoice_data_header (f : form) (data : invoice) :
  build_invoice_data f = Ok data ->
  date data = form_date f /\ invoice_number data = form_invoice_number f
  /\ issuer data
     = Some {| name := issuer_name f; address := issuer_address f;
               postal_code := issuer_postal f; city := issuer_city f;
               siret := Some (get_default (issuer_siret f) []);
               vat_number := Some (get_default (issuer_vat f) []) |}
  /\ recipient data
     = Some {| name := recipient_name f; address := recipient_address f;
               postal_code := recipient_postal f; city := recipient_city f;
               siret := Some (get_default (recipient_siret f) []);
               vat_number := Some (get_default (recipient_vat f) []) |}.
Proof.
  unfold build_invoice_data. intros H.
  repeat match type of H with
         | bind (subscript ?o) _ = Ok _ =>
             let x := fresh "v" in let Hx := fresh "Hv" in
             apply bind_ok in H as [x [Hx H]]; apply subscript_ok in Hx; rewrite Hx
         end.
  apply bind_ok in H as [l [_ H]]. apply bind_ok in H as [ht [_ H]].
  apply bind_ok in H as [vat [_ H]]. apply bind_ok in H as [ttc [_ H]].
  injection H as <-. cbn. auto.
Qed.

Lemma float_is_number (x : spec_float) : is_ok (format_2f (PFloat x)) = true.
Proof. reflexivity. Qed.

Lemma sum_is_number (field : item -> option pyval) (l : list item) (t : pyval) :
  Forall (fun it => exists x, field it = Some (PFloat x)) l ->
  py_sum field l = Ok t -> is_number (Some t) = true.
Proof.
  intros Hall Hsum.
  destruct (py_sum_floats field l Hall (PInt 0) (or_introl eq_refl)) as (t' & Et & Ht).
  unfold py_sum in Hsum. rewrite Hsum in Et. injection Et as <-.
  destruct Ht as [-> | [x ->]]; reflexivity.
Qed.

Lemma form_items_ready (l : list item) (ds : list (list N)) :
  map description l = map Some ds -> Forall item_follows_formulas l ->
  forallb (forallb xml_char) ds = true ->
  forallb item_ready l = true
  /\ forallb (fun it => writable (description it)) l = true.
Proof.
  revert ds. induction l as [|it l IH]; intros [|d ds] Hmap Hall Hw; try discriminate;
    [split; reflexivity|].
  cbn [map] in Hmap. injection Hmap as Hd Hmap.
  apply Forall_cons_iff in Hall as [(q & p & r & Eq & Ep & Er & Eh & Ev & Et) Hall].
  cbn [forallb] in Hw. apply andb_true_iff in Hw as [Hwd Hw].
  destruct (IH ds Hmap Hall Hw) as [I1 I2]. cbn [forallb]. rewrite I1, I2.
  unfold item_ready, writable, is_number, is_convertible.
  rewrite Hd, Eq, Ep, Er, Eh, Ev. cbn [get_default]. rewrite Hwd.
  split; reflexivity.
Qed.

Lemma forallb_filter {A : Type} (f g : A -> bool) (l : list A) :
  forallb f l = true -> forallb f (filter g l) = true.
Proof.
  intros H. apply forallb_forall. intros a Ha. apply filter_In in Ha as [Ha _].
  rewrite forallb_forall in H. exact (H a Ha).
Qed.

Lemma format_02d_chars (z : Z) : (0 <= z)%Z -> forallb xml_char (format_02d z) = true.
Proof.
  intros Hz. unfold format_02d, str_of_Z. destruct z as [|p|p]; [| |lia].
  - reflexivity.
  - pose proof (digits_xml_chars _ (str_of_N_digits (Z.to_N (Z.pos p)))) as H.
    destruct (str_of_N (Z.to_N (Z.pos p))) as [|d [|d' s]]; exact H.
Qed.

(** The VAT number derived from a SIRET that the validator accepts and that
    holds digits and plain spaces only can be written. *)
Lemma derived_vat_number_writable (s : list N) :
  siret_acceptable (Some s) = true ->
  forallb xml_char s = true ->
  forallb (fun c => (c =? 32) || py_isdecimal c) s = true ->
  exists t, derive_vat_number s = Ok t /\ forallb xml_char t = true.
Proof.
  intros Hok Hw Hd. unfold siret_acceptable in Hok. cbn [get_default] in Hok.
  destruct s as [|c s]; [exists (py "FR00" ++ []); split; vm_compute; reflexivity|].
  unfold spec_siret_valid in Hok. apply andb_true_iff in Hok as [Hok _].
  apply andb_true_iff in Hok as [Hlen _]. apply Nat.eqb_eq in Hlen.
  rewrite (derive_vat_number_reads_digits (c :: s) Hd) by lia.
  eexists. split; [reflexivity|].
  unfold spec_vat_number. rewrite !forallb_app. apply andb_true_iff. split; [reflexivity|].
  apply andb_true_iff. split.
  - apply format_02d_chars. apply Z.mod_pos_bound. lia.
  - unfold spec_siren. apply forallb_firstn. unfold sub_space_hyphen.
    apply forallb_filter. exact Hw.
Qed.

(** From the form to the document.  When the form is turned into a record
    that the validator accepts, and its texts can be written, the builder
    returns a text, the document written for the tree built; the structural
    check returns true on it, unless a text of the tree is above the limit of
    the parser on a text node. *)
Theorem form_document_is_built (f : form) (data : invoice) :
  build_invoice_data f = Ok data ->
  validate_invoice_data data = Ok true ->
  form_writable f = true ->
  exists root text,
    build_tree data = Ok root /\ _generate_facturx_xml data = Ok text
    /\ _validate_xml text = Some (texts_fit root).
Proof.
  intros Hbuild Hvalid Hw.
  destruct (build_invoice_data_inv f data Hbuild)
    as (Hconv & l & ht & vat & ttc & Hl & Hdesc & Hall & Eht & Sht & Evat & Svat
        & Ettc & Sttc).
  destruct (build_invoice_data_header f data Hbuild) as (Hdate & Hnum & Hissuer & Hrecip).
  destruct (accepted_is_well_formed data Hvalid)
    as ((y & m & dd & Hstrp & _) & _ & _ & Hsiret & _).
  unfold form_convertible in Hconv. conjuncts Hconv.
  unfold form_writable in Hw. conjuncts Hw.
  assert (forallb (forallb xml_char) (descriptions f) = true) as Hdescs by assumption.
  assert (writable (issuer_siret f) = true) as Hsw by assumption.
  assert (match get_default (issuer_vat f) [] with
          | [] => forallb (fun c => (c =? 32) || py_isdecimal c)
                          (get_default (issuer_siret f) [])
          | _ :: _ => writable (issuer_vat f)
          end = true) as Hvw by assumption.
  destruct (form_items_ready l _ Hdesc Hall (forallb_filter _ line_filled _ Hdescs))
    as [Hready Hwritten].
  assert (record_ready data && texts_writable data = true) as Hok.
  { apply andb_true_iff. split.
    - unfold record_ready. rewrite Hnum, Hdate, Hl, Hissuer, Hrecip, Eht, Evat, Ettc.
      cbn [party_ready name postal_code address city].
      rewrite Hready.
      rewrite (sum_is_number _ _ _ (formulas_field l _ formulas_amount_ht Hall) Sht).
      rewrite (sum_is_number _ _ _ (formulas_field l _ formulas_vat_amount Hall) Svat).
      rewrite (sum_is_number _ _ _ (formulas_field l _ formulas_amount_ttc Hall) Sttc).
      repeat match goal with
             | K : ?x = true |- context [?x] => rewrite K
             end.
      reflexivity.
    - unfold texts_writable. rewrite Hnum, Hl, Hissuer, Hrecip. cbn [get_default].
      rewrite Hwritten.
      unfold party_writable. cbn [get_default name postal_code address city].
      repeat match goal with
             | K : writable ?x = true |- context [writable ?x] => rewrite K
             end.
      assert (forallb xml_char (remove_char 45 (get_default (date data) [])) = true) as Hd.
      { destruct (strptime_text_shape _ _ Hstrp) as [Hchars _].
        apply forallb_forall. intros c Hc. rewrite forallb_forall in Hchars.
        specialize (Hchars c Hc). unfold date_char in Hchars.
        now apply andb_true_iff in Hchars as [-> _]. }
      rewrite Hd.
      unfold seller_ids_writable. cbn [get_default siret vat_number].
      unfold writable in Hsw. rewrite Hsw.
      unfold seller_vat_number. cbn [vat_number get_default].
      destruct (get_default (issuer_vat f) []) as [|c v] eqn:Ev.
      + specialize (Hsiret Issuer). unfold party_of in Hsiret. rewrite Hissuer in Hsiret.
        cbn [get_default siret] in Hsiret.
        destruct (derived_vat_number_writable _ Hsiret Hsw Hvw) as (t & -> & ->).
        reflexivity.
      + unfold writable in Hvw. rewrite Ev in Hvw. rewrite Hvw. reflexivity. }
  rewrite <- builder_characterised in Hok. unfold _generate_facturx_xml in *.
  destruct (build_tree data) as [root|e] eqn:E; [|discriminate].
  exists root, (xml_declaration ++ tostring root).
  split; [reflexivity|]. split; [reflexivity|].
  exact (proj2 (proj2 (built_document_checked data root E))).
Qed.

Lemma form_document_is_built_witness :
  build_invoice_data sample_form = Ok form_invoice
  /\ validate_invoice_data form_invoice = Ok true
  /\ form_writable sample_form = true
  /\ build_tree form_invoice = Ok form_tree /\ texts_fit form_tree = true
  /\ exists root text,
       build_tree form_invoice = Ok root /\ _generate_facturx_xml form_invoice = Ok text
       /\ _validate_xml text = Some (texts_fit root).
Proof.
  assert (build_invoice_data sample_form = Ok form_invoice) as H1
    by (vm_compute; reflexivity).
  assert (validate_invoice_data form_invoice = Ok true) as H2 by (vm_compute; reflexivity).
  assert (form_writable sample_form = true) as H3 by (vm_compute; reflexivity).
  split; [exact H1|]. split; [exact H2|]. split; [exact H3|].
  split; [vm_compute; reflexivity|]. split; [vm_compute; reflexivity|].
  exact (form_document_is_built sample_form form_invoice H1 H2 H3).
Defined.

(* ------------------------------------------------------------------ *)
(** ** A text above the limit of the parser *)

Lemma texts_fit_children (e : xml) :
  texts_fit e = true -> Forall (fun c => texts_fit c = true) (xml_children e).
Proof.
  destruct e as [s tag attrib text children]. cbn [texts_fit xml_children].
  intros H. apply andb_true_iff in H as [_ H]. apply Forall_forall.
  rewrite forallb_forall in H. exact H.
Qed.

Lemma texts_fit_ram_path (path : list (list N)) :
  forall e, texts_fit e = true -> Forall (fun c => texts_fit c = true) (ram_path path e).
Proof.
  induction path as [|tag path IH]; intros e He; cbn [ram_path].
  - constructor; [exact He | constructor].
  - apply Forall_flat_map. unfold ram_children.
    pose proof (texts_fit_children e He) as Hc. rewrite Forall_forall in Hc.
    apply Forall_forall. intros c Hin. apply filter_In in Hin as [Hin _].
    exact (IH c (Hc c Hin)).
Qed.

(** The texts found in a tree whose texts fit are within the limit. *)
Lemma texts_fit_texts_at (path : list (list N)) (root : xml) (t : list N) :
  texts_fit root = true -> In (Some t) (texts_at path root) -> bytes t <= text_limit.
Proof.
  intros Hroot Hin. unfold texts_at, elements_at in Hin.
  apply in_map_iff in Hin as (x & Ex & Hx). apply in_flat_map in Hx as (c & Hc & Hx).
  apply filter_In in Hc as [Hc _].
  pose proof (texts_fit_children root Hroot) as K. rewrite Forall_forall in K.
  pose proof (texts_fit_ram_path path c (K c Hc)) as K'. rewrite Forall_forall in K'.
  specialize (K' x Hx). destruct x as [s tag attrib text children].
  cbn [xml_text] in Ex. subst text. cbn [texts_fit get_default] in K'.
  apply andb_true_iff in K' as [K' _]. now apply N.leb_le.
Qed.

(** A description above the limit: the structural check returns false on
    the document. *)
Lemma long_description_refused (data : invoice) (text : list N) (l : list item)
    (it : item) (d : list N) :
  _generate_facturx_xml data = Ok text ->
  items data = Some l -> In it l -> description it = Some d ->
  text_limit < bytes d ->
  _validate_xml text = Some false.
Proof.
  intros H Hl Hin Hd Hlong. unfold _generate_facturx_xml in H.
  apply bind_ok in H as [root [Hroot H]].
  assert (xml_declaration ++ tostring root = text) as Htext by congruence.
  clear H. subst text.
  destruct (built_document_checked data root Hroot) as (_ & _ & ->). f_equal.
  destruct (texts_fit root) eqn:Hfit; [|reflexivity]. exfalso.
  destruct (texts_at_lines data root Hroot) as (l' & lines & Hl' & Hlines & E).
  rewrite Hl in Hl'. injection Hl' as <-.
  assert (texts_at line_name_path root = map description l) as Enames
    by (unfold line_name_path; rewrite E;
        exact (proj2 (line_items_numbers l 1 lines Hlines))).
  assert (In (Some d) (texts_at line_name_path root)) as Hd'
    by (rewrite Enames, <- Hd; now apply in_map).
  pose proof (texts_fit_texts_at _ _ _ Hfit Hd'). lia.
Qed.

Lemma letters_are_characters (n : nat) : forallb xml_char (97 :: repeat 97 n) = true.
Proof.
  change (forallb xml_char (repeat 97 (S n)) = true).
  induction (S n) as [|k IH]; [reflexivity|]. cbn [repeat forallb]. now rewrite IH.
Qed.

Lemma letters_bytes (n : nat) : bytes (97 :: repeat 97 n) = 1 + N.of_nat n.
Proof.
  rewrite bytes_cons, bytes_repeat. replace (utf8_length 97) with 1 by reflexivity. lia.
Qed.

(** The sample invoice is accepted and built whatever its description, as
    long as the description is not empty and made of characters of XML. *)
Lemma with_description_accepted (c : N) (d : list N) :
  validate_invoice_data (with_description (c :: d)) = Ok true.
Proof. vm_compute. reflexivity. Qed.

Lemma with_description_built (d : list N) :
  forallb xml_char d = true ->
  exists text, _generate_facturx_xml (with_description d) = Ok text.
Proof.
  intros Hd.
  assert (is_ok (_generate_facturx_xml (with_description d)) = true) as H.
  { rewrite builder_characterised.
    assert (record_ready (with_description d) = true) as -> by (vm_compute; reflexivity).
    unfold texts_writable.
    assert (forallb (fun it => writable (description it))
                    (get_default (items (with_description d)) []) = true) as ->.
    { cbn [with_description with_items items get_default forallb described description].
      unfold writable. cbn [get_default]. now rewrite Hd. }
    vm_compute. reflexivity. }
  destruct (_generate_facturx_xml (with_description d)) as [text|e]; [eauto | discriminate].
Qed.

(** C8, counterexample.  The sample invoice with a description of
    10,000,001 bytes: the validator accepts it, the builder returns a text,
    and the structural check returns false on it. *)
Lemma long_description_fails_structural_check :
  validate_invoice_data oversize_invoice = Ok true
  /\ items oversize_invoice = Some [described long_text]
  /\ bytes long_text = 10000001
  /\ exists text,
       _generate_facturx_xml oversize_invoice = Ok text
       /\ _validate_xml text = Some false.
Proof.
  assert (bytes long_text = 10000001) as Hbytes.
  { unfold long_text. rewrite letters_bytes, N2Nat.id. reflexivity. }
  split; [exact (with_description_accepted 97 _)|].
  split; [reflexivity|]. split; [exact Hbytes|].
  destruct (with_description_built long_text (letters_are_characters _)) as [text Htext].
  exists text. split; [exact Htext|].
  apply (long_description_refused oversize_invoice text [described long_text]
           (described long_text) long_text Htext eq_refl (or_introl eq_refl) eq_refl).
  rewrite Hbytes. reflexivity.
Qed.
